(** * Netflix dashboard: the filtering and aggregation pipeline of [app.py]

    The script reads a CSV into a pandas frame, cleans it ([load_data]),
    derives the sidebar options, filters the frame ([filtered_df]) and feeds
    grouped counts to the charts.  The development below embeds the frame
    operations the script calls and the script's own definitions, then
    states the properties of the pipeline. *)

From Stdlib Require Import String Ascii List ZArith Bool Arith Lia.
From Stdlib Require Import Permutation Sorted.
From Stdlib Require OrderedTypeEx.
Import ListNotations.
Local Open Scope string_scope.
Local Open Scope list_scope.
Local Open Scope nat_scope.

(* ================================================================== *)
(** ** Errors *)
(* ================================================================== *)

(** The exceptions the modelled lines can raise. *)
Inductive error : Type :=
| KeyError (column : string)      (* df["c"] on a missing column *)
| TypeError                        (* ordering a string against a number *)
| ValueError                       (* int(nan) *)
| NameError.                       (* a name bound to no object *)

Inductive result (A : Type) : Type :=
| Ok (a : A)
| Err (e : error).
Arguments Ok {A} a.
Arguments Err {A} e.

Definition bind {A B} (m : result A) (k : A -> result B) : result B :=
  match m with
  | Ok a => k a
  | Err e => Err e
  end.

Notation "x <- m ;; k" := (bind m (fun x => k))
  (at level 61, m at next level, right associativity).

Fixpoint mapM {A B} (f : A -> result B) (l : list A) : result (list B) :=
  match l with
  | [] => Ok []
  | x :: t => y <- f x ;; ys <- mapM f t ;; Ok (y :: ys)
  end.

(* ================================================================== *)
(** ** Frames *)
(* ================================================================== *)

Module Pandas.

(** A parsed [date_added]; only the calendar fields matter here. *)
Record Timestamp : Type := mkTimestamp { year : Z; month : Z; day : Z }.

(** One cell of a frame.  [NaN] stands for every null (NaN, NaT, None). *)
Inductive cell : Type :=
| NaN
| Str (s : string)
| Int (z : Z)
| Date (d : Timestamp)
| StrList (l : list string).     (* result of [.str.split] *)

Definition Timestamp_eq_dec (a b : Timestamp) : {a = b} + {a <> b}.
Proof. decide equality; apply Z.eq_dec. Defined.

Definition cell_eq_dec (a b : cell) : {a = b} + {a <> b}.
Proof.
  decide equality.
  - apply string_dec.
  - apply Z.eq_dec.
  - apply Timestamp_eq_dec.
  - apply (list_eq_dec string_dec).
Defined.

Arguments cell_eq_dec : simpl never.

Definition cell_eqb (a b : cell) : bool :=
  if cell_eq_dec a b then true else false.

Definition isnull (c : cell) : bool :=
  match c with NaN => true | _ => false end.

Definition notnull (c : cell) : bool := negb (isnull c).

(** A row keeps its index label and its cells, one per column; a row
    shorter than the header reads as null in the missing positions, as
    [read_csv] pads short lines. *)
Record row : Type := mkRow { label : nat; cells : list cell }.

Record DataFrame : Type := mkFrame { columns : list string; rows : list row }.

Definition cell_at (i : nat) (r : row) : cell := nth i (cells r) NaN.

Fixpoint set_nth (i : nat) (v : cell) (l : list cell) : list cell :=
  match i, l with
  | O, [] => [v]
  | O, _ :: t => v :: t
  | S j, [] => NaN :: set_nth j v []
  | S j, x :: t => x :: set_nth j v t
  end.

Definition set_cell (i : nat) (v : cell) (r : row) : row :=
  mkRow (label r) (set_nth i v (cells r)).

(** Position of the first column named [c]. *)
Fixpoint col_index (c : string) (cols : list string) : option nat :=
  match cols with
  | [] => None
  | c' :: t =>
      if String.eqb c c' then Some O
      else match col_index c t with
           | Some i => Some (S i)
           | None => None
           end
  end.

(** [df[c]] as a position, or [KeyError]. *)
Definition loc (c : string) (df : DataFrame) : result nat :=
  match col_index c (columns df) with
  | Some i => Ok i
  | None => Err (KeyError c)
  end.

(** [df[c]]: the column as a series of cells. *)
Definition getitem (c : string) (df : DataFrame) : result (list cell) :=
  i <- loc c df ;; Ok (map (cell_at i) (rows df)).

(** [c in df.columns]. *)
Definition has_column (c : string) (df : DataFrame) : bool :=
  match col_index c (columns df) with Some _ => true | None => false end.

(** The cell of row [r] under column [c] of a header (null when the
    header has no such column). *)
Definition field (cols : list string) (c : string) (r : row) : cell :=
  match col_index c cols with
  | Some i => cell_at i r
  | None => NaN
  end.

(** Header after [df[c] = series]: an existing column keeps its place, a
    new one goes last. *)
Definition add_column (c : string) (cols : list string) : list string :=
  match col_index c cols with
  | Some _ => cols
  | None => cols ++ [c]
  end.

Definition target (c : string) (cols : list string) : nat :=
  match col_index c cols with
  | Some i => i
  | None => length cols
  end.

Fixpoint assign_rows (i : nat) (vals : list cell) (rs : list row) : list row :=
  match vals, rs with
  | v :: vs, r :: t => set_cell i v r :: assign_rows i vs t
  | _, _ => rs
  end.

(** [df[c] = series] (the series comes from the same frame, so it is
    aligned row by row). *)
Definition setitem (c : string) (vals : list cell) (df : DataFrame) : DataFrame :=
  mkFrame (add_column c (columns df))
          (assign_rows (target c (columns df)) vals (rows df)).

(** [df[mask]]: boolean indexing. *)
Fixpoint select (mask : list bool) (rs : list row) : list row :=
  match mask, rs with
  | b :: m, r :: t => if b then r :: select m t else select m t
  | _, _ => []
  end.

Definition mask_rows (mask : list bool) (df : DataFrame) : DataFrame :=
  mkFrame (columns df) (select mask (rows df)).

(** [df.dropna(subset=[c])]. *)
Definition dropna (c : string) (df : DataFrame) : result DataFrame :=
  s <- getitem c df ;; Ok (mask_rows (map notnull s) df).

(** [series.fillna(v)]. *)
Definition fillna1 (v c : cell) : cell := if isnull c then v else c.

Definition fillna (v : cell) (s : list cell) : list cell := map (fillna1 v) s.

(** [series.isin(values)]. *)
Definition isin1 (values : list cell) (c : cell) : bool :=
  existsb (cell_eqb c) values.

Definition isin (values : list cell) (s : list cell) : list bool :=
  map (isin1 values) s.

(** [lo <= x <= hi] on one element: a null compares false, an integer is
    tested, anything else cannot be ordered against an integer. *)
Definition between1 (lo hi : Z) (c : cell) : result bool :=
  match c with
  | NaN => Ok false
  | Int z => Ok (Z.leb lo z && Z.leb z hi)
  | _ => Err TypeError
  end.

(** [series.between(lo, hi)], both ends inclusive. *)
Definition between (lo hi : Z) (s : list cell) : result (list bool) :=
  mapM (between1 lo hi) s.

(** [a & b] on aligned masks. *)
Fixpoint mask_and (a b : list bool) : list bool :=
  match a, b with
  | x :: a', y :: b' => (x && y) :: mask_and a' b'
  | _, _ => []
  end.

(** *** Splitting strings *)

Fixpoint starts_with (p s : string) : bool :=
  match p, s with
  | EmptyString, _ => true
  | String a p', String b s' => Ascii.eqb a b && starts_with p' s'
  | String _ _, EmptyString => false
  end.

Fixpoint rev_string (acc : list ascii) (out : string) : string :=
  match acc with
  | [] => out
  | a :: t => rev_string t (String a out)
  end.

(** Scan [s] left to right; [cur] holds the current token reversed and
    [skip] counts the separator characters still to jump over. *)
Fixpoint split_scan (sep s : string) (skip : nat) (cur : list ascii) : list string :=
  match s with
  | EmptyString => [rev_string cur EmptyString]
  | String a s' =>
      match skip with
      | S k => split_scan sep s' k cur
      | O =>
          if starts_with sep s
          then rev_string cur EmptyString :: split_scan sep s' (String.length sep - 1) []
          else split_scan sep s' O (a :: cur)
      end
  end.

(** Python's [s.split(sep)] for a non-empty separator. *)
Definition split (sep s : string) : list string := split_scan sep s O [].

(** [series.str.split(sep)] on a column of strings (dtype object):
    strings become lists, a null stays null, and so does any other value
    met among the strings.  pandas refuses [.str] (AttributeError) on a
    column of another dtype, one that holds numbers only; the script
    applies it to [country] and [listed_in], which the loader has filled
    with ["Unknown"], and the statements below that speak of success
    after [.str] are about columns of strings. *)
Definition str_split1 (sep : string) (c : cell) : cell :=
  match c with Str x => StrList (split sep x) | _ => NaN end.

Definition str_split (sep : string) (s : list cell) : list cell :=
  map (str_split1 sep) s.

(** Elements one cell contributes to [explode]: a list gives its items
    (an empty list gives one null), a scalar stays. *)
Definition explode_cell (c : cell) : list cell :=
  match c with
  | StrList [] => [NaN]
  | StrList l => map Str l
  | _ => [c]
  end.

(** [series.explode()]. *)
Definition explode (s : list cell) : list cell := flat_map explode_cell s.

(** [df.explode(c)]: one row per element, the other cells and the label
    repeated. *)
Definition explode_rows (i : nat) (rs : list row) : list row :=
  flat_map (fun r => map (fun v => set_cell i v r) (explode_cell (cell_at i r))) rs.

Definition explode_frame (c : string) (df : DataFrame) : result DataFrame :=
  i <- loc c df ;; Ok (mkFrame (columns df) (explode_rows i (rows df))).

(** *** Counting values *)

(** A counted series: index value and count, in row order. *)
Definition counts : Type := list (cell * nat).

(** One step of the hash-table pass: a key already seen is incremented
    in place, a new key is appended. *)
Fixpoint bump (k : cell) (tbl : counts) : counts :=
  match tbl with
  | [] => [(k, 1)]
  | (k', n) :: t => if cell_eqb k k' then (k', S n) :: t else (k', n) :: bump k t
  end.

Definition tally (s : list cell) : counts :=
  fold_left (fun tbl k => bump k tbl) s [].

(** [sort_values] on a counted series, [ascending] or not.  pandas hands
    the counts to numpy's default sort, which is not a stable one: it
    puts the counts in order and promises nothing about rows with equal
    counts.  The sort is therefore an interface, carrying what it does
    promise: the rows are rearranged, and their counts are in order. *)
Class SortValues : Type := {
  sort_values : bool -> counts -> counts;
  sort_values_perm :
    forall ascending l, Permutation (sort_values ascending l) l;
  sort_values_ascending :
    forall l, StronglySorted (fun a b => snd a <= snd b) (sort_values true l);
  sort_values_descending :
    forall l, StronglySorted (fun a b => snd a >= snd b) (sort_values false l)
}.

(** [series.value_counts()]: nulls are dropped, each distinct value is
    counted, the result is sorted by descending count. *)
Definition value_counts {sorter : SortValues} (s : list cell) : counts :=
  sort_values false (tally (filter notnull s)).

(** [counted.drop(index=[k], errors="ignore")]. *)
Definition drop_index (k : cell) (l : counts) : counts :=
  filter (fun p => negb (cell_eqb (fst p) k)) l.

(** [counted.head(n)]. *)
Definition head (n : nat) (l : counts) : counts := firstn n l.

(** [series.unique()]: distinct values in order of first appearance. *)
Fixpoint unique_from (seen : list cell) (s : list cell) : list cell :=
  match s with
  | [] => []
  | x :: t =>
      if isin1 seen x then unique_from seen t
      else x :: unique_from (seen ++ [x]) t
  end.

Definition unique (s : list cell) : list cell := unique_from [] s.

(** *** Ordering scalars *)

Definition Timestamp_ltb (a b : Timestamp) : bool :=
  (year a <? year b)%Z
  || ((year a =? year b)%Z
      && ((month a <? month b)%Z || ((month a =? month b)%Z && (day a <? day b)%Z))).

(** Python's [a < b]: defined inside one kind of scalar only. *)
Definition cell_ltb (a b : cell) : result bool :=
  match a, b with
  | Str x, Str y => Ok (String.ltb x y)
  | Int x, Int y => Ok (x <? y)%Z
  | Date x, Date y => Ok (Timestamp_ltb x y)
  | _, _ => Err TypeError
  end.

Fixpoint insert_sorted (x : cell) (l : list cell) : result (list cell) :=
  match l with
  | [] => Ok [x]
  | y :: t =>
      lt <- cell_ltb x y ;;
      if lt then Ok (x :: y :: t)
      else (t' <- insert_sorted x t ;; Ok (y :: t'))
  end.

(** [sorted(values)]. *)
Fixpoint sorted (l : list cell) : result (list cell) :=
  match l with
  | [] => Ok []
  | x :: t => t' <- sorted t ;; insert_sorted x t'
  end.

(** [int(series.min())] and [int(series.max())]: nulls are skipped; an
    all-null or empty series has a null extremum, which [int] rejects. *)
Fixpoint extremum (pick : Z -> Z -> Z) (s : list cell) : result (option Z) :=
  match s with
  | [] => Ok None
  | NaN :: t => extremum pick t
  | Int z :: t =>
      m <- extremum pick t ;;
      Ok (Some (match m with Some w => pick z w | None => z end))
  | _ :: _ => Err TypeError
  end.

Definition int_of (m : result (option Z)) : result Z :=
  o <- m ;; match o with Some z => Ok z | None => Err ValueError end.

Definition int_min (s : list cell) : result Z := int_of (extremum Z.min s).
Definition int_max (s : list cell) : result Z := int_of (extremum Z.max s).

End Pandas.

Import Pandas.

(* ================================================================== *)
(** ** The script *)
(* ================================================================== *)

Section Script.

(** The date parser behind [pd.to_datetime].  It is given the series it
    works on, from which the date format is inferred, and the element to
    read; [None] when the element cannot be read as a date. *)
Variable parse_datetime : list cell -> cell -> option Timestamp.

(** One element under [errors="coerce"]: a null stays null, a value that
    cannot be read becomes null. *)
Definition to_datetime1 (parse1 : cell -> option Timestamp) (c : cell) : cell :=
  match c with
  | NaN => NaN
  | _ => match parse1 c with
         | Some d => Date d
         | None => NaN
         end
  end.

(** [pd.to_datetime(series, errors="coerce")]. *)
Definition to_datetime (s : list cell) : list cell :=
  map (to_datetime1 (parse_datetime s)) s.

(** [series.dt.year]. *)
Definition dt_year1 (c : cell) : cell :=
  match c with Date d => Int (year d) | _ => NaN end.

Definition dt_year (s : list cell) : list cell := map dt_year1 s.

Definition Unknown : cell := Str "Unknown".

(** [load_data], applied to the frame [read_csv] returned. *)
Definition load_data (raw : DataFrame) : result DataFrame :=
  s <- getitem "date_added" raw ;;
  let df := setitem "date_added" (to_datetime s) raw in
  df <- dropna "date_added" df ;;
  s <- getitem "date_added" df ;;
  let df := setitem "year_added" (dt_year s) df in
  s <- getitem "country" df ;;
  let df := setitem "country" (fillna Unknown s) df in
  s <- getitem "listed_in" df ;;
  let df := setitem "listed_in" (fillna Unknown s) df in
  s <- getitem "rating" df ;;
  let df := setitem "rating" (fillna Unknown s) df in
  Ok df.

End Script.

(** Options and default of the "Content Type" widget. *)
Definition content_type_options (df : DataFrame) : result (list cell) :=
  s <- getitem "type" df ;; sorted (unique (filter notnull s)).

Definition min_year (df : DataFrame) : result Z :=
  s <- getitem "year_added" df ;; int_min s.

Definition max_year (df : DataFrame) : result Z :=
  s <- getitem "year_added" df ;; int_max s.

(** Default of the year slider. *)
Definition year_range_default (df : DataFrame) : result (Z * Z) :=
  lo <- min_year df ;; hi <- max_year df ;; Ok (Z.max lo 2015, hi).

(** [df[c].str.split(", ").explode().value_counts()]. *)
Definition token_counts {sorter : SortValues} (c : string) (df : DataFrame)
    : result counts :=
  s <- getitem c df ;; Ok (value_counts (explode (str_split ", " s))).

Definition country_counts {sorter : SortValues} (df : DataFrame) : result counts :=
  token_counts "country" df.

Definition top_country_list {sorter : SortValues} (df : DataFrame)
    : result (list cell) :=
  cc <- country_counts df ;;
  let top := map fst (head 30 cc) in
  Ok (if isin1 top Unknown then top else top ++ [Unknown]).

(** Lines 67-70: the type and year mask. *)
Definition filtered_by_type_year (df : DataFrame) (content_type : list cell)
    (year_range : Z * Z) : result DataFrame :=
  t <- getitem "type" df ;;
  y <- getitem "year_added" df ;;
  b <- between (fst year_range) (snd year_range) y ;;
  Ok (mask_rows (mask_and (isin content_type t) b) df).

(** Lines 67-76: the filtered frame the rest of the script reads. *)
Definition filtered_df (df : DataFrame) (content_type : list cell)
    (year_range : Z * Z) (country_selected : list cell) : result DataFrame :=
  filtered <- filtered_by_type_year df content_type year_range ;;
  match country_selected with
  | [] => Ok filtered
  | _ :: _ =>
      c <- getitem "country" filtered ;;
      let tmp := setitem "country_exploded" (str_split ", " c) filtered in
      tmp <- explode_frame "country_exploded" tmp ;;
      e <- getitem "country_exploded" tmp ;;
      Ok (mask_rows (isin country_selected e) tmp)
  end.

(** KPI "Total Titles". *)
Definition total_titles (filtered : DataFrame) : nat := length (rows filtered).

(** Lines 112-118 and 128-134: the counted tables behind the two bar
    charts. *)
Definition top_tokens {sorter : SortValues} (c : string) (n : nat)
    (filtered : DataFrame) : result counts :=
  vc <- token_counts c filtered ;; Ok (head n (drop_index Unknown vc)).

Definition top_countries {sorter : SortValues} (filtered : DataFrame)
    : result counts :=
  top_tokens "country" 10 filtered.

Definition top_genres {sorter : SortValues} (filtered : DataFrame)
    : result counts :=
  top_tokens "listed_in" 12 filtered.

(** Lines 119 and 135: the tables are put in ascending order for the
    horizontal bars. *)
Definition top_countries_chart {sorter : SortValues} (filtered : DataFrame)
    : result counts :=
  t <- top_countries filtered ;; Ok (sort_values true t).

Definition top_genres_chart {sorter : SortValues} (filtered : DataFrame)
    : result counts :=
  t <- top_genres filtered ;; Ok (sort_values true t).

(** Lines 146-147. *)
Definition rating_counts {sorter : SortValues} (filtered : DataFrame)
    : result counts :=
  s <- getitem "rating" filtered ;; Ok (value_counts s).

(* ================================================================== *)
(** ** The KPI row and the remaining charts *)
(* ================================================================== *)

(** [series == v] for a non-null scalar [v]: a null is equal to nothing. *)
Definition eq_scalar (v : cell) (s : list cell) : list bool :=
  map (fun c => notnull c && cell_eqb c v) s.

(** [mask.sum()]. *)
Definition count_true (mask : list bool) : nat := length (filter (fun b => b) mask).

(** [series.min()] and [series.max()] as the KPI row calls them: nulls
    are skipped, an empty or all-null series gives a null, and values of
    different kinds cannot be ordered. *)
Fixpoint series_min (s : list cell) : result cell :=
  match s with
  | [] => Ok NaN
  | c :: t =>
      m <- series_min t ;;
      if isnull c then Ok m
      else if isnull m then Ok c
      else (lt <- cell_ltb c m ;; Ok (if lt then c else m))
  end.

Fixpoint series_max (s : list cell) : result cell :=
  match s with
  | [] => Ok NaN
  | c :: t =>
      m <- series_max t ;;
      if isnull c then Ok m
      else if isnull m then Ok c
      else (lt <- cell_ltb m c ;; Ok (if lt then c else m))
  end.

(** Line 81: KPI "Movies". *)
Definition movies (filtered : DataFrame) : result nat :=
  s <- getitem "type" filtered ;; Ok (count_true (eq_scalar (Str "Movie") s)).

(** Line 82: KPI "TV Shows". *)
Definition tv_shows (filtered : DataFrame) : result nat :=
  s <- getitem "type" filtered ;; Ok (count_true (eq_scalar (Str "TV Show") s)).

(** Line 83: the two values KPI "Years Covered" prints. *)
Definition years_covered (filtered : DataFrame) : result (cell * cell) :=
  s <- getitem "year_added" filtered ;;
  lo <- series_min s ;;
  s <- getitem "year_added" filtered ;;
  hi <- series_max s ;;
  Ok (lo, hi).

(** Lines 92-93: the donut's table. *)
Definition type_counts {sorter : SortValues} (filtered : DataFrame)
    : result counts :=
  s <- getitem "type" filtered ;; Ok (value_counts s).

(** [counted.sort_index()]: rows in ascending order of the index. *)
Fixpoint insert_index (x : cell * nat) (l : counts) : result counts :=
  match l with
  | [] => Ok [x]
  | y :: t =>
      lt <- cell_ltb (fst x) (fst y) ;;
      if lt then Ok (x :: y :: t)
      else (t' <- insert_index x t ;; Ok (y :: t'))
  end.

Fixpoint sort_index (l : counts) : result counts :=
  match l with
  | [] => Ok []
  | x :: t => t' <- sort_index t ;; insert_index x t'
  end.

(** Lines 101-102: titles added per year, by year. *)
Definition growth {sorter : SortValues} (filtered : DataFrame) : result counts :=
  s <- getitem "year_added" filtered ;; sort_index (value_counts s).

(** Number of rows whose cells at [i] and [j] are [a] and [b]. *)
Definition pair_count (i j : nat) (a b : cell) (rs : list row) : nat :=
  length (filter (fun r => cell_eqb (cell_at i r) a && cell_eqb (cell_at j r) b) rs).

(** [df.groupby([c1, c2]).size()]: the values of each key are put in
    order, and every combination that occurs in some row is listed with
    its number of rows, first key first; a row with a null key is in no
    group. *)
Definition groupby_size (c1 c2 : string) (df : DataFrame)
    : result (list ((cell * cell) * nat)) :=
  i <- loc c1 df ;;
  j <- loc c2 df ;;
  k1 <- sorted (unique (filter notnull (map (cell_at i) (rows df)))) ;;
  k2 <- sorted (unique (filter notnull (map (cell_at j) (rows df)))) ;;
  Ok (flat_map
        (fun a =>
           flat_map
             (fun b =>
                match pair_count i j a b (rows df) with
                | O => []
                | S n => [((a, b), S n)]
                end)
             k2)
        k1).

(** Line 155: titles per year and type. *)
Definition year_type (filtered : DataFrame) : result (list ((cell * cell) * nat)) :=
  groupby_size "year_added" "type" filtered.

(* ================================================================== *)
(** ** The filter on objects *)
(* ================================================================== *)

(** Lines 67-76 again, this time with frames as objects in a heap: names
    hold references, [df[...]], [.copy()] and [.explode()] allocate, and
    [tmp["country_exploded"] = ...] writes into the object [tmp] names. *)
Module Objects.

Definition ref : Type := nat.
Definition heap : Type := list DataFrame.

Definition deref (p : ref) (h : heap) : option DataFrame := nth_error h p.

Fixpoint store (p : ref) (f : DataFrame) (h : heap) : heap :=
  match h, p with
  | [], _ => []
  | _ :: t, O => f :: t
  | x :: t, S q => x :: store q f t
  end.

(** Computations that read and write the heap and may raise. *)
Definition M (A : Type) : Type := heap -> result (A * heap).

Definition ret {A} (a : A) : M A := fun h => Ok (a, h).

Definition bindM {A B} (m : M A) (k : A -> M B) : M B :=
  fun h => match m h with
           | Ok (a, h') => k a h'
           | Err e => Err e
           end.

Notation "x <~ m ;; k" := (bindM m (fun x => k))
  (at level 61, m at next level, right associativity).

Definition lift {A} (r : result A) : M A :=
  fun h => match r with Ok a => Ok (a, h) | Err e => Err e end.

Definition read (p : ref) : M DataFrame :=
  fun h => match deref p h with
           | Some f => Ok (f, h)
           | None => Err NameError
           end.

Definition new (f : DataFrame) : M ref := fun h => Ok (length h, h ++ [f]).

Definition write (p : ref) (f : DataFrame) : M unit :=
  fun h => match deref p h with
           | Some _ => Ok (tt, store p f h)
           | None => Err NameError
           end.

(** [obj.copy()]. *)
Definition copy (p : ref) : M ref := f <~ read p ;; new f.

(** [obj[c] = obj[c0].str.split(", ")], in place. *)
Definition setitem_split (p : ref) (c c0 : string) : M unit :=
  f <~ read p ;;
  s <~ lift (getitem c0 f) ;;
  write p (setitem c (str_split ", " s) f).

(** [obj.explode(c)]. *)
Definition explode_obj (p : ref) (c : string) : M ref :=
  f <~ read p ;; e <~ lift (explode_frame c f) ;; new e.

(** [obj[obj[c].isin(values)]]. *)
Definition index_isin (p : ref) (c : string) (values : list cell) : M ref :=
  f <~ read p ;; s <~ lift (getitem c f) ;; new (mask_rows (isin values s) f).

(** [df[df["type"].isin(...) & df["year_added"].between(...)]]. *)
Definition index_type_year (df : ref) (content_type : list cell)
    (year_range : Z * Z) : M ref :=
  f <~ read df ;;
  x <~ lift (filtered_by_type_year f content_type year_range) ;;
  new x.

(** The reference [filtered_df] names after line 76. *)
Definition apply_filters (df : ref) (content_type : list cell)
    (year_range : Z * Z) (country_selected : list cell) : M ref :=
  p <~ index_type_year df content_type year_range ;;
  filtered <~ copy p ;;
  match country_selected with
  | [] => ret filtered
  | _ :: _ =>
      tmp <~ copy filtered ;;
      _ <~ setitem_split tmp "country_exploded" "country" ;;
      tmp <~ explode_obj tmp "country_exploded" ;;
      p <~ index_isin tmp "country_exploded" country_selected ;;
      copy p
  end.

(** Every object of [h] is still there, unchanged, in [h']. *)
Definition extends (h h' : heap) : Prop :=
  forall q g, deref q h = Some g -> deref q h' = Some g.

(** [Q] holds of the outcome of running [m] from [h]. *)
Definition wp {A} (m : M A) (h : heap) (Q : result (A * heap) -> Prop) : Prop :=
  Q (m h).

(** Outcome predicate by cases: a value with its heap, or an exception. *)
Definition after {A} (K : A -> heap -> Prop) (E : error -> Prop)
    (r : result (A * heap)) : Prop :=
  match r with
  | Ok (a, h) => K a h
  | Err e => E e
  end.

(** The outcome [r] of an object-level run started in [h] agrees with the
    value-level result [pure]: the same exception, or a reference to an
    equal frame in a heap that kept every earlier object. *)
Definition agrees (h : heap) (pure : result DataFrame)
    (r : result (ref * heap)) : Prop :=
  match r, pure with
  | Ok (p, h'), Ok out => deref p h' = Some out /\ extends h h'
  | Err e, Err e' => e = e'
  | _, _ => False
  end.

End Objects.

(* ================================================================== *)
(** ** Vocabulary of the statements *)
(* ================================================================== *)

(** *** Rows under assignment *)

(** One assignment [df[c] = f(df)] seen from a single row: the header and
    the row after it. *)
Definition assign1 (c : string) (f : list string -> row -> cell)
    (st : list string * row) : list string * row :=
  (add_column c (fst st), set_cell (target c (fst st)) (f (fst st) (snd st)) (snd st)).

(** The same assignment on a whole frame. *)
Definition assign (c : string) (f : list string -> row -> cell)
    (df : DataFrame) : DataFrame :=
  mkFrame (add_column c (columns df))
          (map (fun r => snd (assign1 c f (columns df, r))) (rows df)).

Definition year_of_date (cols : list string) (r : row) : cell :=
  dt_year1 (field cols "date_added" r).

Definition filled (c : string) (cols : list string) (r : row) : cell :=
  fillna1 Unknown (field cols c r).

Definition loaded_columns (cols : list string) : list string :=
  add_column "year_added" cols.

Section CleanModel.

(** The parser for one element, the series being fixed. *)
Variable parse1 : cell -> option Timestamp.

Definition parsed_date (cols : list string) (r : row) : cell :=
  to_datetime1 parse1 (field cols "date_added" r).

(** A raw row is kept when its date parses. *)
Definition parses (cols : list string) (r : row) : bool :=
  notnull (parsed_date cols r).

(** What the loader turns a kept raw row into. *)
Definition clean (cols : list string) (r : row) : list string * row :=
  assign1 "rating" (filled "rating")
    (assign1 "listed_in" (filled "listed_in")
       (assign1 "country" (filled "country")
          (assign1 "year_added" year_of_date
             (assign1 "date_added" parsed_date (cols, r))))).

End CleanModel.

(** The element parser the loader applies to the rows of [raw]. *)
Definition date_parser (parse_datetime : list cell -> cell -> option Timestamp)
    (raw : DataFrame) : cell -> option Timestamp :=
  parse_datetime (map (field (columns raw) "date_added") (rows raw)).

(** *** Strings *)

(** [s[n:]]. *)
Fixpoint drop_chars (n : nat) (s : string) : string :=
  match n, s with
  | O, _ => s
  | S k, String _ t => drop_chars k t
  | S _, EmptyString => EmptyString
  end.

(** The string a token cell holds. *)
Definition text_of (c : cell) : string :=
  match c with
  | Str s => s
  | _ => EmptyString
  end.

(** [sep in t]. *)
Definition contains (sep t : string) : Prop :=
  exists i, starts_with sep (drop_chars i t) = true.

(** While a token is being read, the separator starts nowhere in it,
    even when the unread input is appended. *)
Definition clean_so_far (sep : string) (cur : list ascii) (s : string) : Prop :=
  forall i, i < length cur ->
    starts_with sep (drop_chars i (String.append (rev_string cur EmptyString) s))
    = false.

(** *** Counting and ranking *)

(** Number of occurrences of [k] in a series. *)
Definition count (s : list cell) (k : cell) : nat := count_occ cell_eq_dec s k.

(** Position at which [k] is first met in a series. *)
Fixpoint first_pos (k : cell) (s : list cell) : nat :=
  match s with
  | [] => 0
  | x :: t => if cell_eqb k x then 0 else S (first_pos k t)
  end.

(** [ranked] lists the distinct values of [s], most frequent first, equal
    frequencies in order of first appearance. *)
Definition ranks_before (s : list cell) (a b : cell) : Prop :=
  count s a > count s b \/
  (count s a = count s b /\ first_pos a s < first_pos b s).

Definition ranking (s : list cell) (ranked : list cell) : Prop :=
  NoDup ranked /\
  (forall k, In k ranked <-> In k s) /\
  StronglySorted (ranks_before s) ranked.

(** [ranked] lists the distinct values of [s], most frequent first; the
    order among equal frequencies is left open. *)
Definition by_frequency (s : list cell) (ranked : list cell) : Prop :=
  NoDup ranked /\
  (forall k, In k ranked <-> In k s) /\
  StronglySorted (fun a b => count s a >= count s b) ranked.

Fixpoint lookup (k : cell) (tbl : counts) : nat :=
  match tbl with
  | [] => 0
  | (k', n) :: t => if cell_eqb k k' then n else lookup k t
  end.

Definition tally_from (tbl : counts) (s : list cell) : counts :=
  fold_left (fun tbl k => bump k tbl) s tbl.

(** *** Tokens and top-N tables *)

(** The single-value tokens of column [c], row after row: each string
    cell is split on [", "]; a cell that is not a string has none. *)
Definition tokens_of (c : cell) : list cell :=
  match c with
  | Str s => map Str (split ", " s)
  | _ => []
  end.

Definition tokens (cols : list string) (c : string) (rs : list row) : list cell :=
  flat_map (fun r => tokens_of (field cols c r)) rs.

(** What a top-[n] table over the tokens [toks] is. *)
Definition top_table (n : nat) (toks : list cell) (t : counts) : Prop :=
  length t <= n /\
  ~ In Unknown (map fst t) /\
  (forall k m, In (k, m) t -> In k toks /\ m = count toks k) /\
  StronglySorted (fun a b => snd a >= snd b) t /\
  (forall k, In k toks -> k <> Unknown -> ~ In k (map fst t) ->
             length t = n /\ forall a, In a t -> snd a >= count toks k).

(** *** Filtering *)

(** A year cell the slider bounds can be compared with. *)
Definition year_is_numeric (cols : list string) (r : row) : bool :=
  match field cols "year_added" r with
  | Int _ | NaN => true
  | _ => false
  end.

(** Frames the filter runs on: the three columns it reads are there and
    the years are numbers. *)
Definition filterable (df : DataFrame) : bool :=
  has_column "type" df && has_column "year_added" df &&
  has_column "country" df && forallb (year_is_numeric (columns df)) (rows df).

Definition year_within (lo hi : Z) (c : cell) : bool :=
  match c with
  | Int y => (lo <=? y)%Z && (y <=? hi)%Z
  | _ => false
  end.

(** The row test of the first step. *)
Definition retained (cols : list string) (content_type : list cell)
    (year_range : Z * Z) (r : row) : bool :=
  isin1 content_type (field cols "type" r) &&
  year_within (fst year_range) (snd year_range) (field cols "year_added" r).

(** The values a row offers to the country test. *)
Definition country_cells (cols : list string) (r : row) : list cell :=
  explode_cell (str_split1 ", " (field cols "country" r)).

(** The rows one retained row contributes for a country selection. *)
Definition matching_rows (cols : list string) (country_selected : list cell)
    (r : row) : list row :=
  map (fun v => set_cell (target "country_exploded" cols) v r)
      (filter (isin1 country_selected) (country_cells cols r)).

(** *** Order *)

(** [a < b] holds in Python. *)
Definition cell_lt (a b : cell) : Prop := cell_ltb a b = Ok true.

(** Pairs in dictionary order. *)
Definition pair_lt (p q : cell * cell) : Prop :=
  cell_lt (fst p) (fst q) \/ (fst p = fst q /\ cell_lt (snd p) (snd q)).

(** The row [groupby_size] lists for the keys [a] and [b], if any. *)
Definition group_entry (i j : nat) (rs : list row) (a b : cell)
    : list ((cell * cell) * nat) :=
  match pair_count i j a b rs with
  | O => []
  | S n => [((a, b), S n)]
  end.

(** A cell read from a CSV text column: a string or a null. *)
Definition is_text (c : cell) : bool :=
  match c with
  | Str _ | NaN => true
  | _ => false
  end.

(** A cell that holds a string. *)
Definition is_string (c : cell) : bool :=
  match c with
  | Str _ => true
  | _ => false
  end.

(** Column [c] of [df] is a column of strings, one that [.str] accepts:
    the frame has rows and every cell of the column is a string. *)
Definition string_column (c : string) (df : DataFrame) : bool :=
  has_column c df &&
  negb (length (rows df) =? 0) &&
  forallb (fun r => is_string (field (columns df) c r)) (rows df).

(** Column [c] of the file read is a text column. *)
Definition text_column (c : string) (raw : DataFrame) : bool :=
  has_column c raw && forallb (fun r => is_text (field (columns raw) c r)) (rows raw).

(** [2015 <= year]. *)
Definition since_2015 (c : cell) : bool :=
  match c with
  | Int y => (2015 <=? y)%Z
  | _ => false
  end.

(* ================================================================== *)
(** ** Sample data *)
(* ================================================================== *)

(** *** Two sorts

    Insertion by count: a row goes in front of the rows with a count at
    least as large. *)
Fixpoint insert_count (x : cell * nat) (l : counts) : counts :=
  match l with
  | [] => [x]
  | y :: t => if (snd x <=? snd y)%nat then x :: y :: t else y :: insert_count x t
  end.

Definition sort_ascending (l : counts) : counts := fold_right insert_count [] l.

(** A sort that meets the interface: the rows are sorted ascending by
    insertion and, for a descending order, reversed.  With
    [reverse_ties = false] rows with equal counts keep their input order
    in both directions; with [true] they come out in reverse order. *)
Definition insertion_sort (reverse_ties : bool) : SortValues.
Proof.
  assert (Pins : forall x l, Permutation (insert_count x l) (x :: l)).
  { intros x l. induction l as [|y t IH]; simpl.
    - apply Permutation_refl.
    - destruct (snd x <=? snd y).
      + apply Permutation_refl.
      + apply perm_trans with (y :: x :: t);
          [apply perm_skip; exact IH | apply perm_swap]. }
  assert (Psort : forall l, Permutation (sort_ascending l) l).
  { intros l. induction l as [|x t IH]; simpl.
    - apply perm_nil.
    - apply perm_trans with (x :: sort_ascending t);
        [apply Pins | apply perm_skip; exact IH]. }
  assert (Sins : forall x l,
             StronglySorted (fun a b => snd a <= snd b) l ->
             StronglySorted (fun a b => snd a <= snd b) (insert_count x l)).
  { intros x l Hs. induction Hs as [|y t Hs IH F]; simpl.
    - constructor; constructor.
    - destruct (Nat.leb_spec (snd x) (snd y)) as [Hle|Hgt].
      + constructor; [constructor; assumption|].
        constructor; [exact Hle|].
        rewrite Forall_forall in *. intros z Hz. specialize (F z Hz). lia.
      + constructor; [exact IH|].
        rewrite Forall_forall in *. intros z Hz.
        apply (Permutation_in z (Pins x t)) in Hz.
        destruct Hz as [<-|Hz]; [lia | apply F; exact Hz]. }
  assert (Ssort : forall l,
             StronglySorted (fun a b => snd a <= snd b) (sort_ascending l)).
  { intros l. induction l as [|x t IH]; simpl; [constructor | apply Sins; exact IH]. }
  assert (Ssnoc : forall (y : cell * nat) l,
             StronglySorted (fun a b => snd a >= snd b) l ->
             Forall (fun z => snd z >= snd y) l ->
             StronglySorted (fun a b => snd a >= snd b) (l ++ [y])).
  { intros y l Hs. induction Hs as [|x t Hs IH F]; intros G; simpl.
    - constructor; constructor.
    - inversion G as [|? ? Gx Gt]; subst.
      constructor; [apply IH; exact Gt|].
      apply Forall_app. split; [exact F | constructor; [exact Gx | constructor]]. }
  assert (Srev : forall l : counts,
             StronglySorted (fun a b => snd a <= snd b) l ->
             StronglySorted (fun a b => snd a >= snd b) (rev l)).
  { intros l Hs. induction Hs as [|y t Hs IH F]; simpl; [constructor|].
    apply Ssnoc; [exact IH|].
    rewrite Forall_forall in *. intros z Hz. apply in_rev in Hz.
    specialize (F z Hz). lia. }
  refine {| sort_values := fun ascending l =>
              let sorted :=
                sort_ascending (if xorb ascending reverse_ties then l else rev l) in
              if ascending then sorted else rev sorted |}.
  - intros ascending l. cbv zeta.
    assert (P : Permutation
                  (sort_ascending (if xorb ascending reverse_ties then l else rev l)) l).
    { eapply perm_trans; [apply Psort|].
      destruct (xorb ascending reverse_ties);
        [apply Permutation_refl | apply Permutation_sym, Permutation_rev]. }
    destruct ascending; [exact P|].
    eapply perm_trans; [apply Permutation_sym, Permutation_rev | exact P].
  - intros l. cbv zeta. apply Ssort.
  - intros l. cbv zeta. apply Srev, Ssort.
Defined.

(** The sort that keeps rows with equal counts in their input order, and
    the one that reverses them. *)
Definition stable_sort : SortValues := insertion_sort false.
Definition reversed_ties : SortValues := insertion_sort true.

(** *** Files

    A date parser that knows the three dates of the sample file. *)
Definition known_dates : list (string * Timestamp) :=
  [ ("September 25, 2018", mkTimestamp 2018 9 25);
    ("January 1, 2020", mkTimestamp 2020 1 1);
    ("July 4, 2020", mkTimestamp 2020 7 4) ].

Fixpoint find_date (s : string) (tbl : list (string * Timestamp)) : option Timestamp :=
  match tbl with
  | [] => None
  | (k, d) :: t => if String.eqb s k then Some d else find_date s t
  end.

Definition parse_known (_ : list cell) (c : cell) : option Timestamp :=
  match c with
  | Str s => find_date s known_dates
  | _ => None
  end.

(** A file of four lines: the second has no country, the fourth has a
    date that cannot be read and no rating. *)
Definition sample_raw : DataFrame :=
  mkFrame ["type"; "country"; "date_added"; "rating"; "listed_in"]
    [ mkRow 0 [Str "Movie"; Str "India, Canada"; Str "September 25, 2018";
               Str "PG"; Str "Drama"];
      mkRow 1 [Str "TV Show"; NaN; Str "January 1, 2020";
               Str "TV-MA"; Str "Comedy, Drama"];
      mkRow 2 [Str "Movie"; Str "Canada"; Str "July 4, 2020";
               Str "PG"; Str "Drama"];
      mkRow 3 [Str "Movie"; Str "Canada"; Str "soon"; NaN; Str "Drama"] ].

(** The three-row dataset of the scenarios, as the loader leaves it. *)
Definition sample : DataFrame :=
  mkFrame ["type"; "country"; "date_added"; "rating"; "listed_in"; "year_added"]
    [ mkRow 0 [Str "Movie"; Str "India, Canada"; Date (mkTimestamp 2018 9 25);
               Str "PG"; Str "Drama"; Int 2018];
      mkRow 1 [Str "TV Show"; Str "Unknown"; Date (mkTimestamp 2020 1 1);
               Str "TV-MA"; Str "Comedy, Drama"; Int 2020];
      mkRow 2 [Str "Movie"; Str "Canada"; Date (mkTimestamp 2020 7 4);
               Str "PG"; Str "Drama"; Int 2020] ].

(** A file whose second line has no [type]. *)
Definition untyped_raw : DataFrame :=
  mkFrame ["type"; "country"; "date_added"; "rating"; "listed_in"]
    [ mkRow 0 [Str "Movie"; Str "Canada"; Str "July 4, 2020"; Str "PG"; Str "Drama"];
      mkRow 1 [NaN; Str "India"; Str "January 1, 2020"; Str "PG"; Str "Drama"] ].

Definition untyped : DataFrame :=
  mkFrame ["type"; "country"; "date_added"; "rating"; "listed_in"; "year_added"]
    [ mkRow 0 [Str "Movie"; Str "Canada"; Date (mkTimestamp 2020 7 4);
               Str "PG"; Str "Drama"; Int 2020];
      mkRow 1 [NaN; Str "India"; Date (mkTimestamp 2020 1 1);
               Str "PG"; Str "Drama"; Int 2020] ].

(** A filtered frame whose most frequent rating is not the first one. *)
Definition late_majority : DataFrame :=
  mkFrame ["type"; "country"; "date_added"; "rating"; "listed_in"; "year_added"]
    [ mkRow 0 [Str "Movie"; Str "Canada"; Date (mkTimestamp 2020 7 4);
               Str "PG"; Str "Drama"; Int 2020];
      mkRow 1 [Str "TV Show"; Str "India"; Date (mkTimestamp 2020 1 1);
               Str "TV-MA"; Str "Drama"; Int 2020];
      mkRow 2 [Str "TV Show"; Str "India"; Date (mkTimestamp 2020 1 1);
               Str "TV-MA"; Str "Comedy"; Int 2020] ].

(* ================================================================== *)
(** ** Splitting, on examples *)
(* ================================================================== *)

Example split_two : split ", " "India, Canada" = ["India"; "Canada"].
Proof. reflexivity. Qed.

Example split_one : split ", " "Unknown" = ["Unknown"].
Proof. reflexivity. Qed.

Example split_empty : split ", " EmptyString = [EmptyString].
Proof. reflexivity. Qed.

Example split_comma_only :
  split ", " "a,b, , c, " = ["a,b"; EmptyString; "c"; EmptyString].
Proof. reflexivity. Qed.

(** Joining the tokens with the separator gives the string back. *)

Lemma append_empty_r s : String.append s EmptyString = s.
Proof. induction s as [|a s IH]; simpl; [reflexivity|]. rewrite IH. reflexivity. Qed.

Lemma append_assoc' s1 s2 s3 :
  String.append (String.append s1 s2) s3 = String.append s1 (String.append s2 s3).
Proof. induction s1 as [|a s1 IH]; simpl; [reflexivity|]. rewrite IH. reflexivity. Qed.

Lemma rev_string_append acc out :
  rev_string acc out = String.append (rev_string acc EmptyString) out.
Proof.
  revert out. induction acc as [|a t IH]; intros out; simpl.
  - reflexivity.
  - rewrite (IH (String a out)), (IH (String a EmptyString)), append_assoc'.
    reflexivity.
Qed.

Lemma starts_with_drop p s :
  starts_with p s = true ->
  s = String.append p (drop_chars (String.length p) s) /\
  String.length p <= String.length s.
Proof.
  revert s. induction p as [|a p IH]; intros s H; simpl.
  - split; [reflexivity|lia].
  - destruct s as [|b s]; simpl in H; [discriminate|].
    apply andb_true_iff in H. destruct H as [Hab Hp].
    apply Ascii.eqb_eq in Hab. subst b.
    destruct (IH s Hp) as [E L]. split; [|simpl; lia].
    rewrite <- E. reflexivity.
Qed.

Lemma concat_cons sep x l :
  l <> [] ->
  String.concat sep (x :: l) = String.append x (String.append sep (String.concat sep l)).
Proof. destruct l; [congruence|reflexivity]. Qed.

Lemma split_scan_nonempty sep s skip cur : split_scan sep s skip cur <> [].
Proof.
  revert skip cur. induction s as [|a s IH]; intros skip cur; simpl.
  - discriminate.
  - destruct skip; [|apply IH].
    destruct (starts_with sep (String a s)); [discriminate|apply IH].
Qed.

Lemma split_nonempty sep s : split sep s <> [].
Proof. apply split_scan_nonempty. Qed.

Lemma split_scan_join sep s skip cur :
  sep <> EmptyString ->
  skip <= String.length s ->
  String.concat sep (split_scan sep s skip cur) =
  String.append (rev_string cur EmptyString) (drop_chars skip s).
Proof.
  intros Hsep. revert skip cur.
  induction s as [|a s IH]; intros skip cur Hskip.
  - simpl. destruct skip; simpl; rewrite append_empty_r; reflexivity.
  - destruct skip as [|k].
    + cbn [split_scan drop_chars].
      destruct (starts_with sep (String a s)) eqn:Esw.
      * destruct (starts_with_drop _ _ Esw) as [E L].
        rewrite concat_cons by apply split_scan_nonempty.
        rewrite IH by (simpl in L; lia).
        cbn [rev_string String.append]. f_equal.
        destruct sep as [|c sep']; [congruence|].
        simpl in E |- *. rewrite Nat.sub_0_r. symmetry. exact E.
      * rewrite IH by lia. cbn [rev_string drop_chars].
        rewrite (rev_string_append cur (String a EmptyString)), append_assoc'.
        reflexivity.
    + cbn [split_scan drop_chars]. apply IH. simpl in Hskip. lia.
Qed.

Lemma split_join sep s :
  sep <> EmptyString -> String.concat sep (split sep s) = s.
Proof.
  intros H. unfold split. rewrite (split_scan_join sep s 0 [] H) by lia.
  reflexivity.
Qed.

(* ================================================================== *)
(** ** Facts about the error monad *)
(* ================================================================== *)

Lemma bind_Ok {A B} (a : A) (k : A -> result B) : bind (Ok a) k = k a.
Proof. reflexivity. Qed.

Lemma mapM_pure {A B} (f : A -> result B) (g : A -> B) (l : list A) :
  (forall x, In x l -> f x = Ok (g x)) -> mapM f l = Ok (map g l).
Proof.
  induction l as [|x t IH]; intros H; simpl.
  - reflexivity.
  - rewrite (H x (or_introl eq_refl)). simpl.
    rewrite IH by (intros y Hy; apply H; right; exact Hy).
    reflexivity.
Qed.

(* ================================================================== *)
(** ** Facts about cells, headers and rows *)
(* ================================================================== *)

Lemma cell_eqb_eq a b : cell_eqb a b = true <-> a = b.
Proof.
  unfold cell_eqb. destruct (cell_eq_dec a b); split; intros H;
    congruence.
Qed.

Lemma cell_eqb_neq a b : cell_eqb a b = false <-> a <> b.
Proof.
  unfold cell_eqb. destruct (cell_eq_dec a b); split; intros H;
    congruence.
Qed.

Lemma cell_eqb_refl a : cell_eqb a a = true.
Proof. apply cell_eqb_eq. reflexivity. Qed.

Lemma isin1_In values c : isin1 values c = true <-> In c values.
Proof.
  unfold isin1. rewrite existsb_exists. split.
  - intros [x [Hin Heq]]. apply cell_eqb_eq in Heq. subst. exact Hin.
  - intros Hin. exists c. split; [exact Hin | apply cell_eqb_refl].
Qed.

Lemma isin1_not_In values c : isin1 values c = false <-> ~ In c values.
Proof.
  rewrite <- isin1_In. destruct (isin1 values c); split; intros H;
    congruence.
Qed.

Lemma nth_set_nth_same i v l : nth i (set_nth i v l) NaN = v.
Proof.
  revert l. induction i as [|i IH]; intros [|x t]; simpl; auto.
Qed.

Lemma nth_set_nth_other i j v l :
  i <> j -> nth j (set_nth i v l) NaN = nth j l NaN.
Proof.
  revert j l. induction i as [|i IH]; intros [|j] [|x t] Hij; simpl;
    try congruence; try reflexivity.
  - destruct j; reflexivity.
  - rewrite IH by congruence. destruct j; reflexivity.
  - apply IH. congruence.
Qed.

Lemma cell_at_set_cell_same i v r : cell_at i (set_cell i v r) = v.
Proof. apply nth_set_nth_same. Qed.

Lemma cell_at_set_cell_other i j v r :
  i <> j -> cell_at j (set_cell i v r) = cell_at j r.
Proof. apply nth_set_nth_other. Qed.

Lemma label_set_cell i v r : label (set_cell i v r) = label r.
Proof. reflexivity. Qed.

Lemma col_index_bound c cols i :
  col_index c cols = Some i -> i < length cols.
Proof.
  revert i. induction cols as [|c' t IH]; simpl; intros i H.
  - discriminate.
  - destruct (String.eqb c c').
    + injection H as <-. lia.
    + destruct (col_index c t) as [j|]; [|discriminate].
      injection H as <-. specialize (IH j eq_refl). lia.
Qed.

Lemma col_index_In c cols : In c cols -> exists i, col_index c cols = Some i.
Proof.
  induction cols as [|c' t IH]; simpl; intros H.
  - contradiction.
  - destruct (String.eqb_spec c c') as [->|Hne].
    + exists 0. reflexivity.
    + destruct H as [H|H]; [congruence|].
      destruct (IH H) as [i Hi]. rewrite Hi. exists (S i). reflexivity.
Qed.

Lemma col_index_None c cols : col_index c cols = None -> ~ In c cols.
Proof.
  intros H Hin. destruct (col_index_In c cols Hin) as [i Hi]. congruence.
Qed.

Lemma col_index_Some_In c cols i : col_index c cols = Some i -> In c cols.
Proof.
  revert i. induction cols as [|c' t IH]; simpl; intros i H.
  - discriminate.
  - destruct (String.eqb_spec c c') as [->|Hne].
    + left. reflexivity.
    + destruct (col_index c t) as [j|]; [|discriminate].
      right. apply (IH j). reflexivity.
Qed.

(** Two names at the same position are the same name. *)
Lemma col_index_inj a b cols i :
  col_index a cols = Some i -> col_index b cols = Some i -> a = b.
Proof.
  revert i. induction cols as [|c' t IH]; simpl; intros i Ha Hb.
  - discriminate.
  - destruct (String.eqb_spec a c') as [->|Ha'];
      destruct (String.eqb_spec b c') as [->|Hb']; try reflexivity.
    + destruct (col_index b t); [|discriminate]. congruence.
    + destruct (col_index a t); [|discriminate]. congruence.
    + destruct (col_index a t) as [ia|]; [|discriminate].
      destruct (col_index b t) as [ib|]; [|discriminate].
      apply (IH ia); congruence.
Qed.

Lemma col_index_app_old c cols extra i :
  col_index c cols = Some i -> col_index c (cols ++ extra) = Some i.
Proof.
  revert i. induction cols as [|c' t IH]; simpl; intros i H.
  - discriminate.
  - destruct (String.eqb c c'); [exact H|].
    destruct (col_index c t) as [j|]; [|discriminate].
    rewrite (IH j eq_refl). exact H.
Qed.

Lemma col_index_app_new c c' cols :
  col_index c cols = None ->
  col_index c (cols ++ [c']) = if String.eqb c c' then Some (length cols) else None.
Proof.
  induction cols as [|x t IH]; simpl; intros H.
  - destruct (String.eqb c c'); reflexivity.
  - destruct (String.eqb c x); [discriminate|].
    destruct (col_index c t); [discriminate|].
    rewrite (IH eq_refl). destruct (String.eqb c c'); reflexivity.
Qed.

Lemma col_index_add_column_same c cols :
  col_index c (add_column c cols) = Some (target c cols).
Proof.
  unfold add_column, target. destruct (col_index c cols) as [i|] eqn:E.
  - exact E.
  - rewrite (col_index_app_new c c cols E), String.eqb_refl. reflexivity.
Qed.

Lemma col_index_add_column_other c c' cols :
  c' <> c -> col_index c' (add_column c cols) = col_index c' cols.
Proof.
  intros Hne. unfold add_column. destruct (col_index c cols); [reflexivity|].
  destruct (col_index c' cols) as [j|] eqn:E.
  - apply col_index_app_old. exact E.
  - rewrite (col_index_app_new c' c cols E).
    destruct (String.eqb_spec c' c); [contradiction|reflexivity].
Qed.

Lemma In_add_column c c' cols : In c' cols -> In c' (add_column c cols).
Proof.
  unfold add_column. destruct (col_index c cols); [auto|].
  intros H. apply in_or_app. left. exact H.
Qed.

Lemma In_add_column_same c cols : In c (add_column c cols).
Proof.
  unfold add_column. destruct (col_index c cols) eqn:E.
  - eapply col_index_Some_In. exact E.
  - apply in_or_app. right. left. reflexivity.
Qed.

(** Reading back the column just written. *)
Lemma field_set_same c cols v r :
  field (add_column c cols) c (set_cell (target c cols) v r) = v.
Proof.
  unfold field. rewrite col_index_add_column_same.
  apply cell_at_set_cell_same.
Qed.

(** Writing one column leaves the others as they were. *)
Lemma field_set_other c c' cols v r :
  c' <> c ->
  field (add_column c cols) c' (set_cell (target c cols) v r) = field cols c' r.
Proof.
  intros Hne. unfold field. rewrite (col_index_add_column_other c c' cols Hne).
  destruct (col_index c' cols) as [j|] eqn:E; [|reflexivity].
  apply cell_at_set_cell_other. unfold target.
  destruct (col_index c cols) as [i|] eqn:Ec.
  - intros ->. apply Hne. apply (col_index_inj c' c cols j E Ec).
  - apply col_index_bound in E. lia.
Qed.

Lemma assign_rows_map i (f : row -> cell) rs :
  assign_rows i (map f rs) rs = map (fun r => set_cell i (f r) r) rs.
Proof.
  induction rs as [|r t IH]; simpl; [reflexivity|]. rewrite IH. reflexivity.
Qed.

Lemma select_map (p : row -> bool) rs : select (map p rs) rs = filter p rs.
Proof.
  induction rs as [|r t IH]; simpl; [reflexivity|].
  rewrite IH. reflexivity.
Qed.

Lemma mask_and_map {A} (p q : A -> bool) l :
  mask_and (map p l) (map q l) = map (fun x => p x && q x) l.
Proof.
  induction l as [|x t IH]; simpl; [reflexivity|]. rewrite IH. reflexivity.
Qed.

Lemma filter_map_swap {A B} (f : A -> B) (p : B -> bool) l :
  filter p (map f l) = map f (filter (fun x => p (f x)) l).
Proof.
  induction l as [|x t IH]; simpl; [reflexivity|].
  destruct (p (f x)); simpl; rewrite IH; reflexivity.
Qed.

(** Row-wise reading of the frame operations. *)

Lemma has_column_In c df : has_column c df = true <-> In c (columns df).
Proof.
  unfold has_column. split.
  - destruct (col_index c (columns df)) eqn:E; [|discriminate].
    intros _. eapply col_index_Some_In. exact E.
  - intros H. destruct (col_index_In _ _ H) as [i ->]. reflexivity.
Qed.

Lemma getitem_field c df :
  has_column c df = true ->
  getitem c df = Ok (map (field (columns df) c) (rows df)).
Proof.
  unfold has_column, getitem, loc, field.
  destruct (col_index c (columns df)); [|discriminate].
  reflexivity.
Qed.

Lemma getitem_missing c df :
  has_column c df = false -> getitem c df = Err (KeyError c).
Proof.
  unfold has_column, getitem, loc.
  destruct (col_index c (columns df)); [discriminate|reflexivity].
Qed.

Lemma setitem_map c (f : row -> cell) df :
  setitem c (map f (rows df)) df =
  mkFrame (add_column c (columns df))
          (map (fun r => set_cell (target c (columns df)) (f r) r) (rows df)).
Proof. unfold setitem. rewrite assign_rows_map. reflexivity. Qed.

Lemma has_column_setitem c c' vals df :
  has_column c' df = true -> has_column c' (setitem c vals df) = true.
Proof.
  rewrite !has_column_In. simpl. apply In_add_column.
Qed.

Lemma has_column_setitem_same c vals df :
  has_column c (setitem c vals df) = true.
Proof. rewrite has_column_In. simpl. apply In_add_column_same. Qed.

Lemma has_column_mask_rows c m df :
  has_column c (mask_rows m df) = has_column c df.
Proof. reflexivity. Qed.

(* ================================================================== *)
(** ** The loader, row by row *)
(* ================================================================== *)

Lemma add_column_present c cols : In c cols -> add_column c cols = cols.
Proof.
  intros H. unfold add_column.
  destruct (col_index_In _ _ H) as [i ->]. reflexivity.
Qed.

Lemma fst_assign1 c f st : fst (assign1 c f st) = add_column c (fst st).
Proof. reflexivity. Qed.

Lemma label_assign1 c f st : label (snd (assign1 c f st)) = label (snd st).
Proof. reflexivity. Qed.

Lemma field_assign1_same c f st :
  field (fst (assign1 c f st)) c (snd (assign1 c f st)) = f (fst st) (snd st).
Proof. unfold assign1. simpl. apply field_set_same. Qed.

Lemma field_assign1_other c c' f st :
  c' <> c ->
  field (fst (assign1 c f st)) c' (snd (assign1 c f st)) = field (fst st) c' (snd st).
Proof. intros H. unfold assign1. simpl. apply field_set_other. exact H. Qed.

Lemma bind_getitem {A} c0 df (K : list cell -> result A) :
  has_column c0 df = true ->
  bind (getitem c0 df) K = K (map (field (columns df) c0) (rows df)).
Proof. intros H. rewrite (getitem_field _ _ H). reflexivity. Qed.

Lemma setitem_assign c0 c (g : cell -> cell) df :
  setitem c (map g (map (field (columns df) c0) (rows df))) df =
  assign c (fun cols r => g (field cols c0 r)) df.
Proof.
  rewrite map_map.
  apply (setitem_map c (fun r => g (field (columns df) c0 r)) df).
Qed.

Lemma dropna_rows c df :
  has_column c df = true ->
  dropna c df =
  Ok (mkFrame (columns df)
        (filter (fun r => notnull (field (columns df) c r)) (rows df))).
Proof.
  intros H. unfold dropna. rewrite (getitem_field _ _ H). simpl bind.
  unfold mask_rows. rewrite map_map, select_map. reflexivity.
Qed.

Lemma has_column_assign c c' f df :
  has_column c' df = true -> has_column c' (assign c f df) = true.
Proof. rewrite !has_column_In. simpl. apply In_add_column. Qed.

Lemma has_column_assign_same c f df : has_column c (assign c f df) = true.
Proof. rewrite has_column_In. simpl. apply In_add_column_same. Qed.

Ltac has_col :=
  match goal with
  | H : has_column ?c ?df = true |- has_column ?c ?df = true => exact H
  | |- has_column ?c (assign ?c _ _) = true => apply has_column_assign_same
  | |- has_column ?c (assign _ _ _) = true => apply has_column_assign; has_col
  | |- has_column ?c (mkFrame (columns ?X) _) = true =>
      change (has_column c X = true); has_col
  end.

Section Loader.

Variable parse1 : cell -> option Timestamp.

Lemma fst_clean cols r :
  In "date_added" cols -> In "country" cols -> In "listed_in" cols ->
  In "rating" cols ->
  fst (clean parse1 cols r) = add_column "year_added" cols.
Proof.
  intros Hd Hc Hl Hr. unfold clean. rewrite !fst_assign1. simpl fst.
  rewrite (add_column_present "date_added" cols Hd).
  rewrite (add_column_present "country") by (apply In_add_column; exact Hc).
  rewrite (add_column_present "listed_in") by (apply In_add_column; exact Hl).
  rewrite (add_column_present "rating") by (apply In_add_column; exact Hr).
  reflexivity.
Qed.

Lemma to_datetime1_cases c :
  to_datetime1 parse1 c = NaN \/
  exists d, to_datetime1 parse1 c = Date d.
Proof.
  unfold to_datetime1.
  destruct c; auto; destruct (parse1 _); eauto.
Qed.

Lemma fillna1_notnull v c : v <> NaN -> fillna1 v c <> NaN.
Proof.
  intros Hv. unfold fillna1. destruct c; simpl; try exact Hv; discriminate.
Qed.

(** The cells of a cleaned row, read through the raw row. *)
Lemma clean_fields cols r :
  let st := clean parse1 cols r in
  label (snd st) = label r /\
  field (fst st) "date_added" (snd st) = parsed_date parse1 cols r /\
  field (fst st) "year_added" (snd st) = dt_year1 (parsed_date parse1 cols r) /\
  field (fst st) "country" (snd st) = fillna1 Unknown (field cols "country" r) /\
  field (fst st) "listed_in" (snd st) = fillna1 Unknown (field cols "listed_in" r) /\
  field (fst st) "rating" (snd st) = fillna1 Unknown (field cols "rating" r) /\
  (forall c, c <> "date_added" -> c <> "year_added" -> c <> "country" ->
             c <> "listed_in" -> c <> "rating" ->
             field (fst st) c (snd st) = field cols c r).
Proof.
  unfold clean. cbv zeta.
  repeat split.
  - rewrite !field_assign1_other by discriminate.
    rewrite field_assign1_same. reflexivity.
  - rewrite !field_assign1_other by discriminate.
    rewrite field_assign1_same. unfold year_of_date.
    rewrite field_assign1_same. reflexivity.
  - rewrite !field_assign1_other by discriminate.
    rewrite field_assign1_same. unfold filled.
    rewrite !field_assign1_other by discriminate. reflexivity.
  - rewrite !field_assign1_other by discriminate.
    rewrite field_assign1_same. unfold filled.
    rewrite !field_assign1_other by discriminate. reflexivity.
  - rewrite field_assign1_same. unfold filled.
    rewrite !field_assign1_other by discriminate. reflexivity.
  - intros c H1 H2 H3 H4 H5.
    rewrite !field_assign1_other by assumption. reflexivity.
Qed.

Lemma parses_date cols r :
  parses parse1 cols r = true ->
  exists d, parsed_date parse1 cols r = Date d.
Proof.
  unfold parses, parsed_date.
  destruct (to_datetime1_cases (field cols "date_added" r)) as [E|[d E]];
    rewrite E; simpl; [discriminate|eauto].
Qed.

End Loader.


(* ================================================================== *)
(** ** Counting: what [value_counts] returns *)
(* ================================================================== *)

Lemma StronglySorted_weaken {A} (R R' : A -> A -> Prop) l :
  (forall a b, In a l -> In b l -> R a b -> R' a b) ->
  StronglySorted R l -> StronglySorted R' l.
Proof.
  intros H S. induction S as [|a l S IH F].
  - constructor.
  - constructor.
    + apply IH. intros x y Hx Hy. apply H; right; assumption.
    + rewrite Forall_forall in *. intros x Hx.
      apply H; [left; reflexivity | right; exact Hx | apply F; exact Hx].
Qed.

Lemma StronglySorted_snoc {A} (R : A -> A -> Prop) l x :
  StronglySorted R l -> Forall (fun y => R y x) l ->
  StronglySorted R (l ++ [x]).
Proof.
  intros S. induction S as [|a l S IH F]; intros Hx; simpl.
  - constructor; constructor.
  - inversion Hx as [|? ? Hax Hl]; subst.
    constructor.
    + apply IH. exact Hl.
    + apply Forall_app. split; [exact F|]. constructor; [exact Hax|constructor].
Qed.

Lemma StronglySorted_rev {A} (R : A -> A -> Prop) l :
  StronglySorted R l -> StronglySorted (fun a b => R b a) (rev l).
Proof.
  intros S. induction S as [|a l S IH F]; simpl.
  - constructor.
  - apply StronglySorted_snoc; [exact IH|].
    apply Forall_rev. exact F.
Qed.

Lemma StronglySorted_map {A B} (f : A -> B) (R : B -> B -> Prop) l :
  StronglySorted (fun a b => R (f a) (f b)) l -> StronglySorted R (map f l).
Proof.
  intros S. induction S as [|a l S IH F]; simpl; constructor.
  - exact IH.
  - rewrite Forall_map. exact F.
Qed.

Lemma StronglySorted_unmap {A B} (f : A -> B) (R : B -> B -> Prop) l :
  StronglySorted R (map f l) -> StronglySorted (fun a b => R (f a) (f b)) l.
Proof.
  induction l as [|a l IH]; simpl; intros S.
  - constructor.
  - inversion S as [|? ? S' F]; subst. constructor.
    + apply IH. exact S'.
    + rewrite Forall_map in F. exact F.
Qed.

Lemma firstn_In {A} n (l : list A) x : In x (firstn n l) -> In x l.
Proof.
  revert n. induction l as [|a l IH]; intros [|n]; simpl; try tauto.
  intros [H|H]; [left; exact H | right; apply (IH n); exact H].
Qed.

Lemma StronglySorted_firstn {A} (R : A -> A -> Prop) n l :
  StronglySorted R l -> StronglySorted R (firstn n l).
Proof.
  intros S. revert n. induction S as [|a l S IH F]; intros [|n]; simpl;
    try constructor.
  - apply IH.
  - rewrite Forall_forall in *. intros x Hx. apply F.
    eapply firstn_In. exact Hx.
Qed.

Lemma StronglySorted_filter {A} (R : A -> A -> Prop) p l :
  StronglySorted R l -> StronglySorted R (filter p l).
Proof.
  intros S. induction S as [|a l S IH F]; simpl.
  - constructor.
  - destruct (p a); [|exact IH]. constructor; [exact IH|].
    rewrite Forall_forall in *. intros x Hx. apply F.
    apply filter_In in Hx. tauto.
Qed.

Lemma NoDup_firstn {A} n (l : list A) : NoDup l -> NoDup (firstn n l).
Proof.
  intros H. revert n. induction H as [|a l Hn H IH]; intros [|n]; simpl;
    try constructor.
  - intros Hin. apply Hn. eapply firstn_In. exact Hin.
  - apply IH.
Qed.

(** *** [unique] *)

Lemma unique_from_In seen s x :
  In x (unique_from seen s) <-> In x s /\ ~ In x seen.
Proof.
  revert seen. induction s as [|y t IH]; intros seen; simpl.
  - tauto.
  - destruct (isin1 seen y) eqn:E.
    + apply isin1_In in E. rewrite IH. split.
      * tauto.
      * intros [[->|H] Hn]; [contradiction|tauto].
    + apply isin1_not_In in E. simpl. rewrite IH. split.
      * intros [->|[H Hn]]; [tauto|]. split; [tauto|].
        intros Hs. apply Hn. apply in_or_app. left. exact Hs.
      * intros [[->|H] Hn]; [tauto|].
        destruct (cell_eq_dec y x) as [->|Hne]; [tauto|].
        right. split; [exact H|]. intros Hs. apply in_app_or in Hs.
        destruct Hs as [Hs|[Hs|[]]]; [tauto|congruence].
Qed.

Lemma unique_from_NoDup seen s : NoDup (unique_from seen s).
Proof.
  revert seen. induction s as [|y t IH]; intros seen; simpl.
  - constructor.
  - destruct (isin1 seen y) eqn:E; [apply IH|].
    constructor; [|apply IH].
    rewrite unique_from_In. intros [_ Hn]. apply Hn.
    apply in_or_app. right. left. reflexivity.
Qed.

Lemma unique_In s x : In x (unique s) <-> In x s.
Proof. unfold unique. rewrite unique_from_In. simpl. tauto. Qed.

Lemma unique_NoDup s : NoDup (unique s).
Proof. apply unique_from_NoDup. Qed.

(** *** The hash-table pass *)

Lemma keys_bump k tbl :
  map fst (bump k tbl) =
  if isin1 (map fst tbl) k then map fst tbl else map fst tbl ++ [k].
Proof.
  induction tbl as [|[k' n] t IH]; simpl.
  - reflexivity.
  - destruct (cell_eqb k k') eqn:E; simpl.
    + reflexivity.
    + rewrite IH. fold (isin1 (map fst t) k).
      destruct (isin1 (map fst t) k); reflexivity.
Qed.

Lemma lookup_bump k x tbl :
  lookup k (bump x tbl) =
  if cell_eqb k x then S (lookup k tbl) else lookup k tbl.
Proof.
  induction tbl as [|[k' n] t IH]; simpl.
  - destruct (cell_eqb k x); reflexivity.
  - destruct (cell_eqb x k') eqn:E; simpl.
    + apply cell_eqb_eq in E. subst k'.
      destruct (cell_eqb k x); reflexivity.
    + rewrite IH. destruct (cell_eqb k k') eqn:E'; [|reflexivity].
      apply cell_eqb_eq in E'. subst k'.
      destruct (cell_eqb k x) eqn:E''; [|reflexivity].
      apply cell_eqb_eq in E''. subst x. rewrite cell_eqb_refl in E.
      discriminate.
Qed.

Lemma keys_tally_from s tbl :
  map fst (tally_from tbl s) = map fst tbl ++ unique_from (map fst tbl) s.
Proof.
  unfold tally_from. revert tbl. induction s as [|x t IH]; intros tbl; simpl.
  - rewrite app_nil_r. reflexivity.
  - rewrite IH, keys_bump.
    destruct (isin1 (map fst tbl) x); [reflexivity|].
    rewrite <- app_assoc. reflexivity.
Qed.

Lemma lookup_tally_from k s tbl :
  lookup k (tally_from tbl s) = lookup k tbl + count s k.
Proof.
  unfold tally_from. revert tbl. induction s as [|x t IH]; intros tbl; simpl.
  - lia.
  - rewrite IH, lookup_bump. unfold count. simpl.
    destruct (cell_eq_dec x k) as [->|Hne].
    + rewrite cell_eqb_refl. lia.
    + destruct (cell_eqb k x) eqn:E; [|lia].
      apply cell_eqb_eq in E. congruence.
Qed.

Lemma lookup_In k n tbl :
  NoDup (map fst tbl) -> In (k, n) tbl -> lookup k tbl = n.
Proof.
  induction tbl as [|[k' m] t IH]; simpl; intros Hnd Hin.
  - contradiction.
  - inversion Hnd as [|? ? Hk Ht]; subst.
    destruct Hin as [Heq|Hin].
    + injection Heq as -> ->. rewrite cell_eqb_refl. reflexivity.
    + destruct (cell_eqb k k') eqn:E.
      * apply cell_eqb_eq in E. subst k'. exfalso. apply Hk.
        apply (in_map fst) in Hin. exact Hin.
      * apply IH; assumption.
Qed.

Lemma keys_tally s : map fst (tally s) = unique s.
Proof. apply (keys_tally_from s []). Qed.

Lemma tally_count k n s : In (k, n) (tally s) -> n = count s k.
Proof.
  intros H.
  rewrite <- (lookup_In k n (tally s)).
  - apply (lookup_tally_from k s []).
  - rewrite keys_tally. apply unique_NoDup.
  - exact H.
Qed.

(** *** [value_counts] *)

Lemma value_counts_perm {sorter : SortValues} s :
  Permutation (value_counts s) (tally (filter notnull s)).
Proof. apply sort_values_perm. Qed.

Lemma value_counts_count {sorter : SortValues} s k n :
  In (k, n) (value_counts s) -> n = count (filter notnull s) k.
Proof.
  intros H. apply tally_count.
  apply (Permutation_in _ (value_counts_perm s)). exact H.
Qed.

Lemma value_counts_keys {sorter : SortValues} s :
  Permutation (map fst (value_counts s)) (unique (filter notnull s)).
Proof.
  rewrite <- keys_tally. apply Permutation_map. apply value_counts_perm.
Qed.

(** The index of [value_counts] lists each non-null value of the series
    once. *)
Lemma value_counts_index {sorter : SortValues} s :
  NoDup (map fst (value_counts s)) /\
  forall k, In k (map fst (value_counts s)) <-> In k (filter notnull s).
Proof.
  split.
  - apply (Permutation_NoDup (Permutation_sym (value_counts_keys s))).
    apply unique_NoDup.
  - intros k. split; intros H.
    + apply (Permutation_in _ (value_counts_keys s)) in H.
      apply unique_In. exact H.
    + apply unique_In in H.
      apply (Permutation_in _ (Permutation_sym (value_counts_keys s))). exact H.
Qed.

(** Counts never increase down the table. *)
Lemma value_counts_descending {sorter : SortValues} s :
  StronglySorted (fun a b => snd a >= snd b) (value_counts s).
Proof. apply sort_values_descending. Qed.

(** Whatever the sort does with equal counts, the index of [value_counts]
    lists the values by frequency. *)
Lemma value_counts_by_frequency {sorter : SortValues} s :
  by_frequency (filter notnull s) (map fst (value_counts s)).
Proof.
  destruct (value_counts_index s) as [N I].
  split; [exact N|]. split; [exact I|].
  apply StronglySorted_map.
  generalize (value_counts_descending s). apply StronglySorted_weaken.
  intros [a n] [b m] Ha Hb. simpl.
  apply value_counts_count in Ha, Hb. subst n m. tauto.
Qed.

(* ================================================================== *)
(** ** Tokens of a delimited column *)
(* ================================================================== *)

Lemma filter_flat_map {A B} (p : B -> bool) (f : A -> list B) l :
  filter p (flat_map f l) = flat_map (fun x => filter p (f x)) l.
Proof.
  induction l as [|x t IH]; simpl; [reflexivity|].
  rewrite filter_app, IH. reflexivity.
Qed.

Lemma flat_map_map {A B C} (g : A -> B) (f : B -> list C) l :
  flat_map f (map g l) = flat_map (fun x => f (g x)) l.
Proof.
  induction l as [|x t IH]; simpl; [reflexivity|]. rewrite IH. reflexivity.
Qed.

Lemma filter_notnull_Str l : filter notnull (map Str l) = map Str l.
Proof.
  induction l as [|x t IH]; simpl; [reflexivity|]. rewrite IH. reflexivity.
Qed.

Lemma exploded_tokens c :
  filter notnull (explode_cell (str_split1 ", " c)) = tokens_of c.
Proof.
  destruct c; simpl; try reflexivity.
  destruct (split ", " s) as [|x t] eqn:E; [reflexivity|].
  apply (filter_notnull_Str (x :: t)).
Qed.

Lemma token_counts_tokens {sorter : SortValues} c df :
  has_column c df = true ->
  exists vc,
    token_counts c df = Ok vc /\
    vc = value_counts (explode (str_split ", " (map (field (columns df) c) (rows df)))) /\
    filter notnull (explode (str_split ", " (map (field (columns df) c) (rows df))))
    = tokens (columns df) c (rows df).
Proof.
  intros H. unfold token_counts. rewrite (bind_getitem c df _ H).
  eexists. split; [reflexivity|]. split; [reflexivity|].
  unfold explode, str_split, tokens.
  rewrite map_map, flat_map_map, filter_flat_map.
  apply flat_map_ext. intros r. apply exploded_tokens.
Qed.

Lemma StronglySorted_app_cross {A} (R : A -> A -> Prop) l1 l2 :
  StronglySorted R (l1 ++ l2) ->
  forall a b, In a l1 -> In b l2 -> R a b.
Proof.
  induction l1 as [|x t IH]; simpl; intros S a b Ha Hb.
  - contradiction.
  - inversion S as [|? ? S' F]; subst.
    destruct Ha as [<-|Ha].
    + rewrite Forall_forall in F. apply F. apply in_or_app. right. exact Hb.
    + apply (IH S' a b Ha Hb).
Qed.

Lemma count_rows (f : row -> cell) rs k :
  k <> NaN ->
  count (filter notnull (map f rs)) k =
  length (filter (fun r => cell_eqb (f r) k) rs).
Proof.
  intros Hk. unfold count. induction rs as [|r t IH]; [reflexivity|].
  cbn [map filter].
  destruct (cell_eq_dec (f r) k) as [Heq|Hne].
  - rewrite (proj2 (cell_eqb_eq _ _) Heq).
    assert (Hn : notnull (f r) = true) by (rewrite Heq; destruct k; auto; congruence).
    rewrite Hn, (count_occ_cons_eq _ _ Heq), IH. reflexivity.
  - rewrite (proj2 (cell_eqb_neq _ _) Hne).
    destruct (notnull (f r)); [|exact IH].
    rewrite (count_occ_cons_neq _ _ Hne). exact IH.
Qed.

(* ================================================================== *)
(** ** Rankings are unique *)
(* ================================================================== *)

Lemma ranks_before_asym s a b : ranks_before s a b -> ranks_before s b a -> False.
Proof. unfold ranks_before. lia. Qed.

Lemma ranking_unique s l1 l2 : ranking s l1 -> ranking s l2 -> l1 = l2.
Proof.
  intros (N1 & I1 & S1) (N2 & I2 & S2).
  assert (I : forall k, In k l1 <-> In k l2)
    by (intros k; rewrite I1, I2; tauto).
  clear I1 I2. revert l2 N2 S2 I.
  induction l1 as [|a t1 IH]; intros [|b t2] N2 S2 I.
  - reflexivity.
  - exfalso. apply (proj2 (I b)). left. reflexivity.
  - exfalso. apply (proj1 (I a)). left. reflexivity.
  - inversion N1 as [|? ? Na N1']; subst.
    inversion N2 as [|? ? Nb N2']; subst.
    inversion S1 as [|? ? S1' F1]; subst.
    inversion S2 as [|? ? S2' F2]; subst.
    rewrite Forall_forall in F1, F2.
    assert (a = b) as <-.
    { destruct (cell_eq_dec a b) as [E|E]; [exact E|exfalso].
      assert (Ha : In a t2).
      { destruct (proj1 (I a) (or_introl eq_refl)) as [H|H]; [congruence|exact H]. }
      assert (Hb : In b t1).
      { destruct (proj2 (I b) (or_introl eq_refl)) as [H|H]; [congruence|exact H]. }
      apply (ranks_before_asym s a b); [apply F1; exact Hb | apply F2; exact Ha]. }
    f_equal. apply IH; try assumption.
    intros k. split; intros H.
    + destruct (proj1 (I k) (or_intror H)) as [<-|H']; [contradiction|exact H'].
    + destruct (proj2 (I k) (or_intror H)) as [<-|H']; [contradiction|exact H'].
Qed.

(* ================================================================== *)
(** ** The top-N tables *)
(* ================================================================== *)

Lemma firstn_full_or_all {A} n (l : list A) x :
  In x l -> ~ In x (firstn n l) -> length (firstn n l) = n /\ In x (skipn n l).
Proof.
  intros Hin Hn.
  rewrite <- (firstn_skipn n l) in Hin. apply in_app_or in Hin.
  destruct Hin as [H|H]; [contradiction|]. split; [|exact H].
  rewrite length_firstn.
  destruct (Nat.le_gt_cases n (length l)) as [Hle|Hgt]; [lia|].
  rewrite skipn_all2 in H by lia. contradiction.
Qed.

Lemma top_tokens_table {sorter : SortValues} c n df :
  has_column c df = true ->
  exists t,
    top_tokens c n df = Ok t /\
    top_table n (tokens (columns df) c (rows df)) t.
Proof.
  intros H. destruct (token_counts_tokens c df H) as (vc & Hvc & Evc & Htok).
  unfold top_tokens. rewrite Hvc, bind_Ok. eexists. split; [reflexivity|].
  set (s := explode (str_split ", " (map (field (columns df) c) (rows df)))) in *.
  set (toks := tokens (columns df) c (rows df)) in *.
  set (L := drop_index Unknown vc).
  assert (HL : forall x, In x L -> In x vc /\ fst x <> Unknown).
  { intros x Hx. apply filter_In in Hx. destruct Hx as [Hx Hb]. split; [exact Hx|].
    apply negb_true_iff, cell_eqb_neq in Hb. exact Hb. }
  assert (Hcount : forall k m, In (k, m) vc -> In k toks /\ m = count toks k).
  { intros k m Hk. subst vc. split.
    - destruct (value_counts_index s) as (_ & I).
      rewrite <- Htok. apply I. apply (in_map fst) in Hk. exact Hk.
    - rewrite <- Htok. apply value_counts_count. exact Hk. }
  assert (SL : StronglySorted (fun a b => snd a >= snd b) L).
  { apply StronglySorted_filter. subst vc. apply value_counts_descending. }
  assert (Hkey : forall k, In k toks -> k <> Unknown ->
                 exists m, In (k, m) L /\ m = count toks k).
  { intros k Hk Hu.
    destruct (value_counts_index s) as (_ & I).
    rewrite Htok in I. apply I in Hk. rewrite <- Evc in Hk.
    apply in_map_iff in Hk. destruct Hk as ([k' m] & Hfst & Hin).
    simpl in Hfst. subst k'. exists m. split.
    - apply filter_In. split; [exact Hin|].
      simpl. apply negb_true_iff, cell_eqb_neq. exact Hu.
    - apply Hcount. exact Hin. }
  unfold top_table, head.
  split; [|split; [|split; [|split]]].
  - apply firstn_le_length.
  - intros Hin. apply in_map_iff in Hin. destruct Hin as (x & Hx & Hin).
    apply firstn_In, HL in Hin. tauto.
  - intros k m Hin. apply firstn_In, HL in Hin. apply Hcount. tauto.
  - apply StronglySorted_firstn. exact SL.
  - intros k Hk Hu Hout.
    destruct (Hkey k Hk Hu) as (m & Hm & Em).
    destruct (firstn_full_or_all n L (k, m) Hm) as [Hlen Hs].
    { intros Hin. apply Hout. apply (in_map fst) in Hin. exact Hin. }
    split; [exact Hlen|]. intros a Ha.
    rewrite <- (firstn_skipn n L) in SL.
    pose proof (StronglySorted_app_cross _ _ _ SL a (k, m) Ha Hs) as Hge.
    simpl in Hge. lia.
Qed.

(** Lines 119 and 135 hand the same rows to the bar charts, smallest
    count first. *)
Lemma chart_order {sorter : SortValues} filtered :
  (forall t, top_countries filtered = Ok t ->
     exists t', top_countries_chart filtered = Ok t' /\ Permutation t' t /\
                StronglySorted (fun a b => snd a <= snd b) t') /\
  (forall t, top_genres filtered = Ok t ->
     exists t', top_genres_chart filtered = Ok t' /\ Permutation t' t /\
                StronglySorted (fun a b => snd a <= snd b) t').
Proof.
  split; intros t Ht; exists (sort_values true t);
    (split; [|split; [apply sort_values_perm | apply sort_values_ascending]]).
  - unfold top_countries_chart. rewrite Ht. reflexivity.
  - unfold top_genres_chart. rewrite Ht. reflexivity.
Qed.

(* ================================================================== *)
(** ** The filter, row by row *)
(* ================================================================== *)

Lemma filterable_parts df :
  filterable df = true ->
  has_column "type" df = true /\ has_column "year_added" df = true /\
  has_column "country" df = true /\
  forall r, In r (rows df) -> year_is_numeric (columns df) r = true.
Proof.
  unfold filterable. rewrite !andb_true_iff, forallb_forall. tauto.
Qed.

Lemma set_nth_twice i v w l : set_nth i v (set_nth i w l) = set_nth i v l.
Proof.
  revert l. induction i as [|i IH]; intros [|x t]; simpl; try reflexivity.
  - rewrite IH. reflexivity.
  - rewrite IH. reflexivity.
Qed.

Lemma set_cell_twice i v w r : set_cell i v (set_cell i w r) = set_cell i v r.
Proof. unfold set_cell. simpl. rewrite set_nth_twice. reflexivity. Qed.

Lemma between1_numeric lo hi c :
  match c with Int _ | NaN => true | _ => false end = true ->
  between1 lo hi c = Ok (year_within lo hi c).
Proof. destruct c; simpl; intros H; try discriminate; reflexivity. Qed.

(** Closed form of lines 67-70. *)
Lemma filtered_by_type_year_rows df content_type year_range :
  filterable df = true ->
  filtered_by_type_year df content_type year_range =
  Ok (mkFrame (columns df)
        (filter (retained (columns df) content_type year_range) (rows df))).
Proof.
  intros F. destruct (filterable_parts df F) as (Ht & Hy & _ & Hn).
  unfold filtered_by_type_year.
  rewrite (bind_getitem "type" df _ Ht). cbv beta.
  rewrite (bind_getitem "year_added" df _ Hy). cbv beta.
  unfold between.
  rewrite (mapM_pure _ (year_within (fst year_range) (snd year_range))).
  - rewrite bind_Ok. unfold isin, mask_rows. rewrite !map_map.
    rewrite (mask_and_map
               (fun r => isin1 content_type (field (columns df) "type" r))
               (fun r => year_within (fst year_range) (snd year_range)
                           (field (columns df) "year_added" r))).
    rewrite select_map. reflexivity.
  - intros c Hc. apply in_map_iff in Hc. destruct Hc as (r & <- & Hr).
    apply between1_numeric. apply (Hn r Hr).
Qed.

Lemma explode_rows_assigned i (f : row -> cell) rs :
  explode_rows i (map (fun r => set_cell i (f r) r) rs) =
  flat_map (fun r => map (fun v => set_cell i v r) (explode_cell (f r))) rs.
Proof.
  unfold explode_rows. rewrite flat_map_map.
  apply flat_map_ext. intros r. rewrite cell_at_set_cell_same.
  apply map_ext. intros v. apply set_cell_twice.
Qed.

Lemma filter_set_cell i (p : cell -> bool) r l :
  filter (fun r' => p (cell_at i r')) (map (fun v => set_cell i v r) l) =
  map (fun v => set_cell i v r) (filter p l).
Proof.
  induction l as [|v t IH]; simpl; [reflexivity|].
  rewrite cell_at_set_cell_same. destruct (p v); simpl; rewrite IH; reflexivity.
Qed.

(** Closed form of lines 72-76 on a frame that has a [country] column. *)
Lemma country_filter_rows filtered country_selected :
  has_column "country" filtered = true ->
  (c <- getitem "country" filtered ;;
   let tmp := setitem "country_exploded" (str_split ", " c) filtered in
   tmp <- explode_frame "country_exploded" tmp ;;
   e <- getitem "country_exploded" tmp ;;
   Ok (mask_rows (isin country_selected e) tmp)) =
  Ok (mkFrame (add_column "country_exploded" (columns filtered))
        (flat_map (matching_rows (columns filtered) country_selected)
                  (rows filtered))).
Proof.
  intros Hc. rewrite (bind_getitem "country" filtered _ Hc). cbv beta zeta.
  unfold str_split. rewrite map_map.
  rewrite (setitem_map "country_exploded"
             (fun r => str_split1 ", " (field (columns filtered) "country" r))).
  unfold explode_frame, loc. cbn [columns rows].
  rewrite col_index_add_column_same, !bind_Ok.
  unfold getitem, loc. cbn [columns rows].
  rewrite col_index_add_column_same, !bind_Ok.
  unfold mask_rows, isin. cbn [columns rows].
  rewrite map_map, select_map.
  rewrite explode_rows_assigned, filter_flat_map.
  f_equal. f_equal. apply flat_map_ext. intros r.
  unfold matching_rows, country_cells.
  apply (filter_set_cell _ (isin1 country_selected)).
Qed.

Lemma filtered_df_no_country df content_type year_range :
  filterable df = true ->
  filtered_df df content_type year_range [] =
  Ok (mkFrame (columns df)
        (filter (retained (columns df) content_type year_range) (rows df))).
Proof.
  intros F. unfold filtered_df.
  rewrite (filtered_by_type_year_rows df _ _ F), bind_Ok. reflexivity.
Qed.

Lemma filtered_df_country df content_type year_range country_selected :
  filterable df = true ->
  country_selected <> [] ->
  filtered_df df content_type year_range country_selected =
  Ok (mkFrame (add_column "country_exploded" (columns df))
        (flat_map (matching_rows (columns df) country_selected)
           (filter (retained (columns df) content_type year_range) (rows df)))).
Proof.
  intros F Hne. unfold filtered_df.
  rewrite (filtered_by_type_year_rows df _ _ F), bind_Ok.
  destruct country_selected as [|v vs]; [congruence|].
  apply (country_filter_rows
           (mkFrame (columns df)
              (filter (retained (columns df) content_type year_range) (rows df)))).
  destruct (filterable_parts df F) as (_ & _ & Hc & _). exact Hc.
Qed.

(* ================================================================== *)
(** ** What the loader guarantees *)
(* ================================================================== *)

Lemma has_column_assign_other c c' f df :
  c' <> c -> has_column c' (assign c f df) = has_column c' df.
Proof.
  intros H. unfold has_column. cbn [assign columns].
  rewrite (col_index_add_column_other c c' _ H). reflexivity.
Qed.

Section LoaderFacts.

Variable parse_datetime : list cell -> cell -> option Timestamp.

(** Closed form of [load_data]: the rows whose date parses, cleaned, in
    their original order. *)
Lemma load_data_rows raw :
  has_column "date_added" raw = true ->
  has_column "country" raw = true ->
  has_column "listed_in" raw = true ->
  has_column "rating" raw = true ->
  load_data parse_datetime raw =
  Ok (mkFrame (loaded_columns (columns raw))
        (map (fun r => snd (clean (date_parser parse_datetime raw) (columns raw) r))
             (filter (parses (date_parser parse_datetime raw) (columns raw)) (rows raw)))).
Proof.
  intros Hd Hc Hl Hr.
  pose proof (proj1 (has_column_In _ _) Hd) as Id.
  pose proof (proj1 (has_column_In _ _) Hc) as Ic.
  pose proof (proj1 (has_column_In _ _) Hl) as Il.
  pose proof (proj1 (has_column_In _ _) Hr) as Ir.
  unfold load_data, to_datetime, dt_year, fillna. cbv zeta.
  rewrite (bind_getitem "date_added" raw _ Hd). cbv beta.
  rewrite setitem_assign.
  rewrite dropna_rows by has_col.
  rewrite bind_Ok.
  rewrite (bind_getitem "date_added") by has_col. cbv beta.
  rewrite setitem_assign.
  rewrite (bind_getitem "country") by has_col. cbv beta.
  rewrite setitem_assign.
  rewrite (bind_getitem "listed_in") by has_col. cbv beta.
  rewrite setitem_assign.
  rewrite (bind_getitem "rating") by has_col. cbv beta.
  rewrite setitem_assign.
  f_equal. unfold assign at 1. f_equal.
  - simpl. unfold loaded_columns.
    rewrite (add_column_present "date_added" _ Id).
    rewrite (add_column_present "country") by (apply In_add_column; exact Ic).
    rewrite (add_column_present "listed_in") by (apply In_add_column; exact Il).
    rewrite (add_column_present "rating") by (apply In_add_column; exact Ir).
    reflexivity.
  - simpl. rewrite filter_map_swap, !map_map.
    apply f_equal2; [reflexivity|].
    apply filter_ext. intros r. unfold parses.
    change (set_cell (target "date_added" (columns raw))
              (to_datetime1 (date_parser parse_datetime raw) (field (columns raw) "date_added" r)) r)
      with (snd (assign1 "date_added" (parsed_date (date_parser parse_datetime raw)) (columns raw, r))).
    change (add_column "date_added" (columns raw))
      with (fst (assign1 "date_added" (parsed_date (date_parser parse_datetime raw)) (columns raw, r))).
    rewrite field_assign1_same. reflexivity.
Qed.


(** The loader succeeds exactly when the four columns it reads exist. *)
Lemma load_data_columns raw df :
  load_data parse_datetime raw = Ok df ->
  has_column "date_added" raw = true /\ has_column "country" raw = true /\
  has_column "listed_in" raw = true /\ has_column "rating" raw = true.
Proof.
  intros H.
  destruct (has_column "date_added" raw) eqn:Hd.
  2:{ unfold load_data in H. rewrite (getitem_missing _ _ Hd) in H. discriminate. }
  unfold load_data, to_datetime, dt_year, fillna in H. cbv zeta in H.
  rewrite (bind_getitem "date_added" raw _ Hd) in H. cbv beta in H.
  rewrite setitem_assign in H.
  rewrite dropna_rows in H by has_col.
  rewrite bind_Ok in H.
  rewrite (bind_getitem "date_added") in H by has_col. cbv beta in H.
  rewrite setitem_assign in H.
  destruct (has_column "country" raw) eqn:Hc.
  2:{ rewrite getitem_missing in H; [discriminate|].
      rewrite has_column_assign_other by discriminate.
      match goal with
      | |- has_column ?c (mkFrame (columns ?X) _) = _ => change (has_column c X = false)
      end.
      rewrite has_column_assign_other by discriminate. exact Hc. }
  rewrite (bind_getitem "country") in H by has_col. cbv beta in H.
  rewrite setitem_assign in H.
  destruct (has_column "listed_in" raw) eqn:Hl.
  2:{ rewrite getitem_missing in H; [discriminate|].
      rewrite !has_column_assign_other by discriminate.
      match goal with
      | |- has_column ?c (mkFrame (columns ?X) _) = _ => change (has_column c X = false)
      end.
      rewrite has_column_assign_other by discriminate. exact Hl. }
  rewrite (bind_getitem "listed_in") in H by has_col. cbv beta in H.
  rewrite setitem_assign in H.
  destruct (has_column "rating" raw) eqn:Hr.
  2:{ rewrite getitem_missing in H; [discriminate|].
      rewrite !has_column_assign_other by discriminate.
      match goal with
      | |- has_column ?c (mkFrame (columns ?X) _) = _ => change (has_column c X = false)
      end.
      rewrite has_column_assign_other by discriminate. exact Hr. }
  tauto.
Qed.

(** Every row of a loaded frame is the cleaned image of a raw row whose
    date parses. *)
Lemma load_data_row raw df r :
  load_data parse_datetime raw = Ok df ->
  In r (rows df) ->
  exists r0,
    In r0 (rows raw) /\ parses (date_parser parse_datetime raw) (columns raw) r0 = true /\
    r = snd (clean (date_parser parse_datetime raw) (columns raw) r0) /\
    columns df = fst (clean (date_parser parse_datetime raw) (columns raw) r0).
Proof.
  intros H Hr. destruct (load_data_columns raw df H) as (Hd & Hc & Hl & Hrt).
  rewrite (load_data_rows raw Hd Hc Hl Hrt) in H.
  injection H as <-. cbn [rows columns] in *.
  apply in_map_iff in Hr. destruct Hr as (r0 & <- & Hin).
  apply filter_In in Hin. destruct Hin as [Hin Hp].
  exists r0. repeat split; try assumption.
  rewrite fst_clean by (apply has_column_In; assumption). reflexivity.
Qed.

Lemma load_data_year raw df r :
  load_data parse_datetime raw = Ok df ->
  In r (rows df) ->
  exists d, field (columns df) "date_added" r = Date d /\
            field (columns df) "year_added" r = Int (year d).
Proof.
  intros H Hr. destruct (load_data_row raw df r H Hr) as (r0 & _ & Hp & -> & ->).
  destruct (parses_date _ _ _ Hp) as [d Ed]. exists d.
  destruct (clean_fields (date_parser parse_datetime raw) (columns raw) r0) as (_ & Fd & Fy & _).
  rewrite Fd, Fy, Ed. split; reflexivity.
Qed.

Lemma load_data_has_column raw df c :
  load_data parse_datetime raw = Ok df ->
  has_column c raw = true -> has_column c df = true.
Proof.
  intros H Hc. destruct (load_data_columns raw df H) as (Hd & Hco & Hl & Hr).
  rewrite (load_data_rows raw Hd Hco Hl Hr) in H.
  injection H as <-. apply has_column_In. cbn [columns].
  apply In_add_column. apply has_column_In. exact Hc.
Qed.

Lemma load_data_has_year raw df :
  load_data parse_datetime raw = Ok df -> has_column "year_added" df = true.
Proof.
  intros H. destruct (load_data_columns raw df H) as (Hd & Hco & Hl & Hr).
  rewrite (load_data_rows raw Hd Hco Hl Hr) in H.
  injection H as <-. apply has_column_In. cbn [columns].
  apply In_add_column_same.
Qed.

(** A loaded frame with a [type] column can be filtered. *)
Lemma load_data_filterable raw df :
  load_data parse_datetime raw = Ok df ->
  has_column "type" df = true ->
  filterable df = true.
Proof.
  intros H Ht. unfold filterable.
  rewrite Ht, (load_data_has_year raw df H).
  rewrite (load_data_has_column raw df "country" H)
    by (apply (load_data_columns raw df H)).
  simpl. apply forallb_forall. intros r Hr.
  destruct (load_data_year raw df r H Hr) as (d & _ & Ey).
  unfold year_is_numeric. rewrite Ey. reflexivity.
Qed.

End LoaderFacts.

(* ================================================================== *)
(** ** Options of the widgets *)
(* ================================================================== *)

Lemma insert_sorted_In x l l' :
  insert_sorted x l = Ok l' -> forall y, In y l' <-> y = x \/ In y l.
Proof.
  revert l'. induction l as [|a t IH]; simpl; intros l' H y.
  - injection H as <-. simpl. intuition congruence.
  - destruct (cell_ltb x a) as [[|]|] eqn:E; simpl in H; try discriminate.
    + injection H as <-. simpl. intuition congruence.
    + destruct (insert_sorted x t) as [t'|] eqn:Et; simpl in H; [|discriminate].
      injection H as <-. simpl. rewrite (IH t' eq_refl y). intuition congruence.
Qed.

Lemma sorted_In l l' : sorted l = Ok l' -> forall y, In y l' <-> In y l.
Proof.
  revert l'. induction l as [|a t IH]; simpl; intros l' H y.
  - injection H as <-. tauto.
  - destruct (sorted t) as [t'|] eqn:Et; simpl in H; [|discriminate].
    rewrite (insert_sorted_In a t' l' H y), (IH t' eq_refl y).
    intuition congruence.
Qed.

Lemma extremum_min s m :
  extremum Z.min s = Ok (Some m) -> forall z, In (Int z) s -> (m <= z)%Z.
Proof.
  revert m. induction s as [|c t IH]; simpl; intros m H z Hz.
  - contradiction.
  - destruct c; try discriminate.
    + destruct Hz as [Hz|Hz]; [discriminate|]. apply (IH m H z Hz).
    + destruct (extremum Z.min t) as [[w|]|] eqn:E; simpl in H; try discriminate.
      * injection H as <-. destruct Hz as [Hz|Hz].
        -- injection Hz as ->. lia.
        -- specialize (IH w eq_refl z Hz). lia.
      * injection H as <-. destruct Hz as [Hz|Hz].
        -- injection Hz as ->. lia.
        -- exfalso. clear IH. revert E Hz. clear.
           induction t as [|c t IH]; simpl; intros E Hz; [contradiction|].
           destruct c; try discriminate.
           ++ destruct Hz as [Hz|Hz]; [discriminate|]. apply IH; assumption.
           ++ destruct (extremum Z.min t) as [[w|]|]; simpl in E; discriminate.
Qed.

Lemma extremum_max s m :
  extremum Z.max s = Ok (Some m) -> forall z, In (Int z) s -> (z <= m)%Z.
Proof.
  revert m. induction s as [|c t IH]; simpl; intros m H z Hz.
  - contradiction.
  - destruct c; try discriminate.
    + destruct Hz as [Hz|Hz]; [discriminate|]. apply (IH m H z Hz).
    + destruct (extremum Z.max t) as [[w|]|] eqn:E; simpl in H; try discriminate.
      * injection H as <-. destruct Hz as [Hz|Hz].
        -- injection Hz as ->. lia.
        -- specialize (IH w eq_refl z Hz). lia.
      * injection H as <-. destruct Hz as [Hz|Hz].
        -- injection Hz as ->. lia.
        -- exfalso. clear IH. revert E Hz. clear.
           induction t as [|c t IH]; simpl; intros E Hz; [contradiction|].
           destruct c; try discriminate.
           ++ destruct Hz as [Hz|Hz]; [discriminate|]. apply IH; assumption.
           ++ destruct (extremum Z.max t) as [[w|]|]; simpl in E; discriminate.
Qed.

Lemma int_of_Some m z : int_of m = Ok z -> m = Ok (Some z).
Proof.
  unfold int_of. destruct m as [[w|]|]; simpl; intros H; try discriminate.
  injection H as <-. reflexivity.
Qed.

Lemma min_year_le df lo r y :
  min_year df = Ok lo -> In r (rows df) ->
  field (columns df) "year_added" r = Int y -> (lo <= y)%Z.
Proof.
  unfold min_year. intros H Hr Hy.
  destruct (has_column "year_added" df) eqn:Hc.
  - rewrite (bind_getitem _ _ _ Hc) in H. apply int_of_Some in H.
    apply (extremum_min _ _ H). rewrite <- Hy. apply in_map. exact Hr.
  - rewrite (getitem_missing _ _ Hc) in H. discriminate.
Qed.

Lemma max_year_ge df hi r y :
  max_year df = Ok hi -> In r (rows df) ->
  field (columns df) "year_added" r = Int y -> (y <= hi)%Z.
Proof.
  unfold max_year. intros H Hr Hy.
  destruct (has_column "year_added" df) eqn:Hc.
  - rewrite (bind_getitem _ _ _ Hc) in H. apply int_of_Some in H.
    apply (extremum_max _ _ H). rewrite <- Hy. apply in_map. exact Hr.
  - rewrite (getitem_missing _ _ Hc) in H. discriminate.
Qed.

(** The options of the type widget are the non-null values of the column. *)
Lemma content_type_options_In df ct v :
  content_type_options df = Ok ct ->
  (In v ct <-> v <> NaN /\ exists r, In r (rows df) /\ field (columns df) "type" r = v).
Proof.
  unfold content_type_options. intros H.
  destruct (has_column "type" df) eqn:Hc.
  - rewrite (bind_getitem _ _ _ Hc) in H.
    rewrite (sorted_In _ _ H v), unique_In, filter_In, in_map_iff.
    split.
    + intros [(r & E & Hr) Hn]. split; [|eauto].
      intros Hv. rewrite Hv in Hn. discriminate.
    + intros [Hn (r & Hr & E)]. split; [eauto|].
      destruct v; auto.
  - rewrite (getitem_missing _ _ Hc) in H. discriminate.
Qed.

Module ObjectFacts.
Import Objects.

Lemma extends_refl h : extends h h.
Proof. intros q g H. exact H. Qed.

Lemma extends_trans h1 h2 h3 : extends h1 h2 -> extends h2 h3 -> extends h1 h3.
Proof. intros H12 H23 q g H. apply H23, H12, H. Qed.

Lemma extends_app h l : extends h (h ++ l).
Proof.
  intros q g H. unfold deref in *. rewrite nth_error_app1; [exact H|].
  apply nth_error_Some. congruence.
Qed.

Lemma deref_fresh h f : deref (length h) (h ++ [f]) = Some f.
Proof.
  unfold deref. rewrite nth_error_app2 by lia. rewrite Nat.sub_diag. reflexivity.
Qed.

Lemma deref_unbound h : deref (length h) h = None.
Proof. apply nth_error_None. lia. Qed.

Lemma deref_store_same p f h g :
  deref p h = Some g -> deref p (store p f h) = Some f.
Proof.
  unfold deref. revert p. induction h as [|x t IH]; intros [|p]; simpl;
    try discriminate; auto.
Qed.

Lemma deref_store_other p q f h :
  q <> p -> deref q (store p f h) = deref q h.
Proof.
  unfold deref. revert p q. induction h as [|x t IH]; intros [|p] [|q] H; simpl;
    try reflexivity; try congruence.
  apply IH. congruence.
Qed.

Lemma wp_bind {A B} (m : M A) (k : A -> M B) h Q :
  wp m h (after (fun a h' => wp (k a) h' Q) (fun e => Q (Err e))) ->
  wp (bindM m k) h Q.
Proof.
  unfold wp, bindM, after. destruct (m h) as [[a h']|e]; auto.
Qed.

Lemma wp_ret {A} (a : A) h Q : Q (Ok (a, h)) -> wp (ret a) h Q.
Proof. auto. Qed.

Lemma wp_lift_Ok {A} (r : result A) a h Q :
  r = Ok a -> Q (Ok (a, h)) -> wp (lift r) h Q.
Proof. intros -> H. exact H. Qed.

Lemma wp_lift_Err {A} (r : result A) e h (Q : result (A * heap) -> Prop) :
  r = Err e -> Q (Err e) -> wp (lift r) h Q.
Proof. intros -> H. exact H. Qed.

Lemma wp_read p f h Q : deref p h = Some f -> Q (Ok (f, h)) -> wp (read p) h Q.
Proof. intros Hp H. unfold wp, read. rewrite Hp. exact H. Qed.

Lemma wp_new f h Q :
  (forall p h', deref p h' = Some f -> deref p h = None -> extends h h' ->
                Q (Ok (p, h'))) ->
  wp (new f) h Q.
Proof.
  intros H. unfold wp, new.
  apply H; [apply deref_fresh | apply deref_unbound | apply extends_app].
Qed.

Lemma wp_write p f g h Q :
  deref p h = Some g ->
  (forall h', deref p h' = Some f ->
              (forall q, q <> p -> deref q h' = deref q h) -> Q (Ok (tt, h'))) ->
  wp (write p f) h Q.
Proof.
  intros Hp H. unfold wp, write. rewrite Hp. apply H.
  - apply (deref_store_same p f h g Hp).
  - intros q Hq. apply deref_store_other. exact Hq.
Qed.

Lemma wp_copy p f h Q :
  deref p h = Some f ->
  (forall p' h', deref p' h' = Some f -> deref p' h = None -> extends h h' ->
                 Q (Ok (p', h'))) ->
  wp (copy p) h Q.
Proof.
  intros Hp H. unfold copy. apply wp_bind.
  apply (wp_read p f); [exact Hp|]. unfold after. apply wp_new. exact H.
Qed.

Ltac wp_step := unfold after; cbv beta iota.

(** The object-level filter and [filtered_df] agree: the same exception,
    or a fresh object holding the value [filtered_df] computes, with every
    object that existed before left as it was. *)
Lemma apply_filters_agrees df f content_type year_range country_selected h :
  deref df h = Some f ->
  wp (apply_filters df content_type year_range country_selected) h
     (agrees h (filtered_df f content_type year_range country_selected)).
Proof.
  intros Hdf. unfold filtered_df, apply_filters.
  apply wp_bind. unfold index_type_year. apply wp_bind.
  apply (wp_read df f); [exact Hdf|]. wp_step. apply wp_bind.
  destruct (filtered_by_type_year f content_type year_range) as [x|e] eqn:Ex.
  2:{ apply (wp_lift_Err _ e); [reflexivity|]. wp_step. reflexivity. }
  apply (wp_lift_Ok _ x); [reflexivity|]. wp_step. apply wp_new.
  intros p0 h0 Hp0 _ E0. wp_step. rewrite bind_Ok. apply wp_bind.
  apply (wp_copy p0 x); [exact Hp0|].
  intros p1 h1 Hp1 _ E1. wp_step.
  destruct country_selected as [|v vs].
  - apply wp_ret. split; [exact Hp1|]. apply (extends_trans _ _ _ E0 E1).
  - apply wp_bind. apply (wp_copy p1 x); [exact Hp1|].
    intros tmp h2 Htmp Hfresh E2. wp_step.
    apply wp_bind. unfold setitem_split. apply wp_bind.
    apply (wp_read tmp x); [exact Htmp|]. wp_step. apply wp_bind.
    destruct (getitem "country" x) as [c|e] eqn:Ec.
    2:{ apply (wp_lift_Err _ e); [reflexivity|]. wp_step. reflexivity. }
    apply (wp_lift_Ok _ c); [reflexivity|]. wp_step.
    apply (wp_write tmp _ x); [exact Htmp|].
    intros h3 Htmp3 Hother. wp_step. rewrite bind_Ok. cbv zeta.
    apply wp_bind. unfold explode_obj. apply wp_bind.
    apply (wp_read tmp _ h3 _ Htmp3). wp_step. apply wp_bind.
    destruct (explode_frame "country_exploded"
                (setitem "country_exploded" (str_split ", " c) x)) as [ex|e] eqn:Ee.
    2:{ apply (wp_lift_Err _ e); [reflexivity|]. wp_step. reflexivity. }
    apply (wp_lift_Ok _ ex); [reflexivity|]. wp_step. apply wp_new.
    intros p4 h4 Hp4 _ E4. wp_step. rewrite bind_Ok.
    apply wp_bind. unfold index_isin. apply wp_bind.
    apply (wp_read p4 ex); [exact Hp4|]. wp_step. apply wp_bind.
    destruct (getitem "country_exploded" ex) as [col|e] eqn:Ecol.
    2:{ apply (wp_lift_Err _ e); [reflexivity|]. wp_step. reflexivity. }
    apply (wp_lift_Ok _ col); [reflexivity|]. wp_step. apply wp_new.
    intros p5 h5 Hp5 _ E5. wp_step. rewrite bind_Ok.
    apply (wp_copy p5 _ h5 _ Hp5).
    intros p6 h6 Hp6 _ E6. split; [exact Hp6|].
    intros q g Hq. apply E6, E5, E4.
    assert (Hq1 : deref q h1 = Some g) by (apply E1, E0, Hq).
    rewrite Hother; [apply E2; exact Hq1|].
    intros ->. congruence.
Qed.

End ObjectFacts.

(* ================================================================== *)
(** ** The sample data, run *)
(* ================================================================== *)

Example load_sample : load_data parse_known sample_raw = Ok sample.
Proof. reflexivity. Qed.

Example load_untyped : load_data parse_known untyped_raw = Ok untyped.
Proof. reflexivity. Qed.

(** First scenario: movies of 2018-2020, no country chosen. *)
Example sample_movies :
  filtered_df sample [Str "Movie"] (2018, 2020)%Z [] =
  Ok (mkFrame (columns sample)
        [ mkRow 0 [Str "Movie"; Str "India, Canada"; Date (mkTimestamp 2018 9 25);
                   Str "PG"; Str "Drama"; Int 2018];
          mkRow 2 [Str "Movie"; Str "Canada"; Date (mkTimestamp 2020 7 4);
                   Str "PG"; Str "Drama"; Int 2020] ]).
Proof. reflexivity. Qed.

Example sample_movies_genres :
  (f <- filtered_df sample [Str "Movie"] (2018, 2020)%Z [] ;;
   top_genres (sorter := stable_sort) f)
  = Ok [(Str "Drama", 2)].
Proof. reflexivity. Qed.

(** Second scenario: the same with Canada chosen. *)
Example sample_movies_canada :
  filtered_df sample [Str "Movie"] (2018, 2020)%Z [Str "Canada"] =
  Ok (mkFrame (columns sample ++ ["country_exploded"])
        [ mkRow 0 [Str "Movie"; Str "India, Canada"; Date (mkTimestamp 2018 9 25);
                   Str "PG"; Str "Drama"; Int 2018; Str "Canada"];
          mkRow 2 [Str "Movie"; Str "Canada"; Date (mkTimestamp 2020 7 4);
                   Str "PG"; Str "Drama"; Int 2020; Str "Canada"] ]).
Proof. reflexivity. Qed.

Example sample_options :
  top_country_list (sorter := stable_sort) sample
    = Ok [Str "Canada"; Str "India"; Str "Unknown"] /\
  content_type_options sample = Ok [Str "Movie"; Str "TV Show"] /\
  min_year sample = Ok 2018%Z /\ max_year sample = Ok 2020%Z.
Proof. repeat split. Qed.

(* ================================================================== *)
(** ** Properties of the pipeline *)
(* ================================================================== *)

Lemma Forall2_map_right {A B} (P : A -> B -> Prop) (f : A -> B) l :
  (forall x, In x l -> P x (f x)) -> Forall2 P l (map f l).
Proof.
  induction l as [|x t IH]; intros H; simpl; constructor.
  - apply H. left. reflexivity.
  - apply IH. intros y Hy. apply H. right. exact Hy.
Qed.

Lemma country_cells_string cols r s :
  field cols "country" r = Str s ->
  country_cells cols r = map Str (split ", " s).
Proof.
  intros E. unfold country_cells. rewrite E. simpl.
  destruct (split ", " s) eqn:Es; [|reflexivity].
  exfalso. apply (split_nonempty ", " s). exact Es.
Qed.

(** C4. The loader keeps exactly the raw rows whose [date_added] parses,
    in order; each kept row carries the parsed date, the calendar year of
    that date as [year_added], and its [country], [listed_in] and [rating]
    with every null replaced by ["Unknown"], so none of the five is null. *)
Theorem load_data_invariants
    (parse_datetime : list cell -> cell -> option Timestamp) raw :
  has_column "date_added" raw = true ->
  has_column "country" raw = true ->
  has_column "listed_in" raw = true ->
  has_column "rating" raw = true ->
  exists df,
    load_data parse_datetime raw = Ok df /\
    Forall2
      (fun r0 r =>
         label r = label r0 /\
         exists d,
           to_datetime1 (date_parser parse_datetime raw)
                        (field (columns raw) "date_added" r0) = Date d /\
           field (columns df) "date_added" r = Date d /\
           field (columns df) "year_added" r = Int (year d) /\
           field (columns df) "country" r =
             fillna1 (Str "Unknown") (field (columns raw) "country" r0) /\
           field (columns df) "listed_in" r =
             fillna1 (Str "Unknown") (field (columns raw) "listed_in" r0) /\
           field (columns df) "rating" r =
             fillna1 (Str "Unknown") (field (columns raw) "rating" r0) /\
           field (columns df) "country" r <> NaN /\
           field (columns df) "listed_in" r <> NaN /\
           field (columns df) "rating" r <> NaN)
      (filter (fun r0 => notnull (to_datetime1 (date_parser parse_datetime raw)
                                    (field (columns raw) "date_added" r0)))
              (rows raw))
      (rows df).
Proof.
  intros Hd Hc Hl Hr.
  eexists. split; [apply (load_data_rows parse_datetime raw Hd Hc Hl Hr)|].
  cbn [rows columns].
  change (filter _ (rows raw))
    with (filter (parses (date_parser parse_datetime raw) (columns raw)) (rows raw)).
  apply Forall2_map_right. intros r0 Hin.
  apply filter_In in Hin. destruct Hin as [_ Hp].
  destruct (parses_date _ _ _ Hp) as [d Ed].
  destruct (clean_fields (date_parser parse_datetime raw) (columns raw) r0)
    as (Lb & Fd & Fy & Fc & Fl & Fr & _).
  rewrite (fst_clean (date_parser parse_datetime raw) (columns raw) r0)
    in Fd, Fy, Fc, Fl, Fr
    by (apply has_column_In; assumption).
  unfold loaded_columns. rewrite Fd, Fy, Fc, Fl, Fr, Ed.
  split; [exact Lb|]. exists d. unfold parsed_date in Ed.
  repeat split; try assumption; try reflexivity;
    apply fillna1_notnull; discriminate.
Qed.

Lemma load_data_invariants_witness :
  has_column "date_added" sample_raw = true /\
  exists df, load_data parse_known sample_raw = Ok df /\ length (rows df) = 3.
Proof.
  split; [reflexivity|].
  destruct (load_data_invariants parse_known sample_raw
              eq_refl eq_refl eq_refl eq_refl) as (df & Hload & Hrows).
  exists df. split; [exact Hload|].
  apply Forall2_length in Hrows. rewrite <- Hrows. reflexivity.
Defined.

(** C5 fails as stated: countries that occur equally often come in the
    order the sort leaves them, which need not be the order of first
    appearance.  Canada and India occur once each, Canada first; under a
    sort that lists equal counts in reverse the options are India,
    Canada, Unknown. *)
Lemma top_country_list_ties_not_first_seen :
  top_country_list (sorter := reversed_ties) untyped
  = Ok [Str "India"; Str "Canada"; Str "Unknown"] /\
  ranking (tokens (columns untyped) "country" (rows untyped))
          [Str "Canada"; Str "India"] /\
  ~ (exists ranked,
       ranking (tokens (columns untyped) "country" (rows untyped)) ranked /\
       (In (Str "Unknown") (firstn 30 ranked) ->
        top_country_list (sorter := reversed_ties) untyped
        = Ok (firstn 30 ranked)) /\
       (~ In (Str "Unknown") (firstn 30 ranked) ->
        top_country_list (sorter := reversed_ties) untyped
        = Ok (firstn 30 ranked ++ [Str "Unknown"]))).
Proof.
  assert (R : ranking (tokens (columns untyped) "country" (rows untyped))
                      [Str "Canada"; Str "India"]).
  { split; [|split].
    - constructor; [simpl; intros [H|[]]; discriminate|].
      constructor; [simpl; tauto | constructor].
    - intros k. simpl. tauto.
    - constructor; [constructor; [constructor | constructor]|].
      constructor; [|constructor].
      right. split; [reflexivity | simpl; lia]. }
  split; [reflexivity|]. split; [exact R|].
  intros (ranked & R' & _ & Happ).
  rewrite (ranking_unique _ _ _ R' R) in Happ.
  assert (N : ~ In (Str "Unknown") (firstn 30 [Str "Canada"; Str "India"])).
  { simpl. intros [H|[H|[]]]; discriminate H. }
  specialize (Happ N). discriminate Happ.
Qed.

(** C5, amended. [top_country_list] is the first 30 entries of a list of
    the country tokens by frequency (every [country] string split on
    [", "]; each token once, most frequent first, tokens of equal
    frequency in the order the sort leaves them), followed by ["Unknown"]
    exactly when ["Unknown"] is not among those 30. *)
Theorem top_country_list_by_frequency {sorter : SortValues} df :
  has_column "country" df = true ->
  exists ranked,
    by_frequency (tokens (columns df) "country" (rows df)) ranked /\
    (In (Str "Unknown") (firstn 30 ranked) ->
     top_country_list df = Ok (firstn 30 ranked)) /\
    (~ In (Str "Unknown") (firstn 30 ranked) ->
     top_country_list df = Ok (firstn 30 ranked ++ [Str "Unknown"])).
Proof.
  intros H.
  destruct (token_counts_tokens "country" df H) as (vc & Hvc & Evc & Htok).
  exists (map fst vc).
  split; [rewrite <- Htok, Evc; apply value_counts_by_frequency|].
  unfold top_country_list, country_counts. rewrite Hvc, bind_Ok.
  unfold head. rewrite <- firstn_map. split; intros Hin.
  - apply isin1_In in Hin. unfold Unknown. rewrite Hin. reflexivity.
  - apply isin1_not_In in Hin. unfold Unknown. rewrite Hin. reflexivity.
Qed.

(** No country of [untyped] is missing, so ["Unknown"] is appended. *)
Lemma top_country_list_by_frequency_witness :
  has_column "country" untyped = true /\
  exists ranked,
    ~ In (Str "Unknown") (firstn 30 ranked) /\
    top_country_list (sorter := stable_sort) untyped
    = Ok (firstn 30 ranked ++ [Str "Unknown"]).
Proof.
  split; [reflexivity|].
  destruct (top_country_list_by_frequency (sorter := stable_sort) untyped eq_refl)
    as (ranked & (_ & I & _) & _ & Happ).
  assert (N : ~ In (Str "Unknown") (firstn 30 ranked)).
  { intros Hin. apply firstn_In, I in Hin. simpl in Hin.
    destruct Hin as [Hin|[Hin|[]]]; discriminate Hin. }
  exists ranked. split; [exact N | exact (Happ N)].
Defined.

Lemma descending_pair (a b : cell * nat) l :
  snd a < snd b ->
  Permutation l [a; b] ->
  StronglySorted (fun x y => snd x >= snd y) l ->
  l = [b; a].
Proof.
  intros Hlt P S.
  apply Permutation_sym, Permutation_length_2_inv in P.
  destruct P as [->| ->]; [|reflexivity].
  inversion S as [|? ? _ F]; subst.
  inversion F as [|? ? Hge _]; subst. lia.
Qed.

(** C7 fails as stated: with ratings PG, TV-MA, TV-MA the table lists
    TV-MA before PG, while PG is the rating seen first; the two counts
    differ, so no sort can help it. *)
Lemma rating_counts_not_first_seen :
  exists s,
    getitem "rating" late_majority = Ok s /\
    unique s = [Str "PG"; Str "TV-MA"] /\
    forall sorter : SortValues,
    exists rc,
      rating_counts late_majority = Ok rc /\
      rc = [(Str "TV-MA", 2); (Str "PG", 1)] /\
      map fst rc <> unique s.
Proof.
  eexists. split; [reflexivity|]. split; [reflexivity|].
  intros sorter.
  assert (E : value_counts [Str "PG"; Str "TV-MA"; Str "TV-MA"]
              = [(Str "TV-MA", 2); (Str "PG", 1)]).
  { apply descending_pair.
    - simpl. lia.
    - apply (value_counts_perm [Str "PG"; Str "TV-MA"; Str "TV-MA"]).
    - apply value_counts_descending. }
  exists (value_counts [Str "PG"; Str "TV-MA"; Str "TV-MA"]).
  split; [reflexivity|]. split; [exact E|]. rewrite E. discriminate.
Qed.

(** C7, amended. [rating_counts] has one entry per distinct non-null
    rating, holding the number of rows with that rating; the entries are
    in descending order of count. *)
Theorem rating_counts_descending {sorter : SortValues} filtered :
  has_column "rating" filtered = true ->
  exists rc,
    rating_counts filtered = Ok rc /\
    NoDup (map fst rc) /\
    (forall k, In k (map fst rc) <->
       In k (filter notnull
               (map (field (columns filtered) "rating") (rows filtered)))) /\
    (forall k n, In (k, n) rc ->
       n = length (filter (fun r => cell_eqb (field (columns filtered) "rating" r) k)
                          (rows filtered))) /\
    StronglySorted (fun a b => snd a >= snd b) rc.
Proof.
  intros H. unfold rating_counts. rewrite (bind_getitem "rating" filtered _ H).
  destruct (value_counts_index
              (map (field (columns filtered) "rating") (rows filtered)))
    as (N & I).
  eexists. split; [reflexivity|]. split; [exact N|]. split; [exact I|]. split.
  - intros k n Hin.
    rewrite (value_counts_count _ k n Hin).
    apply count_rows.
    apply (in_map fst) in Hin. apply I in Hin. apply filter_In in Hin.
    intros ->. destruct Hin as [_ Hn]. discriminate.
  - apply value_counts_descending.
Qed.

Lemma rating_counts_descending_witness :
  has_column "rating" late_majority = true /\
  exists rc,
    rating_counts (sorter := stable_sort) late_majority = Ok rc /\
    StronglySorted (fun a b => snd a >= snd b) rc.
Proof.
  split; [reflexivity|].
  destruct (rating_counts_descending (sorter := stable_sort) late_majority eq_refl)
    as (rc & Hrc & _ & _ & _ & S).
  exists rc. split; [exact Hrc | exact S].
Defined.

(** C8. The top-countries table has at most 10 rows and the top-genres
    table at most 12; each row pairs a token of the split column with its
    number of occurrences, rows are in descending order of count,
    ["Unknown"] is not among them, and a token left out occurs no more
    often than any token listed. *)
Theorem top_tables {sorter : SortValues} filtered :
  has_column "country" filtered = true ->
  has_column "listed_in" filtered = true ->
  exists tc tg,
    top_countries filtered = Ok tc /\
    top_genres filtered = Ok tg /\
    length tc <= 10 /\ length tg <= 12 /\
    ~ In (Str "Unknown") (map fst tc) /\ ~ In (Str "Unknown") (map fst tg) /\
    StronglySorted (fun a b => snd a >= snd b) tc /\
    StronglySorted (fun a b => snd a >= snd b) tg /\
    top_table 10 (tokens (columns filtered) "country" (rows filtered)) tc /\
    top_table 12 (tokens (columns filtered) "listed_in" (rows filtered)) tg.
Proof.
  intros Hc Hl.
  destruct (top_tokens_table "country" 10 filtered Hc) as (tc & Etc & Ttc).
  destruct (top_tokens_table "listed_in" 12 filtered Hl) as (tg & Etg & Ttg).
  exists tc, tg. unfold top_countries, top_genres.
  pose proof Ttc as (L1 & U1 & _ & S1 & _).
  pose proof Ttg as (L2 & U2 & _ & S2 & _).
  split; [exact Etc|]. split; [exact Etg|].
  split; [exact L1|]. split; [exact L2|].
  split; [exact U1|]. split; [exact U2|].
  split; [exact S1|]. split; [exact S2|].
  split; [exact Ttc | exact Ttg].
Qed.

Lemma top_tables_witness :
  has_column "country" sample = true /\ has_column "listed_in" sample = true /\
  exists tc tg,
    top_countries (sorter := stable_sort) sample = Ok tc /\
    top_genres (sorter := stable_sort) sample = Ok tg /\
    length tc <= 10 /\ length tg <= 12.
Proof.
  split; [reflexivity|]. split; [reflexivity|].
  destruct (top_tables (sorter := stable_sort) sample eq_refl eq_refl)
    as (tc & tg & H1 & H2 & H3 & H4 & _).
  exists tc, tg. repeat split; assumption.
Defined.

Lemma retained_iff cols content_type lo hi r :
  retained cols content_type (lo, hi) r = true <->
  In (field cols "type" r) content_type /\
  exists y, field cols "year_added" r = Int y /\ (lo <= y <= hi)%Z.
Proof.
  unfold retained, year_within. cbn [fst snd].
  rewrite andb_true_iff, isin1_In. split.
  - intros [Ht Hy]. split; [exact Ht|].
    destruct (field cols "year_added" r); try discriminate.
    exists z. split; [reflexivity|].
    apply andb_true_iff in Hy. destruct Hy as [H1 H2].
    apply Z.leb_le in H1, H2. lia.
  - intros [Ht (y & -> & H1 & H2)]. split; [exact Ht|].
    apply andb_true_iff. split; apply Z.leb_le; assumption.
Qed.

Lemma filter_none {A} (p : A -> bool) l :
  (forall x, In x l -> p x = false) -> filter p l = [].
Proof.
  induction l as [|x t IH]; intros H; simpl; [reflexivity|].
  rewrite (H x (or_introl eq_refl)). apply IH.
  intros y Hy. apply H. right. exact Hy.
Qed.

Lemma filter_all {A} (p : A -> bool) l :
  (forall x, In x l -> p x = true) -> filter p l = l.
Proof.
  induction l as [|x t IH]; intros H; simpl; [reflexivity|].
  rewrite (H x (or_introl eq_refl)). f_equal. apply IH.
  intros y Hy. apply H. right. exact Hy.
Qed.

Lemma length_flat_map_sum {A B} (f : A -> list B) l :
  length (flat_map f l) = list_sum (map (fun x => length (f x)) l).
Proof.
  induction l as [|x t IH]; simpl; [reflexivity|].
  rewrite length_app, IH. reflexivity.
Qed.

(** The filter never raises on a filterable frame. *)
Lemma filtered_df_total df content_type year_range country_selected :
  filterable df = true ->
  exists out,
    filtered_df df content_type year_range country_selected = Ok out /\
    columns out = match country_selected with
                  | [] => columns df
                  | _ :: _ => add_column "country_exploded" (columns df)
                  end /\
    rows out =
      match country_selected with
      | [] => filter (retained (columns df) content_type year_range) (rows df)
      | _ :: _ =>
          flat_map (matching_rows (columns df) country_selected)
            (filter (retained (columns df) content_type year_range) (rows df))
      end.
Proof.
  intros F. destruct country_selected as [|v vs].
  - eexists. split; [apply (filtered_df_no_country df _ _ F)|].
    split; reflexivity.
  - eexists. split; [apply (filtered_df_country df _ _ (v :: vs) F); discriminate|].
    split; reflexivity.
Qed.

(** C6. The first step keeps a row exactly when its [type] is one of the
    chosen content types and its [year_added] lies between the two bounds,
    both included; with no content type chosen nothing is kept, whatever
    the countries, and the total is 0. *)
Theorem type_year_step df content_type lo hi :
  filterable df = true ->
  exists step,
    filtered_by_type_year df content_type (lo, hi) = Ok step /\
    columns step = columns df /\
    rows step = filter (retained (columns df) content_type (lo, hi)) (rows df) /\
    (forall r,
       In r (rows step) <->
       In r (rows df) /\
       In (field (columns df) "type" r) content_type /\
       exists y, field (columns df) "year_added" r = Int y /\ (lo <= y <= hi)%Z) /\
    (content_type = [] ->
     rows step = [] /\
     forall country_selected,
     exists out,
       filtered_df df content_type (lo, hi) country_selected = Ok out /\
       rows out = [] /\ total_titles out = 0).
Proof.
  intros F. eexists.
  split; [apply (filtered_by_type_year_rows df _ _ F)|]. cbn [columns rows].
  split; [reflexivity|]. split; [reflexivity|]. split.
  - intros r. rewrite filter_In, retained_iff. tauto.
  - intros ->.
    assert (E : filter (retained (columns df) [] (lo, hi)) (rows df) = []).
    { apply filter_none. intros r _. reflexivity. }
    split; [exact E|]. intros cs.
    destruct (filtered_df_total df [] (lo, hi) cs F) as (out & Hout & _ & Hrows).
    exists out. split; [exact Hout|].
    assert (Hnil : rows out = []).
    { rewrite Hrows, E. destruct cs; reflexivity. }
    split; [exact Hnil|]. unfold total_titles. rewrite Hnil. reflexivity.
Qed.

Lemma type_year_step_witness :
  filterable sample = true /\
  exists step,
    filtered_by_type_year sample [Str "Movie"] (2018, 2020)%Z = Ok step /\
    rows step = filter (retained (columns sample) [Str "Movie"] (2018, 2020)%Z)
                       (rows sample).
Proof.
  split; [reflexivity|].
  destruct (type_year_step sample [Str "Movie"] 2018%Z 2020%Z eq_refl)
    as (step & H1 & _ & H2 & _).
  exists step. split; [exact H1 | exact H2].
Defined.

(** C1. With at least one country chosen, the output holds, for each row
    the first step kept and in that order, one row per element of the
    split [country] field that is among the chosen countries; every such
    row is the source row with the matched token written under
    [country_exploded], the label and all other fields unchanged.  A row
    with k matching tokens therefore appears k times. *)
Theorem country_filter_pairs df content_type year_range v vs :
  filterable df = true ->
  exists step out,
    filtered_by_type_year df content_type year_range = Ok step /\
    filtered_df df content_type year_range (v :: vs) = Ok out /\
    rows out =
      flat_map
        (fun r =>
           map (fun t => set_cell (target "country_exploded" (columns df)) t r)
               (filter (isin1 (v :: vs)) (country_cells (columns df) r)))
        (rows step) /\
    (forall r s, field (columns df) "country" r = Str s ->
                 country_cells (columns df) r = map Str (split ", " s)) /\
    (forall r t,
       let r' := set_cell (target "country_exploded" (columns df)) t r in
       label r' = label r /\
       field (columns out) "country_exploded" r' = t /\
       forall c, c <> "country_exploded" ->
                 field (columns out) c r' = field (columns df) c r) /\
    length (rows out) =
      list_sum
        (map (fun r => length (filter (isin1 (v :: vs))
                                      (country_cells (columns df) r)))
             (rows step)).
Proof.
  intros F. eexists. eexists.
  split; [apply (filtered_by_type_year_rows df _ _ F)|].
  split; [apply (filtered_df_country df _ _ (v :: vs) F); discriminate|].
  cbn [rows columns]. split; [reflexivity|]. split.
  - intros r s. apply country_cells_string.
  - split.
    + intros r t. cbv zeta. split; [reflexivity|]. split.
      * apply field_set_same.
      * intros c Hc. apply field_set_other. exact Hc.
    + rewrite length_flat_map_sum. apply f_equal. apply map_ext.
      intros r. unfold matching_rows. apply length_map.
Qed.

Lemma country_filter_pairs_witness :
  filterable sample = true /\
  exists out,
    filtered_df sample [Str "Movie"] (2018, 2020)%Z [Str "Canada"] = Ok out /\
    length (rows out) = 2.
Proof.
  split; [reflexivity|].
  destruct (country_filter_pairs sample [Str "Movie"] (2018, 2020)%Z
              (Str "Canada") [] eq_refl)
    as (step & out & Hs & Ho & _ & _ & _ & Hlen).
  exists out. split; [exact Ho|].
  rewrite Hlen. injection Hs as <-. reflexivity.
Defined.

(** C2 fails as stated: a content type the dataset does not have and
    inverted year bounds give an empty frame, not an exception. *)
Lemma invalid_selection_not_rejected :
  ~ In (Str "Documentary") (map (field (columns sample) "type") (rows sample)) /\
  (2020 > 2018)%Z /\
  filtered_df sample [Str "Documentary"] (2018, 2020)%Z [] =
    Ok (mkFrame (columns sample) []) /\
  filtered_df sample [Str "Movie"] (2020, 2018)%Z [] =
    Ok (mkFrame (columns sample) []).
Proof.
  split.
  - simpl. intros [H|[H|[H|[]]]]; discriminate.
  - split; [reflexivity|]. split; reflexivity.
Qed.

(** C2, amended. On a frame with the three columns and numeric years the
    filter raises for no selection: inverted bounds give a frame without
    rows, and content types that occur in no row can be dropped from the
    selection without changing the result. *)
Theorem selection_never_rejected df content_type lo hi country_selected :
  filterable df = true ->
  exists out,
    filtered_df df content_type (lo, hi) country_selected = Ok out /\
    ((lo > hi)%Z -> rows out = []) /\
    filtered_df df
      (filter (isin1 (map (field (columns df) "type") (rows df))) content_type)
      (lo, hi) country_selected = Ok out.
Proof.
  intros F.
  destruct (filtered_df_total df content_type (lo, hi) country_selected F)
    as (out & Hout & Hcols & Hrows).
  exists out. split; [exact Hout|]. split.
  - intros Hinv.
    assert (E : filter (retained (columns df) content_type (lo, hi)) (rows df) = []).
    { apply filter_none. intros r _.
      destruct (retained (columns df) content_type (lo, hi) r) eqn:R; [|reflexivity].
      apply retained_iff in R. destruct R as (_ & y & _ & Hy). lia. }
    rewrite Hrows, E. destruct country_selected; reflexivity.
  - set (known := filter (isin1 (map (field (columns df) "type") (rows df)))
                         content_type).
    destruct (filtered_df_total df known (lo, hi) country_selected F)
      as (out' & Hout' & Hcols' & Hrows').
    rewrite Hout'. f_equal.
    assert (E : filter (retained (columns df) known (lo, hi)) (rows df) =
                filter (retained (columns df) content_type (lo, hi)) (rows df)).
    { apply filter_ext_in. intros r Hr. unfold retained. f_equal.
      apply eq_true_iff_eq. rewrite !isin1_In. unfold known.
      rewrite filter_In, isin1_In. split; [tauto|].
      intros H. split; [exact H|]. apply in_map. exact Hr. }
    destruct out as [c1 r1], out' as [c2 r2]. cbn [columns rows] in *.
    rewrite Hcols, Hcols', Hrows, Hrows', E. reflexivity.
Qed.

Lemma selection_never_rejected_witness :
  filterable sample = true /\
  exists out,
    filtered_df sample [Str "Documentary"; Str "Movie"] (2018, 2020)%Z [] = Ok out /\
    filtered_df sample [Str "Movie"] (2018, 2020)%Z [] = Ok out.
Proof.
  split; [reflexivity|].
  destruct (selection_never_rejected sample [Str "Documentary"; Str "Movie"]
              2018%Z 2020%Z [] eq_refl) as (out & H1 & _ & H2).
  exists out. split; [exact H1 | exact H2].
Defined.

(** C3 fails as stated: with a country chosen the output has one column
    more than its input. *)
Lemma country_filter_adds_column :
  exists out,
    filtered_df sample [Str "Movie"] (2018, 2020)%Z [Str "Canada"] = Ok out /\
    columns out = columns sample ++ ["country_exploded"] /\
    columns out <> columns sample.
Proof.
  eexists. split; [reflexivity|]. split; [reflexivity|]. discriminate.
Qed.

(** C3, amended. The output keeps every column of its input, in the same
    order.  With no country chosen the header is unchanged; with a
    country chosen the header also has [country_exploded], placed last
    unless the input already had a column of that name. *)
Theorem filtered_df_columns df content_type year_range country_selected :
  filterable df = true ->
  exists out,
    filtered_df df content_type year_range country_selected = Ok out /\
    (country_selected = [] -> columns out = columns df) /\
    (country_selected <> [] ->
     columns out = add_column "country_exploded" (columns df)) /\
    (country_selected <> [] -> ~ In "country_exploded" (columns df) ->
     columns out = columns df ++ ["country_exploded"]) /\
    (forall c i, col_index c (columns df) = Some i ->
                 col_index c (columns out) = Some i).
Proof.
  intros F.
  destruct (filtered_df_total df content_type year_range country_selected F)
    as (out & Hout & Hcols & _).
  exists out. split; [exact Hout|].
  destruct country_selected as [|v vs].
  - split; [intros _; exact Hcols|]. split; [congruence|]. split; [congruence|].
    intros c i H. rewrite Hcols. exact H.
  - split; [discriminate|]. split; [intros _; exact Hcols|]. split.
    + intros _ Hn. rewrite Hcols. unfold add_column.
      destruct (col_index "country_exploded" (columns df)) eqn:E; [|reflexivity].
      exfalso. apply Hn. eapply col_index_Some_In. exact E.
    + intros c i H. rewrite Hcols. unfold add_column.
      destruct (col_index "country_exploded" (columns df)); [exact H|].
      apply col_index_app_old. exact H.
Qed.

Lemma filtered_df_columns_witness :
  filterable sample = true /\
  exists out,
    filtered_df sample [Str "Movie"] (2018, 2020)%Z [] = Ok out /\
    columns out = columns sample.
Proof.
  split; [reflexivity|].
  destruct (filtered_df_columns sample [Str "Movie"] (2018, 2020)%Z [] eq_refl)
    as (out & H1 & H2 & _).
  exists out. split; [exact H1 | exact (H2 eq_refl)].
Defined.

(** C10 fails as stated: a loaded row without a [type] is not among the
    offered content types, so the broadest selection drops it. *)
Lemma broadest_selection_drops_untyped :
  load_data parse_known untyped_raw = Ok untyped /\
  content_type_options untyped = Ok [Str "Movie"] /\
  min_year untyped = Ok 2020%Z /\
  max_year untyped = Ok 2020%Z /\
  filtered_df untyped [Str "Movie"] (2020, 2020)%Z [] =
    Ok (mkFrame (columns untyped)
          [ mkRow 0 [Str "Movie"; Str "Canada"; Date (mkTimestamp 2020 7 4);
                     Str "PG"; Str "Drama"; Int 2020] ]) /\
  filtered_df untyped [Str "Movie"] (2020, 2020)%Z [] <> Ok untyped.
Proof.
  repeat split. discriminate.
Qed.

(** C10, amended. On a loaded dataset, the selection made of all offered
    content types, the observed minimum and maximum year and no country
    returns the rows whose [type] is not null, unchanged and in order; it
    returns the whole dataset when no row has a null [type]. *)
Theorem broadest_selection (parse_datetime : list cell -> cell -> option Timestamp)
    raw df content_type lo hi :
  load_data parse_datetime raw = Ok df ->
  content_type_options df = Ok content_type ->
  min_year df = Ok lo ->
  max_year df = Ok hi ->
  filtered_df df content_type (lo, hi) [] =
    Ok (mkFrame (columns df)
          (filter (fun r => notnull (field (columns df) "type" r)) (rows df))) /\
  ((forall r, In r (rows df) -> field (columns df) "type" r <> NaN) ->
   filtered_df df content_type (lo, hi) [] = Ok df).
Proof.
  intros Hload Hct Hlo Hhi.
  assert (Ht : has_column "type" df = true).
  { destruct (has_column "type" df) eqn:E; [reflexivity|].
    unfold content_type_options in Hct.
    rewrite (getitem_missing _ _ E) in Hct. discriminate. }
  pose proof (load_data_filterable parse_datetime raw df Hload Ht) as F.
  assert (E : filter (retained (columns df) content_type (lo, hi)) (rows df) =
              filter (fun r => notnull (field (columns df) "type" r)) (rows df)).
  { apply filter_ext_in. intros r Hr.
    destruct (load_data_year parse_datetime raw df r Hload Hr) as (d & _ & Ey).
    apply eq_true_iff_eq. rewrite retained_iff.
    rewrite (content_type_options_In df content_type _ Hct). split.
    - intros [[Hn _] _]. destruct (field (columns df) "type" r); auto.
    - intros Hn. split.
      + split; [intros Hv; rewrite Hv in Hn; discriminate|].
        exists r. split; [exact Hr|reflexivity].
      + exists (year d). split; [exact Ey|]. split.
        * apply (min_year_le df lo r _ Hlo Hr Ey).
        * apply (max_year_ge df hi r _ Hhi Hr Ey). }
  rewrite (filtered_df_no_country df _ _ F), E. split; [reflexivity|].
  intros Hall. rewrite filter_all.
  - destruct df. reflexivity.
  - intros r Hr. specialize (Hall r Hr).
    destruct (field (columns df) "type" r); auto.
Qed.

Lemma broadest_selection_witness :
  load_data parse_known sample_raw = Ok sample /\
  filtered_df sample [Str "Movie"; Str "TV Show"] (2018, 2020)%Z [] = Ok sample.
Proof.
  split; [reflexivity|].
  refine (proj2 (broadest_selection parse_known sample_raw sample
                   [Str "Movie"; Str "TV Show"] 2018%Z 2020%Z
                   eq_refl eq_refl eq_refl eq_refl) _).
  intros r Hr. simpl in Hr.
  destruct Hr as [<-|[<-|[<-|[]]]]; discriminate.
Defined.

(** C9. Run on objects, the filter leaves the dataset object as it was
    and returns a fresh object, so a second run with the same arguments,
    started where the first one ended, returns an equal frame; that frame
    is the value [filtered_df] computes from the dataset and the selection
    alone.  When a run raises, it raises what [filtered_df] raises. *)
Theorem apply_filters_repeatable h df f content_type year_range country_selected :
  Objects.deref df h = Some f ->
  match Objects.apply_filters df content_type year_range country_selected h with
  | Ok (p1, h1) =>
      exists out p2 h2,
        filtered_df f content_type year_range country_selected = Ok out /\
        Objects.deref p1 h1 = Some out /\
        Objects.apply_filters df content_type year_range country_selected h1
          = Ok (p2, h2) /\
        Objects.deref p2 h2 = Some out /\
        Objects.deref p1 h2 = Some out /\
        Objects.deref df h2 = Some f
  | Err e => filtered_df f content_type year_range country_selected = Err e
  end.
Proof.
  intros Hdf.
  pose proof (ObjectFacts.apply_filters_agrees df f content_type year_range
                country_selected h Hdf) as A.
  unfold Objects.wp, Objects.agrees in A.
  destruct (Objects.apply_filters df content_type year_range country_selected h)
    as [[p1 h1]|e];
    destruct (filtered_df f content_type year_range country_selected)
      as [out|e'] eqn:Ef; try contradiction.
  - destruct A as [Hp1 E1].
    pose proof (ObjectFacts.apply_filters_agrees df f content_type year_range
                  country_selected h1 (E1 _ _ Hdf)) as B.
    unfold Objects.wp, Objects.agrees in B. rewrite Ef in B.
    destruct (Objects.apply_filters df content_type year_range country_selected h1)
      as [[p2 h2]|e]; [|contradiction].
    destruct B as [Hp2 E2].
    exists out, p2, h2. repeat split; auto.
  - congruence.
Qed.

Lemma apply_filters_repeatable_witness :
  Objects.deref 0 [sample] = Some sample /\
  exists p1 h1 p2 h2 out,
    Objects.apply_filters 0 [Str "Movie"] (2018, 2020)%Z [Str "Canada"] [sample]
      = Ok (p1, h1) /\
    Objects.apply_filters 0 [Str "Movie"] (2018, 2020)%Z [Str "Canada"] h1
      = Ok (p2, h2) /\
    Objects.deref p1 h2 = Some out /\ Objects.deref p2 h2 = Some out.
Proof.
  split; [reflexivity|].
  pose proof (apply_filters_repeatable [sample] 0 sample [Str "Movie"]
                (2018, 2020)%Z [Str "Canada"] eq_refl) as H.
  destruct (Objects.apply_filters 0 [Str "Movie"] (2018, 2020)%Z [Str "Canada"]
              [sample]) as [[p1 h1]|e] eqn:E.
  - destruct H as (out & p2 & h2 & _ & _ & H2 & Hp2 & Hp1 & _).
    exists p1, h1, p2, h2, out. repeat split; assumption.
  - discriminate.
Defined.


(* ================================================================== *)
(** ** Further properties: the loader *)
(* ================================================================== *)

Section LoaderOutcome.

Variable parse_datetime : list cell -> cell -> option Timestamp.




End LoaderOutcome.



(** X2. The loader only adds the column [year_added] (last, unless the
    file already had one) and rewrites [date_added], [country],
    [listed_in] and [rating]: every other column of a kept row, and its
    label, are as in the file; no row is added, and when every date parses
    the rows are the file's rows, in order. *)
Theorem load_data_frame (parse_datetime : list cell -> cell -> option Timestamp)
    raw df :
  load_data parse_datetime raw = Ok df ->
  columns df = add_column "year_added" (columns raw) /\
  (~ In "year_added" (columns raw) -> columns df = columns raw ++ ["year_added"]) /\
  (forall c i, col_index c (columns raw) = Some i ->
               col_index c (columns df) = Some i) /\
  length (rows df) <= length (rows raw) /\
  ((forall r0, In r0 (rows raw) ->
      parses (date_parser parse_datetime raw) (columns raw) r0 = true) ->
   map label (rows df) = map label (rows raw)) /\
  Forall2
    (fun r0 r =>
       label r = label r0 /\
       forall c, c <> "date_added" -> c <> "year_added" -> c <> "country" ->
                 c <> "listed_in" -> c <> "rating" ->
                 field (columns df) c r = field (columns raw) c r0)
    (filter (parses (date_parser parse_datetime raw) (columns raw)) (rows raw))
    (rows df).
Proof.
  intros H. destruct (load_data_columns parse_datetime raw df H) as (Hd & Hc & Hl & Hr).
  rewrite (load_data_rows parse_datetime raw Hd Hc Hl Hr) in H.
  injection H as <-. cbn [columns rows]. unfold loaded_columns.
  split; [reflexivity|]. split; [|split; [|split; [|split]]].
  - intros Hn. unfold add_column.
    destruct (col_index "year_added" (columns raw)) eqn:E; [|reflexivity].
    exfalso. apply Hn. eapply col_index_Some_In. exact E.
  - intros c i Hi. unfold add_column.
    destruct (col_index "year_added" (columns raw)); [exact Hi|].
    apply col_index_app_old. exact Hi.
  - rewrite length_map. apply filter_length_le.
  - intros Hall. rewrite filter_all by exact Hall.
    rewrite map_map. apply map_ext. intros r.
    destruct (clean_fields (date_parser parse_datetime raw) (columns raw) r)
      as (Lb & _). exact Lb.
  - apply Forall2_map_right. intros r0 _.
    destruct (clean_fields (date_parser parse_datetime raw) (columns raw) r0)
      as (Lb & _ & _ & _ & _ & _ & Fo).
    rewrite (fst_clean (date_parser parse_datetime raw) (columns raw) r0) in Fo
      by (apply has_column_In; assumption).
    split; [exact Lb | exact Fo].
Qed.

Lemma load_data_frame_witness :
  load_data parse_known sample_raw = Ok sample /\
  columns sample = columns sample_raw ++ ["year_added"].
Proof.
  split; [reflexivity|].
  destruct (load_data_frame parse_known sample_raw sample eq_refl) as (_ & H & _).
  apply H. simpl. intros [E|[E|[E|[E|[E|[]]]]]]; discriminate E.
Defined.

(* ================================================================== *)
(** ** Further properties: the widgets' options *)
(* ================================================================== *)

Lemma string_ltb_trans x y z :
  String.ltb x y = true -> String.ltb y z = true -> String.ltb x z = true.
Proof.
  unfold String.ltb. intros Hxy Hyz.
  destruct (String.compare x y) eqn:Exy; try discriminate.
  destruct (String.compare y z) eqn:Eyz; try discriminate.
  apply OrderedTypeEx.String_as_OT.cmp_lt in Exy, Eyz.
  pose proof (OrderedTypeEx.String_as_OT.lt_trans _ _ _ Exy Eyz) as Hxz.
  apply OrderedTypeEx.String_as_OT.cmp_lt in Hxz.
  unfold OrderedTypeEx.String_as_OT.cmp in Hxz. rewrite Hxz. reflexivity.
Qed.

Lemma string_ltb_flip x y :
  String.ltb x y = false -> x <> y -> String.ltb y x = true.
Proof.
  unfold String.ltb. intros H Hne. rewrite (String.compare_antisym y x).
  destruct (String.compare x y) eqn:E; try discriminate.
  - apply String.compare_eq_iff in E. contradiction.
  - reflexivity.
Qed.

Lemma string_ltb_irrefl x : String.ltb x x = false.
Proof.
  unfold String.ltb.
  assert (E : String.compare x x = Eq)
    by (apply OrderedTypeEx.String_as_OT.cmp_eq; reflexivity).
  rewrite E. reflexivity.
Qed.

Lemma Timestamp_ltb_lt a b :
  Timestamp_ltb a b = true <->
  (year a < year b \/
   (year a = year b /\ (month a < month b \/ (month a = month b /\ day a < day b))))%Z.
Proof.
  unfold Timestamp_ltb.
  rewrite !orb_true_iff, !andb_true_iff, !orb_true_iff, !andb_true_iff,
    !Z.ltb_lt, !Z.eqb_eq.
  tauto.
Qed.

Lemma cell_lt_trans a b c : cell_lt a b -> cell_lt b c -> cell_lt a c.
Proof.
  unfold cell_lt.
  destruct a, b; simpl; try discriminate; destruct c; simpl; try discriminate;
    intros H1 H2; injection H1 as H1; injection H2 as H2; f_equal.
  - eapply string_ltb_trans; eassumption.
  - apply Z.ltb_lt in H1, H2. apply Z.ltb_lt. lia.
  - apply Timestamp_ltb_lt in H1, H2. apply Timestamp_ltb_lt. lia.
Qed.

Lemma cell_lt_irrefl a : ~ cell_lt a a.
Proof.
  unfold cell_lt. destruct a; simpl; try discriminate; intros H; injection H as H.
  - rewrite string_ltb_irrefl in H. discriminate.
  - apply Z.ltb_lt in H. lia.
  - apply Timestamp_ltb_lt in H. lia.
Qed.

Lemma cell_ltb_flip a b : cell_ltb a b = Ok false -> a <> b -> cell_lt b a.
Proof.
  unfold cell_lt.
  destruct a, b; simpl; try discriminate; intros H Hne; injection H as H; f_equal.
  - apply string_ltb_flip; [exact H|congruence].
  - apply Z.ltb_ge in H. apply Z.ltb_lt.
    assert (z <> z0) by congruence. lia.
  - apply Timestamp_ltb_lt.
    assert (Hn : ~ (year d < year d0 \/
                    (year d = year d0 /\
                     (month d < month d0 \/ (month d = month d0 /\ day d < day d0))))%Z).
    { intros Hlt. apply Timestamp_ltb_lt in Hlt. congruence. }
    destruct d as [y m dd], d0 as [y0 m0 dd0]. simpl in *.
    assert (~ (y = y0 /\ m = m0 /\ dd = dd0)) by (intros (-> & -> & ->); congruence).
    lia.
Qed.

Lemma insert_sorted_sorted x l l' :
  StronglySorted cell_lt l -> ~ In x l -> insert_sorted x l = Ok l' ->
  StronglySorted cell_lt l'.
Proof.
  intros S. revert l'. induction S as [|y t S IH F]; intros l' Hn H; simpl in H.
  - injection H as <-. constructor; constructor.
  - destruct (cell_ltb x y) as [[|]|] eqn:E; simpl in H; try discriminate.
    + injection H as <-. constructor; [constructor; assumption|].
      constructor; [exact E|].
      rewrite Forall_forall in *. intros z Hz.
      apply (cell_lt_trans x y z E (F z Hz)).
    + destruct (insert_sorted x t) as [t'|] eqn:Et; simpl in H; [|discriminate].
      injection H as <-.
      constructor.
      * apply IH; [|reflexivity]. intros Hin. apply Hn. right. exact Hin.
      * rewrite Forall_forall in *. intros z Hz.
        apply (insert_sorted_In x t t' Et z) in Hz. destruct Hz as [->|Hz].
        -- apply cell_ltb_flip; [exact E|]. intros ->. apply Hn. left. reflexivity.
        -- apply F. exact Hz.
Qed.

Lemma sorted_sorted l l' :
  NoDup l -> sorted l = Ok l' -> StronglySorted cell_lt l'.
Proof.
  intros N. revert l'. induction N as [|x t Hx N IH]; intros l' H; simpl in H.
  - injection H as <-. constructor.
  - destruct (sorted t) as [t'|] eqn:Et; simpl in H; [|discriminate].
    apply (insert_sorted_sorted x t' l'); [apply IH; reflexivity| |exact H].
    intros Hin. apply Hx. apply (sorted_In t t' Et x). exact Hin.
Qed.

Lemma StronglySorted_NoDup {A} (R : A -> A -> Prop) l :
  (forall a, ~ R a a) -> StronglySorted R l -> NoDup l.
Proof.
  intros Hirr S. induction S as [|a l S IH F]; constructor; [|exact IH].
  intros Hin. rewrite Forall_forall in F. apply (Hirr a). apply F. exact Hin.
Qed.

Lemma insert_sorted_text x l :
  is_text x = true -> x <> NaN ->
  (forall y, In y l -> is_text y = true /\ y <> NaN) ->
  exists l', insert_sorted x l = Ok l'.
Proof.
  intros Hx Hn. induction l as [|y t IH]; intros Hl; simpl.
  - eexists. reflexivity.
  - destruct (Hl y (or_introl eq_refl)) as [Hy Hyn].
    destruct x; try discriminate; try congruence.
    destruct y; try discriminate; try congruence.
    simpl. destruct (String.ltb s s0); [eexists; reflexivity|].
    destruct IH as [t' Ht'].
    { intros z Hz. apply Hl. right. exact Hz. }
    rewrite Ht'. eexists. reflexivity.
Qed.

Lemma sorted_text l :
  (forall y, In y l -> is_text y = true /\ y <> NaN) ->
  exists l', sorted l = Ok l'.
Proof.
  induction l as [|x t IH]; intros Hl; simpl.
  - eexists. reflexivity.
  - destruct IH as [t' Ht'].
    { intros z Hz. apply Hl. right. exact Hz. }
    rewrite Ht'. simpl.
    destruct (Hl x (or_introl eq_refl)) as [Hx Hxn].
    apply insert_sorted_text; [exact Hx|exact Hxn|].
    intros y Hy. apply Hl. right. apply (sorted_In t t' Ht' y). exact Hy.
Qed.

(** X3. The options of the "Content Type" widget are the distinct
    non-null values of [type], each once, in strictly increasing order. *)
Theorem content_type_options_sorted df ct :
  content_type_options df = Ok ct ->
  StronglySorted cell_lt ct /\
  NoDup ct /\
  (forall v, In v ct <->
             v <> NaN /\ exists r, In r (rows df) /\ field (columns df) "type" r = v).
Proof.
  intros H.
  assert (S : StronglySorted cell_lt ct).
  { unfold content_type_options in H.
    destruct (has_column "type" df) eqn:Hc.
    - rewrite (bind_getitem _ _ _ Hc) in H.
      apply (sorted_sorted _ _ (unique_NoDup _) H).
    - rewrite (getitem_missing _ _ Hc) in H. discriminate. }
  split; [exact S|]. split.
  - apply (StronglySorted_NoDup cell_lt ct cell_lt_irrefl S).
  - intros v. apply content_type_options_In. exact H.
Qed.

Lemma content_type_options_sorted_witness :
  content_type_options sample = Ok [Str "Movie"; Str "TV Show"] /\
  NoDup [Str "Movie"; Str "TV Show"].
Proof.
  split; [reflexivity|].
  apply (content_type_options_sorted sample [Str "Movie"; Str "TV Show"] eq_refl).
Defined.

Lemma insert_sorted_error x l e : insert_sorted x l = Err e -> e = TypeError.
Proof.
  induction l as [|y t IH]; simpl; intros H; [discriminate|].
  destruct (cell_ltb x y) as [[|]|e'] eqn:E; simpl in H; try discriminate.
  - destruct (insert_sorted x t) as [t'|e'']; simpl in H; [discriminate|].
    injection H as <-. apply IH. reflexivity.
  - injection H as <-. destruct x, y; simpl in E; congruence.
Qed.

Lemma sorted_error l e : sorted l = Err e -> e = TypeError.
Proof.
  induction l as [|x t IH]; simpl; intros H; [discriminate|].
  destruct (sorted t) as [t'|e'] eqn:Et; simpl in H.
  - apply (insert_sorted_error x t' e H).
  - injection H as <-. apply IH. reflexivity.
Qed.

Lemma StronglySorted_related {A} (R : A -> A -> Prop) l a b :
  StronglySorted R l -> In a l -> In b l -> a = b \/ R a b \/ R b a.
Proof.
  intros S. induction S as [|x t S IH F]; intros Ha Hb; [contradiction|].
  rewrite Forall_forall in F.
  destruct Ha as [<-|Ha], Hb as [<-|Hb]; auto.
Qed.

(** X4. The options can be built whenever [type] is a text column
    (strings and nulls); a column that holds both a string and a number
    stops the script with [TypeError], and a missing column with
    [KeyError]. *)
Theorem content_type_options_outcome df :
  (has_column "type" df = false ->
   content_type_options df = Err (KeyError "type")) /\
  (has_column "type" df = true ->
   (forall r, In r (rows df) -> is_text (field (columns df) "type" r) = true) ->
   exists ct, content_type_options df = Ok ct) /\
  (has_column "type" df = true ->
   forall r1 r2 s z,
     In r1 (rows df) -> In r2 (rows df) ->
     field (columns df) "type" r1 = Str s ->
     field (columns df) "type" r2 = Int z ->
     content_type_options df = Err TypeError).
Proof.
  split; [|split].
  - unfold content_type_options.
    intros Hc. rewrite (getitem_missing _ _ Hc). reflexivity.
  - unfold content_type_options.
    intros Hc Htext. rewrite (bind_getitem _ _ _ Hc).
    apply sorted_text. intros y Hy.
    apply unique_In, filter_In in Hy. destruct Hy as [Hy Hn].
    apply in_map_iff in Hy. destruct Hy as (r & <- & Hr).
    split; [apply Htext; exact Hr|]. intros E. rewrite E in Hn. discriminate.
  - intros Hc r1 r2 s z H1 H2 E1 E2.
    destruct (content_type_options df) as [ct|e] eqn:Ect.
    + exfalso.
      pose proof (content_type_options_In df ct (Str s) Ect) as I1.
      pose proof (content_type_options_In df ct (Int z) Ect) as I2.
      assert (In1 : In (Str s) ct) by (apply I1; split; [discriminate|eauto]).
      assert (In2 : In (Int z) ct) by (apply I2; split; [discriminate|eauto]).
      unfold content_type_options in Ect.
      rewrite (bind_getitem _ _ _ Hc) in Ect.
      pose proof (sorted_sorted _ _ (unique_NoDup _) Ect) as S.
      destruct (StronglySorted_related cell_lt ct _ _ S In1 In2) as [E|[E|E]];
        discriminate E.
    + f_equal. unfold content_type_options in Ect.
      rewrite (bind_getitem _ _ _ Hc) in Ect.
      apply (sorted_error _ _ Ect).
Qed.

Lemma content_type_options_outcome_witness :
  has_column "type" untyped = true /\
  exists ct, content_type_options untyped = Ok ct.
Proof.
  split; [reflexivity|].
  apply (proj1 (proj2 (content_type_options_outcome untyped)) eq_refl).
  intros r Hr. simpl in Hr. destruct Hr as [<-|[<-|[]]]; reflexivity.
Defined.

Lemma extremum_ints pick (s : list cell) :
  (forall a b : Z, pick a b = a \/ pick a b = b) ->
  (forall c, In c s -> exists z, c = Int z) ->
  s <> [] ->
  exists m, extremum pick s = Ok (Some m) /\ In (Int m) s.
Proof.
  intros Hpick. induction s as [|c t IH]; intros Hs Hne; [congruence|].
  destruct (Hs c (or_introl eq_refl)) as [z ->]. simpl.
  destruct t as [|c' t'].
  - simpl. exists z. split; [reflexivity|left; reflexivity].
  - destruct IH as (w & Ew & Hw).
    { intros x Hx. apply Hs. right. exact Hx. }
    { discriminate. }
    rewrite Ew. simpl. exists (pick z w). split; [reflexivity|].
    destruct (Hpick z w) as [-> | ->]; [left; reflexivity | right; exact Hw].
Qed.

(** X5. On a loaded dataset with at least one row the slider's bounds are
    the smallest and the largest [year_added]: both occur in some row and
    every row's year lies between them.  With no row left after loading,
    line 41 stops the script with [ValueError]. *)
Theorem year_bounds (parse_datetime : list cell -> cell -> option Timestamp) raw df :
  load_data parse_datetime raw = Ok df ->
  (rows df = [] ->
   min_year df = Err ValueError /\ max_year df = Err ValueError) /\
  (rows df <> [] ->
   exists lo hi,
     min_year df = Ok lo /\ max_year df = Ok hi /\ (lo <= hi)%Z /\
     (exists r, In r (rows df) /\ field (columns df) "year_added" r = Int lo) /\
     (exists r, In r (rows df) /\ field (columns df) "year_added" r = Int hi) /\
     (forall r, In r (rows df) ->
        exists y, field (columns df) "year_added" r = Int y /\ (lo <= y <= hi)%Z)).
Proof.
  intros Hload.
  pose proof (load_data_has_year parse_datetime raw df Hload) as Hy.
  unfold min_year, max_year. rewrite !(bind_getitem _ _ _ Hy). split.
  - intros ->. split; reflexivity.
  - intros Hne.
    assert (Hints : forall c, In c (map (field (columns df) "year_added") (rows df)) ->
                              exists z, c = Int z).
    { intros c Hc. apply in_map_iff in Hc. destruct Hc as (r & <- & Hr).
      destruct (load_data_year parse_datetime raw df r Hload Hr) as (d & _ & E).
      eauto. }
    assert (Hne' : map (field (columns df) "year_added") (rows df) <> []).
    { destruct (rows df); [congruence|discriminate]. }
    destruct (extremum_ints Z.min _ ltac:(intros a b; lia) Hints Hne') as (lo & Elo & Ilo).
    destruct (extremum_ints Z.max _ ltac:(intros a b; lia) Hints Hne') as (hi & Ehi & Ihi).
    exists lo, hi. unfold int_min, int_max. rewrite Elo, Ehi.
    split; [reflexivity|]. split; [reflexivity|].
    apply in_map_iff in Ilo, Ihi.
    destruct Ilo as (rlo & Flo & Hlo). destruct Ihi as (rhi & Fhi & Hhi).
    assert (Hall : forall r, In r (rows df) ->
              exists y, field (columns df) "year_added" r = Int y /\ (lo <= y <= hi)%Z).
    { intros r Hr.
      destruct (load_data_year parse_datetime raw df r Hload Hr) as (d & _ & E).
      exists (year d). split; [exact E|]. split.
      - apply (extremum_min _ _ Elo). rewrite <- E. apply in_map. exact Hr.
      - apply (extremum_max _ _ Ehi). rewrite <- E. apply in_map. exact Hr. }
    split.
    { destruct (Hall rlo Hlo) as (y & Ey & Hy'). rewrite Flo in Ey.
      injection Ey as <-. lia. }
    split; [eauto|]. split; [eauto|]. exact Hall.
Qed.

Lemma year_bounds_witness :
  load_data parse_known sample_raw = Ok sample /\
  exists lo hi, min_year sample = Ok lo /\ max_year sample = Ok hi /\ (lo <= hi)%Z.
Proof.
  split; [reflexivity|].
  destruct (proj2 (year_bounds parse_known sample_raw sample eq_refl))
    as (lo & hi & H1 & H2 & H3 & _).
  - discriminate.
  - exists lo, hi. auto.
Defined.

(** X6. On a loaded dataset whose latest year is 2015 or later, with the
    widgets at their defaults (every content type, the slider from
    [max(min_year, 2015)] to [max_year], no country), the filtered frame
    holds exactly the rows with a non-null [type] that were added in 2015
    or later, in the dataset's order. *)
Theorem default_view (parse_datetime : list cell -> cell -> option Timestamp)
    raw df content_type year_range :
  load_data parse_datetime raw = Ok df ->
  content_type_options df = Ok content_type ->
  year_range_default df = Ok year_range ->
  (2015 <= snd year_range)%Z ->
  filtered_df df content_type year_range [] =
    Ok (mkFrame (columns df)
          (filter (fun r => notnull (field (columns df) "type" r) &&
                            since_2015 (field (columns df) "year_added" r))
                  (rows df))).
Proof.
  intros Hload Hct Hyr _.
  assert (Ht : has_column "type" df = true).
  { destruct (has_column "type" df) eqn:E; [reflexivity|].
    unfold content_type_options in Hct.
    rewrite (getitem_missing _ _ E) in Hct. discriminate. }
  pose proof (load_data_filterable parse_datetime raw df Hload Ht) as F.
  unfold year_range_default in Hyr.
  destruct (min_year df) as [lo|] eqn:Elo; simpl in Hyr; [|discriminate].
  destruct (max_year df) as [hi|] eqn:Ehi; simpl in Hyr; [|discriminate].
  injection Hyr as <-.
  rewrite (filtered_df_no_country df _ _ F). f_equal. f_equal.
  apply filter_ext_in. intros r Hr.
  destruct (load_data_year parse_datetime raw df r Hload Hr) as (d & _ & Ey).
  pose proof (min_year_le df lo r _ Elo Hr Ey) as Hlo.
  pose proof (max_year_ge df hi r _ Ehi Hr Ey) as Hhi.
  unfold retained. cbn [fst snd]. rewrite Ey. simpl. f_equal.
  - apply eq_true_iff_eq.
    rewrite isin1_In, (content_type_options_In df content_type _ Hct). split.
    + intros [Hn _]. destruct (field (columns df) "type" r); auto.
    + intros Hn. split; [intros Hv; rewrite Hv in Hn; discriminate|eauto].
  - apply eq_true_iff_eq.
    rewrite andb_true_iff, !Z.leb_le. lia.
Qed.

Lemma default_view_witness :
  load_data parse_known sample_raw = Ok sample /\
  exists out,
    filtered_df sample [Str "Movie"; Str "TV Show"] (2018, 2020)%Z [] = Ok out /\
    length (rows out) = 3.
Proof.
  split; [reflexivity|].
  eexists. split.
  - apply (default_view parse_known sample_raw sample
             [Str "Movie"; Str "TV Show"] (2018, 2020)%Z eq_refl eq_refl eq_refl).
    simpl. lia.
  - reflexivity.
Defined.

(** X7. The country widget's option list has no duplicate, contains
    ["Unknown"] (exactly once), has at most 31 entries, and every other
    entry is a token of some row's [country]. *)
Theorem top_country_list_shape {sorter : SortValues} df :
  has_column "country" df = true ->
  exists options,
    top_country_list df = Ok options /\
    NoDup options /\
    In (Str "Unknown") options /\
    length options <= 31 /\
    (forall k, In k options ->
       k = Str "Unknown" \/ In k (tokens (columns df) "country" (rows df))).
Proof.
  intros H.
  destruct (token_counts_tokens "country" df H) as (vc & Hvc & Evc & Htok).
  assert (R : by_frequency (tokens (columns df) "country" (rows df)) (map fst vc)).
  { rewrite <- Htok, Evc. apply value_counts_by_frequency. }
  destruct R as (N & I & _).
  unfold top_country_list, country_counts. rewrite Hvc, bind_Ok.
  unfold head. rewrite <- firstn_map. cbv zeta.
  set (top := firstn 30 (map fst vc)).
  assert (Ntop : NoDup top) by (apply NoDup_firstn; exact N).
  assert (Ltop : length top <= 30) by apply firstn_le_length.
  assert (Itop : forall k, In k top -> In k (tokens (columns df) "country" (rows df))).
  { intros k Hk. apply I. eapply firstn_In. exact Hk. }
  destruct (isin1 top Unknown) eqn:E.
  - exists top. split; [reflexivity|]. apply isin1_In in E.
    split; [exact Ntop|]. split; [exact E|]. split; [lia|]. auto.
  - exists (top ++ [Unknown]). split; [reflexivity|]. apply isin1_not_In in E.
    split.
    { apply NoDup_app; [exact Ntop | constructor; [simpl; tauto | constructor] |].
      intros a Ha [<-|[]]. contradiction. }
    split; [apply in_or_app; right; left; reflexivity|].
    split; [rewrite length_app; simpl; lia|].
    intros k Hk. apply in_app_or in Hk. destruct Hk as [Hk|[<-|[]]]; auto.
Qed.

Lemma top_country_list_shape_witness :
  has_column "country" sample = true /\
  exists options,
    top_country_list (sorter := stable_sort) sample = Ok options /\ NoDup options.
Proof.
  split; [reflexivity|].
  destruct (top_country_list_shape (sorter := stable_sort) sample eq_refl)
    as (o & H1 & H2 & _).
  exists o. split; assumption.
Defined.

(* ================================================================== *)
(** ** Further properties: the filter *)
(* ================================================================== *)

Lemma between_error lo hi s :
  forallb (fun c => match c with Int _ | NaN => true | _ => false end) s = false ->
  between lo hi s = Err TypeError.
Proof.
  unfold between. induction s as [|c t IH]; simpl; intros H; [discriminate|].
  destruct c; simpl in *; try reflexivity; rewrite (IH H); reflexivity.
Qed.

Lemma between_numeric lo hi s :
  forallb (fun c => match c with Int _ | NaN => true | _ => false end) s = true ->
  between lo hi s = Ok (map (year_within lo hi) s).
Proof.
  intros H. unfold between. apply mapM_pure. intros c Hc.
  apply between1_numeric. rewrite forallb_forall in H. apply H. exact Hc.
Qed.

Lemma forallb_map {A B} (f : A -> B) (p : B -> bool) l :
  forallb p (map f l) = forallb (fun x => p (f x)) l.
Proof.
  induction l as [|x t IH]; simpl; [reflexivity|]. rewrite IH. reflexivity.
Qed.

(** Lines 67-70 need only the two columns they read. *)
Lemma type_year_rows df content_type year_range :
  has_column "type" df = true ->
  has_column "year_added" df = true ->
  forallb (year_is_numeric (columns df)) (rows df) = true ->
  filtered_by_type_year df content_type year_range =
  Ok (mkFrame (columns df)
        (filter (retained (columns df) content_type year_range) (rows df))).
Proof.
  intros Ht Hy Hn. unfold filtered_by_type_year.
  rewrite (bind_getitem "type" df _ Ht). cbv beta.
  rewrite (bind_getitem "year_added" df _ Hy). cbv beta.
  rewrite between_numeric by (rewrite forallb_map; exact Hn).
  rewrite bind_Ok. unfold isin, mask_rows. rewrite !map_map.
  rewrite (mask_and_map
             (fun r => isin1 content_type (field (columns df) "type" r))
             (fun r => year_within (fst year_range) (snd year_range)
                         (field (columns df) "year_added" r))).
  rewrite select_map. reflexivity.
Qed.

(** X8. What the filter raises, and when.  It stops with [KeyError] on
    the first missing column among [type] and [year_added], with
    [TypeError] when some [year_added] is neither a number nor null (even
    if no content type is chosen), and with [KeyError] on a missing
    [country] only when a country is chosen.  With both columns there and
    numeric years it returns a frame when no country is chosen, and when
    one is chosen and [country] is a column of strings. *)
Theorem filtered_df_outcome df content_type year_range country_selected :
  (has_column "type" df = false ->
   filtered_df df content_type year_range country_selected
   = Err (KeyError "type")) /\
  (has_column "type" df = true ->
   has_column "year_added" df = false ->
   filtered_df df content_type year_range country_selected
   = Err (KeyError "year_added")) /\
  (has_column "type" df = true ->
   has_column "year_added" df = true ->
   forallb (year_is_numeric (columns df)) (rows df) = false ->
   filtered_df df content_type year_range country_selected = Err TypeError) /\
  (has_column "type" df = true ->
   has_column "year_added" df = true ->
   forallb (year_is_numeric (columns df)) (rows df) = true ->
   (country_selected <> [] ->
    has_column "country" df = false ->
    filtered_df df content_type year_range country_selected
    = Err (KeyError "country")) /\
   (country_selected = [] \/ string_column "country" df = true ->
    exists out,
      filtered_df df content_type year_range country_selected = Ok out)).
Proof.
  split; [|split; [|split]].
  - intros Ht. unfold filtered_df, filtered_by_type_year.
    rewrite (getitem_missing _ _ Ht). reflexivity.
  - intros Ht Hy. unfold filtered_df, filtered_by_type_year.
    rewrite (bind_getitem _ _ _ Ht). cbv beta.
    rewrite (getitem_missing _ _ Hy). reflexivity.
  - intros Ht Hy Hn. unfold filtered_df, filtered_by_type_year.
    rewrite (bind_getitem _ _ _ Ht). cbv beta.
    rewrite (bind_getitem _ _ _ Hy). cbv beta.
    rewrite between_error by (rewrite forallb_map; exact Hn). reflexivity.
  - intros Ht Hy Hn. unfold filtered_df.
    rewrite (type_year_rows df _ _ Ht Hy Hn), bind_Ok. split.
    + intros Hsel Hc. destruct country_selected as [|v vs]; [congruence|].
      rewrite getitem_missing by exact Hc. reflexivity.
    + intros Hsel. destruct country_selected as [|v vs].
      * eexists. reflexivity.
      * destruct Hsel as [Hsel|Hs]; [discriminate|].
        unfold string_column in Hs.
        apply andb_true_iff in Hs. destruct Hs as [Hs _].
        apply andb_true_iff in Hs. destruct Hs as [Hc _].
        pose proof (country_filter_rows
                      (mkFrame (columns df)
                         (filter (retained (columns df) content_type year_range)
                                 (rows df)))
                      (v :: vs) Hc) as E.
        cbv zeta in E. rewrite E. eexists. reflexivity.
Qed.

Lemma filtered_df_outcome_witness :
  filtered_df (mkFrame ["type"; "year_added"] [mkRow 0 [Str "Movie"; Str "2020"]])
              [] (2018, 2020)%Z []
  = Err TypeError /\
  string_column "country" sample = true /\
  exists out,
    filtered_df sample [Str "Movie"] (2018, 2020)%Z [Str "Canada"] = Ok out.
Proof.
  split; [|split; [reflexivity|]].
  - destruct (filtered_df_outcome
                (mkFrame ["type"; "year_added"] [mkRow 0 [Str "Movie"; Str "2020"]])
                [] (2018, 2020)%Z []) as (_ & _ & H & _).
    apply H; reflexivity.
  - destruct (filtered_df_outcome sample [Str "Movie"] (2018, 2020)%Z [Str "Canada"])
      as (_ & _ & _ & H).
    destruct (H eq_refl eq_refl eq_refl) as [_ Hok].
    apply Hok. right. reflexivity.
Defined.

Lemma filter_twice {A} (p q : A -> bool) l :
  filter p (filter q l) = filter (fun x => q x && p x) l.
Proof.
  induction l as [|x t IH]; simpl; [reflexivity|].
  destruct (q x); simpl; [destruct (p x)|]; rewrite IH; reflexivity.
Qed.

Lemma filterable_filter df (p : row -> bool) :
  filterable df = true ->
  filterable (mkFrame (columns df) (filter p (rows df))) = true.
Proof.
  intros F. destruct (filterable_parts df F) as (Ht & Hy & Hc & Hn).
  unfold filterable.
  change (has_column "type" (mkFrame (columns df) (filter p (rows df))))
    with (has_column "type" df).
  change (has_column "year_added" (mkFrame (columns df) (filter p (rows df))))
    with (has_column "year_added" df).
  change (has_column "country" (mkFrame (columns df) (filter p (rows df))))
    with (has_column "country" df).
  rewrite Ht, Hy, Hc. simpl. apply forallb_forall. intros r Hr.
  apply filter_In in Hr. apply Hn. tauto.
Qed.

Lemma isin1_inter a b c :
  isin1 (filter (isin1 b) a) c = isin1 a c && isin1 b c.
Proof.
  apply eq_true_iff_eq. rewrite andb_true_iff, !isin1_In, filter_In, isin1_In.
  tauto.
Qed.

Lemma year_within_inter lo1 hi1 lo2 hi2 c :
  year_within (Z.max lo1 lo2) (Z.min hi1 hi2) c =
  year_within lo1 hi1 c && year_within lo2 hi2 c.
Proof.
  destruct c; simpl; try reflexivity.
  apply eq_true_iff_eq. rewrite !andb_true_iff, !Z.leb_le. lia.
Qed.

(** X9. Without a country, filtering a filtered frame again narrows it
    as one filter with both selections would: the content types common
    to the two selections and the overlap of the two year ranges.  In
    particular, filtering twice with the same selection changes nothing. *)
Theorem filter_compose df ct1 lo1 hi1 ct2 lo2 hi2 :
  filterable df = true ->
  exists out1 out2,
    filtered_df df ct1 (lo1, hi1) [] = Ok out1 /\
    filtered_df out1 ct2 (lo2, hi2) [] = Ok out2 /\
    filtered_df df (filter (isin1 ct2) ct1) (Z.max lo1 lo2, Z.min hi1 hi2) []
      = Ok out2 /\
    filtered_df out1 ct1 (lo1, hi1) [] = Ok out1.
Proof.
  intros F.
  pose proof (filterable_filter df (retained (columns df) ct1 (lo1, hi1)) F) as F1.
  eexists. eexists.
  split; [apply (filtered_df_no_country df _ _ F)|].
  split; [apply (filtered_df_no_country _ _ _ F1)|].
  cbn [columns rows]. split.
  - rewrite (filtered_df_no_country df _ _ F). f_equal. f_equal.
    rewrite filter_twice. apply filter_ext. intros r.
    unfold retained. cbn [fst snd].
    rewrite isin1_inter, year_within_inter.
    destruct (isin1 ct1 _), (isin1 ct2 _), (year_within lo1 hi1 _),
      (year_within lo2 hi2 _); reflexivity.
  - rewrite (filtered_df_no_country _ _ _ F1). cbn [columns rows].
    f_equal. f_equal. rewrite filter_twice. apply filter_ext. intros r.
    destruct (retained (columns df) ct1 (lo1, hi1) r); reflexivity.
Qed.

Lemma filter_compose_witness :
  filterable sample = true /\
  exists out1 out2,
    filtered_df sample [Str "Movie"; Str "TV Show"] (2018, 2020)%Z [] = Ok out1 /\
    filtered_df out1 [Str "Movie"] (2020, 2021)%Z [] = Ok out2 /\
    filtered_df sample [Str "Movie"] (2020, 2020)%Z [] = Ok out2.
Proof.
  split; [reflexivity|].
  destruct (filter_compose sample [Str "Movie"; Str "TV Show"] 2018%Z 2020%Z
              [Str "Movie"] 2020%Z 2021%Z eq_refl)
    as (out1 & out2 & H1 & H2 & H3 & _).
  exists out1, out2. repeat split; assumption.
Defined.

Lemma tokens_flat_map cols c (f : row -> list row) rs :
  tokens cols c (flat_map f rs) = flat_map (fun r => tokens cols c (f r)) rs.
Proof.
  unfold tokens. induction rs as [|r t IH]; simpl; [reflexivity|].
  rewrite flat_map_app, IH. reflexivity.
Qed.

(** X10. A country selection filters rows, not the [country] field: each
    output row still carries the full country string of its title.  So
    the country tokens of the filtered frame (what the top-countries chart
    counts) are, for every retained title, all of its countries, repeated
    once per selected country it has. *)
Theorem country_tokens_after_filter df content_type year_range v vs :
  filterable df = true ->
  exists out,
    filtered_df df content_type year_range (v :: vs) = Ok out /\
    (forall r t,
       field (columns out) "country"
             (set_cell (target "country_exploded" (columns df)) t r)
       = field (columns df) "country" r) /\
    tokens (columns out) "country" (rows out) =
      flat_map
        (fun r =>
           flat_map (fun _ => tokens_of (field (columns df) "country" r))
                    (filter (isin1 (v :: vs)) (country_cells (columns df) r)))
        (filter (retained (columns df) content_type year_range) (rows df)).
Proof.
  intros F. eexists.
  split; [apply (filtered_df_country df _ _ (v :: vs) F); discriminate|].
  cbn [columns rows].
  assert (Hf : forall r t,
             field (add_column "country_exploded" (columns df)) "country"
                   (set_cell (target "country_exploded" (columns df)) t r)
             = field (columns df) "country" r).
  { intros r t. apply field_set_other. discriminate. }
  split; [exact Hf|].
  rewrite tokens_flat_map. apply flat_map_ext. intros r.
  unfold matching_rows, tokens. rewrite flat_map_map.
  apply flat_map_ext. intros t. rewrite Hf. reflexivity.
Qed.

Lemma country_tokens_after_filter_witness :
  filterable sample = true /\
  exists out,
    filtered_df sample [Str "Movie"] (2018, 2020)%Z [Str "Canada"] = Ok out /\
    tokens (columns out) "country" (rows out)
    = [Str "India"; Str "Canada"; Str "Canada"].
Proof.
  split; [reflexivity|].
  destruct (country_tokens_after_filter sample [Str "Movie"] (2018, 2020)%Z
              (Str "Canada") [] eq_refl) as (out & H1 & _ & H2).
  exists out. split; [exact H1|]. rewrite H2. reflexivity.
Defined.

(* ================================================================== *)
(** ** Further properties: the KPI row *)
(* ================================================================== *)

(** Every row of the filtered frame has the [type] and [year_added] of a
    row the first step retained. *)
Lemma filtered_df_cells df content_type year_range country_selected :
  filterable df = true ->
  exists out,
    filtered_df df content_type year_range country_selected = Ok out /\
    has_column "type" out = true /\ has_column "year_added" out = true /\
    forall r', In r' (rows out) ->
      exists r, In r (rows df) /\
        retained (columns df) content_type year_range r = true /\
        field (columns out) "type" r' = field (columns df) "type" r /\
        field (columns out) "year_added" r' = field (columns df) "year_added" r.
Proof.
  intros F. destruct (filterable_parts df F) as (Ht & Hy & _ & _).
  destruct (filtered_df_total df content_type year_range country_selected F)
    as (out & Hout & Hcols & Hrows).
  exists out. split; [exact Hout|].
  destruct country_selected as [|v vs].
  - rewrite !has_column_In, Hcols, <- !has_column_In.
    split; [exact Ht|]. split; [exact Hy|].
    intros r' Hr'. rewrite Hrows in Hr'. apply filter_In in Hr'.
    exists r'. tauto.
  - rewrite !has_column_In, Hcols.
    split; [apply In_add_column, has_column_In; exact Ht|].
    split; [apply In_add_column, has_column_In; exact Hy|].
    intros r' Hr'. rewrite Hrows in Hr'. apply in_flat_map in Hr'.
    destruct Hr' as (r & Hr & Hm). apply filter_In in Hr.
    unfold matching_rows in Hm. apply in_map_iff in Hm.
    destruct Hm as (t & <- & _).
    exists r. rewrite !field_set_other by discriminate. tauto.
Qed.

Lemma count_true_eq_scalar v (f : row -> cell) rs :
  v <> NaN ->
  count_true (eq_scalar v (map f rs)) =
  length (filter (fun r => cell_eqb (f r) v) rs).
Proof.
  intros Hv. unfold count_true, eq_scalar.
  induction rs as [|r t IH]; simpl; [reflexivity|].
  destruct (cell_eqb (f r) v) eqn:E.
  - apply cell_eqb_eq in E. rewrite E.
    assert (Hn : notnull v = true) by (destruct v; auto; congruence).
    rewrite Hn. simpl. rewrite IH. reflexivity.
  - rewrite andb_false_r. exact IH.
Qed.

Lemma disjoint_counts {A} (p q : A -> bool) l :
  (forall x, In x l -> p x && q x = false) ->
  length (filter p l) + length (filter q l) <= length l /\
  ((forall x, In x l -> p x || q x = true) ->
   length (filter p l) + length (filter q l) = length l).
Proof.
  induction l as [|x t IH]; intros Hd; simpl; [split; [lia|reflexivity]|].
  destruct IH as [IH1 IH2].
  { intros y Hy. apply Hd. right. exact Hy. }
  pose proof (Hd x (or_introl eq_refl)) as Hx.
  split.
  - destruct (p x), (q x); simpl in *; try discriminate; lia.
  - intros Hc. pose proof (Hc x (or_introl eq_refl)) as Hcx.
    assert (E : length (filter p t) + length (filter q t) = length t).
    { apply IH2. intros y Hy. apply Hc. right. exact Hy. }
    destruct (p x), (q x); simpl in *; try discriminate; lia.
Qed.

(** X11. The KPIs "Movies" and "TV Shows" never add up to more than
    "Total Titles", and they add up to it exactly when only those two
    content types are selected, with or without a country selection. *)
Theorem kpi_split df content_type year_range country_selected :
  filterable df = true ->
  exists out m t,
    filtered_df df content_type year_range country_selected = Ok out /\
    movies out = Ok m /\ tv_shows out = Ok t /\
    m + t <= total_titles out /\
    ((forall v, In v content_type -> v = Str "Movie" \/ v = Str "TV Show") ->
     m + t = total_titles out).
Proof.
  intros F.
  destruct (filtered_df_cells df content_type year_range country_selected F)
    as (out & Hout & Ht & _ & Hcells).
  exists out. eexists. eexists. split; [exact Hout|].
  unfold movies, tv_shows. rewrite !(bind_getitem _ _ _ Ht).
  split; [reflexivity|]. split; [reflexivity|].
  rewrite !count_true_eq_scalar by discriminate. unfold total_titles.
  destruct (disjoint_counts
              (fun r => cell_eqb (field (columns out) "type" r) (Str "Movie"))
              (fun r => cell_eqb (field (columns out) "type" r) (Str "TV Show"))
              (rows out)) as [Hle Heq].
  { intros r _.
    destruct (cell_eqb (field (columns out) "type" r) (Str "Movie")) eqn:E;
      [|reflexivity].
    apply cell_eqb_eq in E. rewrite E. reflexivity. }
  split; [exact Hle|]. intros Hct. apply Heq. intros r' Hr'.
  destruct (Hcells r' Hr') as (r & _ & Hret & Etype & _).
  unfold retained in Hret. apply andb_true_iff in Hret.
  destruct Hret as [Hin _]. apply isin1_In in Hin.
  rewrite Etype. destruct (Hct _ Hin) as [-> | ->]; reflexivity.
Qed.

Lemma kpi_split_witness :
  filterable sample = true /\
  exists out m t,
    filtered_df sample [Str "Movie"; Str "TV Show"] (2018, 2020)%Z [Str "Canada"]
      = Ok out /\
    movies out = Ok m /\ tv_shows out = Ok t /\ m + t = total_titles out.
Proof.
  split; [reflexivity|].
  destruct (kpi_split sample [Str "Movie"; Str "TV Show"] (2018, 2020)%Z
              [Str "Canada"] eq_refl) as (out & m & t & H1 & H2 & H3 & _ & H5).
  exists out, m, t. repeat split; try assumption.
  apply H5. intros v [<-|[<-|[]]]; auto.
Defined.

Lemma series_min_ints (s : list cell) :
  (forall c, In c s -> exists z, c = Int z) -> s <> [] ->
  exists m, series_min s = Ok (Int m) /\ In (Int m) s /\
            forall z, In (Int z) s -> (m <= z)%Z.
Proof.
  induction s as [|c t IH]; intros Hs Hne; [congruence|].
  destruct (Hs c (or_introl eq_refl)) as [z ->].
  destruct t as [|c' t'].
  - simpl. exists z. split; [reflexivity|]. split; [left; reflexivity|].
    intros w [E|[]]. injection E as <-. lia.
  - remember (c' :: t') as t0 eqn:Et0.
    destruct IH as (m & Em & Im & Hm).
    { intros x Hx. apply Hs. right. exact Hx. }
    { rewrite Et0. discriminate. }
    simpl. rewrite Em. simpl.
    destruct (Z.ltb_spec z m).
    + exists z. split; [reflexivity|]. split; [left; reflexivity|].
      intros w [E|Hw]; [injection E as <-; lia|].
      specialize (Hm w Hw). lia.
    + exists m. split; [reflexivity|]. split; [right; exact Im|].
      intros w [E|Hw]; [injection E as <-; lia|]. apply Hm. exact Hw.
Qed.

Lemma series_max_ints (s : list cell) :
  (forall c, In c s -> exists z, c = Int z) -> s <> [] ->
  exists m, series_max s = Ok (Int m) /\ In (Int m) s /\
            forall z, In (Int z) s -> (z <= m)%Z.
Proof.
  induction s as [|c t IH]; intros Hs Hne; [congruence|].
  destruct (Hs c (or_introl eq_refl)) as [z ->].
  destruct t as [|c' t'].
  - simpl. exists z. split; [reflexivity|]. split; [left; reflexivity|].
    intros w [E|[]]. injection E as <-. lia.
  - remember (c' :: t') as t0 eqn:Et0.
    destruct IH as (m & Em & Im & Hm).
    { intros x Hx. apply Hs. right. exact Hx. }
    { rewrite Et0. discriminate. }
    simpl. rewrite Em. simpl.
    destruct (Z.ltb_spec m z).
    + exists z. split; [reflexivity|]. split; [left; reflexivity|].
      intros w [E|Hw]; [injection E as <-; lia|].
      specialize (Hm w Hw). lia.
    + exists m. split; [reflexivity|]. split; [right; exact Im|].
      intros w [E|Hw]; [injection E as <-; lia|]. apply Hm. exact Hw.
Qed.

Lemma years_covered_series out :
  has_column "year_added" out = true ->
  years_covered out =
  (lo <- series_min (map (field (columns out) "year_added") (rows out)) ;;
   hi <- series_max (map (field (columns out) "year_added") (rows out)) ;;
   Ok (lo, hi)).
Proof.
  intros Hy. unfold years_covered. rewrite (bind_getitem _ _ _ Hy).
  destruct (series_min _); simpl; [|reflexivity].
  rewrite (bind_getitem _ _ _ Hy). reflexivity.
Qed.

(** X12. KPI "Years Covered": on a filtered frame without rows both
    values are null (the label reads nan-nan); otherwise they are the
    earliest and latest [year_added] among the filtered rows, and lie
    within the selected year range. *)
Theorem years_covered_within df content_type lo hi country_selected :
  filterable df = true ->
  exists out a b,
    filtered_df df content_type (lo, hi) country_selected = Ok out /\
    years_covered out = Ok (a, b) /\
    (rows out = [] -> a = NaN /\ b = NaN) /\
    (rows out <> [] ->
     exists ya yb,
       a = Int ya /\ b = Int yb /\ (lo <= ya <= yb)%Z /\ (yb <= hi)%Z /\
       forall r, In r (rows out) ->
         exists y, field (columns out) "year_added" r = Int y /\ (ya <= y <= yb)%Z).
Proof.
  intros F.
  destruct (filtered_df_cells df content_type (lo, hi) country_selected F)
    as (out & Hout & _ & Hy & Hcells).
  assert (Hyears : forall r', In r' (rows out) ->
            exists y, field (columns out) "year_added" r' = Int y /\ (lo <= y <= hi)%Z).
  { intros r' Hr'. destruct (Hcells r' Hr') as (r & _ & Hret & _ & Ey).
    apply retained_iff in Hret. destruct Hret as (_ & y & E & Hb).
    exists y. rewrite Ey. split; assumption. }
  destruct (rows out) as [|r0 rest] eqn:Erows.
  - exists out, NaN, NaN. split; [exact Hout|].
    rewrite (years_covered_series out Hy), Erows.
    split; [reflexivity|]. split; [auto|congruence].
  - rewrite <- Erows in *.
    set (s := map (field (columns out) "year_added") (rows out)).
    assert (Hs : forall c, In c s -> exists z, c = Int z).
    { intros c Hc. apply in_map_iff in Hc. destruct Hc as (r & <- & Hr).
      destruct (Hyears r Hr) as (y & E & _). eauto. }
    assert (Hne : s <> []) by (unfold s; rewrite Erows; discriminate).
    destruct (series_min_ints s Hs Hne) as (ya & Ea & Ia & Ha).
    destruct (series_max_ints s Hs Hne) as (yb & Eb & Ib & Hb).
    exists out, (Int ya), (Int yb). split; [exact Hout|].
    rewrite (years_covered_series out Hy).
    fold s. rewrite Ea, Eb. split; [reflexivity|].
    split; [intros E; rewrite E in Erows; discriminate|]. intros _.
    exists ya, yb. split; [reflexivity|]. split; [reflexivity|].
    apply in_map_iff in Ia, Ib.
    destruct Ia as (ra & Fa & Hra). destruct Ib as (rb & Fb & Hrb).
    destruct (Hyears ra Hra) as (y1 & E1 & B1). rewrite Fa in E1. injection E1 as <-.
    destruct (Hyears rb Hrb) as (y2 & E2 & B2). rewrite Fb in E2. injection E2 as <-.
    assert (ya <= yb)%Z by (apply Ha; rewrite <- Fb; apply in_map; exact Hrb).
    split; [lia|]. split; [lia|].
    intros r Hr. destruct (Hyears r Hr) as (y & E & _). exists y.
    split; [exact E|]. split.
    + apply Ha. rewrite <- E. apply in_map. exact Hr.
    + apply Hb. rewrite <- E. apply in_map. exact Hr.
Qed.

Lemma years_covered_within_witness :
  filterable sample = true /\
  exists out,
    filtered_df sample [Str "Movie"] (2018, 2020)%Z [] = Ok out /\
    years_covered out = Ok (Int 2018, Int 2020).
Proof.
  split; [reflexivity|].
  destruct (years_covered_within sample [Str "Movie"] 2018%Z 2020%Z [] eq_refl)
    as (out & a & b & H1 & H2 & _).
  exists out. split; [exact H1|]. injection H1 as <-. reflexivity.
Defined.

(* ================================================================== *)
(** ** Further properties: the charts' tables *)
(* ================================================================== *)

Lemma list_sum_perm l l' : Permutation l l' -> list_sum l = list_sum l'.
Proof.
  intros P. induction P; simpl; lia.
Qed.

Lemma sum_bump k tbl :
  list_sum (map snd (bump k tbl)) = S (list_sum (map snd tbl)).
Proof.
  induction tbl as [|[k' n] t IH]; simpl; [reflexivity|].
  destruct (cell_eqb k k'); simpl; [reflexivity|]. rewrite IH. lia.
Qed.

Lemma sum_tally_from s tbl :
  list_sum (map snd (tally_from tbl s)) = list_sum (map snd tbl) + length s.
Proof.
  unfold tally_from. revert tbl. induction s as [|x t IH]; intros tbl; simpl.
  - lia.
  - rewrite IH, sum_bump. lia.
Qed.

(** The counts of [value_counts] add up to the number of non-null values. *)
Lemma value_counts_sum {sorter : SortValues} s :
  list_sum (map snd (value_counts s)) = length (filter notnull s).
Proof.
  rewrite (list_sum_perm _ _ (Permutation_map snd (value_counts_perm s))).
  apply (sum_tally_from (filter notnull s) []).
Qed.

Lemma value_counts_entry {sorter : SortValues} s k n :
  In (k, n) (value_counts s) ->
  k <> NaN /\ In k s /\ 1 <= n /\ n = count (filter notnull s) k.
Proof.
  intros H. pose proof (value_counts_count s k n H) as E.
  destruct (value_counts_index s) as (_ & I).
  assert (Hin : In k (filter notnull s)).
  { apply I. apply (in_map fst) in H. exact H. }
  apply filter_In in Hin as Hin'. destruct Hin' as [Hs Hn].
  split; [intros ->; discriminate|]. split; [exact Hs|]. split; [|exact E].
  rewrite E. unfold count.
  apply (count_occ_In cell_eq_dec) in Hin. lia.
Qed.

(** X13. The donut's table lists each content type present in the
    filtered frame once, with its number of rows; every listed type is
    one of the selected ones, and the counts add up to "Total Titles". *)
Theorem type_counts_total {sorter : SortValues}
    df content_type year_range country_selected :
  filterable df = true ->
  ~ In NaN content_type ->
  exists out tc,
    filtered_df df content_type year_range country_selected = Ok out /\
    type_counts out = Ok tc /\
    NoDup (map fst tc) /\
    (forall k n, In (k, n) tc ->
       In k content_type /\ 1 <= n /\
       n = length (filter (fun r => cell_eqb (field (columns out) "type" r) k)
                          (rows out))) /\
    (forall r, In r (rows out) -> In (field (columns out) "type" r) (map fst tc)) /\
    list_sum (map snd tc) = total_titles out.
Proof.
  intros F Hnan.
  destruct (filtered_df_cells df content_type year_range country_selected F)
    as (out & Hout & Ht & _ & Hcells).
  assert (Htypes : forall r', In r' (rows out) ->
                     In (field (columns out) "type" r') content_type).
  { intros r' Hr'. destruct (Hcells r' Hr') as (r & _ & Hret & E & _).
    rewrite E. unfold retained in Hret. apply andb_true_iff in Hret.
    apply isin1_In. tauto. }
  set (s := map (field (columns out) "type") (rows out)).
  assert (Hall : filter notnull s = s).
  { apply filter_all. intros c Hc. apply in_map_iff in Hc.
    destruct Hc as (r & <- & Hr). specialize (Htypes r Hr).
    destruct (field (columns out) "type" r); auto; contradiction. }
  exists out, (value_counts s). split; [exact Hout|].
  unfold type_counts. rewrite (bind_getitem _ _ _ Ht). fold s.
  split; [reflexivity|].
  destruct (value_counts_index s) as (N & I).
  split; [exact N|]. split; [|split].
  - intros k n Hin. destruct (value_counts_entry s k n Hin) as (Hk & Hks & Hn & E).
    split.
    + apply in_map_iff in Hks. destruct Hks as (r & <- & Hr). apply Htypes, Hr.
    + split; [exact Hn|]. rewrite E. apply count_rows. exact Hk.
  - intros r Hr. apply I. rewrite Hall. apply in_map. exact Hr.
  - rewrite value_counts_sum, Hall. unfold s, total_titles. apply length_map.
Qed.

Lemma type_counts_total_witness :
  filterable sample = true /\
  exists out tc,
    filtered_df sample [Str "Movie"; Str "TV Show"] (2020, 2020)%Z [] = Ok out /\
    type_counts (sorter := stable_sort) out = Ok tc /\
    list_sum (map snd tc) = total_titles out.
Proof.
  split; [reflexivity|].
  destruct (type_counts_total (sorter := stable_sort) sample
              [Str "Movie"; Str "TV Show"] (2020, 2020)%Z [] eq_refl) as (out & tc & H1 & H2 & _ & _ & _ & H3).
  - simpl. intros [E|[E|[]]]; discriminate E.
  - exists out, tc. repeat split; assumption.
Defined.

Lemma insert_index_perm x l l' :
  insert_index x l = Ok l' -> Permutation l' (x :: l).
Proof.
  revert l'. induction l as [|y t IH]; simpl; intros l' H.
  - injection H as <-. apply Permutation_refl.
  - destruct (cell_ltb (fst x) (fst y)) as [[|]|]; simpl in H; try discriminate.
    + injection H as <-. apply Permutation_refl.
    + destruct (insert_index x t) as [t'|] eqn:Et; simpl in H; [|discriminate].
      injection H as <-.
      apply perm_trans with (y :: x :: t); [|apply perm_swap].
      apply perm_skip. apply IH. reflexivity.
Qed.

Lemma sort_index_perm l l' : sort_index l = Ok l' -> Permutation l' l.
Proof.
  revert l'. induction l as [|x t IH]; simpl; intros l' H.
  - injection H as <-. apply perm_nil.
  - destruct (sort_index t) as [t'|] eqn:Et; simpl in H; [|discriminate].
    apply perm_trans with (x :: t'); [apply insert_index_perm; exact H|].
    apply perm_skip. apply IH. reflexivity.
Qed.

Lemma insert_index_sorted x l l' :
  StronglySorted (fun a b => cell_lt (fst a) (fst b)) l ->
  ~ In (fst x) (map fst l) ->
  insert_index x l = Ok l' ->
  StronglySorted (fun a b => cell_lt (fst a) (fst b)) l'.
Proof.
  intros S. revert l'. induction S as [|y t S IH F]; intros l' Hn H; simpl in H.
  - injection H as <-. constructor; constructor.
  - destruct (cell_ltb (fst x) (fst y)) as [[|]|] eqn:E; simpl in H; try discriminate.
    + injection H as <-. constructor; [constructor; assumption|].
      constructor; [exact E|].
      rewrite Forall_forall in *. intros z Hz.
      apply (cell_lt_trans _ _ _ E (F z Hz)).
    + destruct (insert_index x t) as [t'|] eqn:Et; simpl in H; [|discriminate].
      injection H as <-. constructor.
      * apply IH; [|reflexivity]. intros Hin. apply Hn. right. exact Hin.
      * rewrite Forall_forall in *. intros z Hz.
        apply (Permutation_in _ (insert_index_perm x t t' Et)) in Hz.
        destruct Hz as [<-|Hz].
        -- apply cell_ltb_flip; [exact E|]. intros Heq. apply Hn. left.
           symmetry. exact Heq.
        -- apply F. exact Hz.
Qed.

Lemma sort_index_sorted l l' :
  NoDup (map fst l) -> sort_index l = Ok l' ->
  StronglySorted (fun a b => cell_lt (fst a) (fst b)) l'.
Proof.
  revert l'. induction l as [|x t IH]; simpl; intros l' N H.
  - injection H as <-. constructor.
  - inversion N as [|? ? Hx N']; subst.
    destruct (sort_index t) as [t'|] eqn:Et; simpl in H; [|discriminate].
    apply (insert_index_sorted x t' l'); [apply IH; [exact N'|reflexivity]| |exact H].
    intros Hin. apply Hx.
    apply (Permutation_in _ (Permutation_map fst (sort_index_perm t t' Et))).
    exact Hin.
Qed.

Lemma insert_index_ints x l :
  (exists z, fst x = Int z) ->
  (forall y, In y l -> exists z, fst y = Int z) ->
  exists l', insert_index x l = Ok l'.
Proof.
  intros [z Ex]. induction l as [|y t IH]; intros Hl; simpl.
  - eexists. reflexivity.
  - destruct (Hl y (or_introl eq_refl)) as [w Ey]. rewrite Ex, Ey. simpl.
    destruct (z <? w)%Z; [eexists; reflexivity|].
    destruct IH as [t' Ht'].
    { intros u Hu. apply Hl. right. exact Hu. }
    rewrite Ht'. eexists. reflexivity.
Qed.

Lemma sort_index_ints l :
  (forall y, In y l -> exists z, fst y = Int z) ->
  exists l', sort_index l = Ok l'.
Proof.
  induction l as [|x t IH]; intros Hl; simpl.
  - eexists. reflexivity.
  - destruct IH as [t' Ht'].
    { intros u Hu. apply Hl. right. exact Hu. }
    rewrite Ht'. simpl. apply insert_index_ints.
    + apply Hl. left. reflexivity.
    + intros y Hy. apply Hl. right.
      apply (Permutation_in _ (sort_index_perm t t' Ht')). exact Hy.
Qed.

(** X14. The line chart's table has one row per year present in the
    filtered frame, in strictly increasing order of year; each year lies
    in the selected range and comes with its number of rows, and the
    numbers add up to "Total Titles" (so the table is empty exactly when
    the filtered frame is). *)
Theorem growth_by_year {sorter : SortValues}
    df content_type lo hi country_selected :
  filterable df = true ->
  exists out g,
    filtered_df df content_type (lo, hi) country_selected = Ok out /\
    growth out = Ok g /\
    StronglySorted (fun a b => cell_lt (fst a) (fst b)) g /\
    (forall k n, In (k, n) g ->
       exists y, k = Int y /\ (lo <= y <= hi)%Z /\ 1 <= n /\
         n = length (filter (fun r => cell_eqb (field (columns out) "year_added" r) k)
                            (rows out))) /\
    (forall r, In r (rows out) ->
               In (field (columns out) "year_added" r) (map fst g)) /\
    list_sum (map snd g) = total_titles out.
Proof.
  intros F.
  destruct (filtered_df_cells df content_type (lo, hi) country_selected F)
    as (out & Hout & _ & Hy & Hcells).
  assert (Hyears : forall r', In r' (rows out) ->
            exists y, field (columns out) "year_added" r' = Int y /\ (lo <= y <= hi)%Z).
  { intros r' Hr'. destruct (Hcells r' Hr') as (r & _ & Hret & _ & Ey).
    apply retained_iff in Hret. destruct Hret as (_ & y & E & Hb).
    exists y. rewrite Ey. split; assumption. }
  set (s := map (field (columns out) "year_added") (rows out)).
  assert (Hall : filter notnull s = s).
  { apply filter_all. intros c Hc. apply in_map_iff in Hc.
    destruct Hc as (r & <- & Hr). destruct (Hyears r Hr) as (y & -> & _).
    reflexivity. }
  assert (Hkeys : forall e, In e (value_counts s) ->
            exists y, fst e = Int y /\ (lo <= y <= hi)%Z).
  { intros [k n] Hin. destruct (value_counts_entry s k n Hin) as (_ & Hks & _).
    apply in_map_iff in Hks. destruct Hks as (r & <- & Hr). apply Hyears, Hr. }
  destruct (sort_index_ints (value_counts s)) as [g Hg].
  { intros e He. destruct (Hkeys e He) as (y & E & _). eauto. }
  pose proof (sort_index_perm _ _ Hg) as P.
  destruct (value_counts_index s) as (N & I).
  exists out, g. split; [exact Hout|].
  unfold growth. rewrite (bind_getitem _ _ _ Hy). fold s.
  split; [exact Hg|]. split; [apply (sort_index_sorted _ _ N Hg)|].
  split; [|split].
  - intros k n Hin. apply (Permutation_in _ P) in Hin.
    destruct (Hkeys _ Hin) as (y & E & Hb). simpl in E. exists y.
    destruct (value_counts_entry s k n Hin) as (Hk & _ & Hn & En).
    split; [exact E|]. split; [exact Hb|]. split; [exact Hn|].
    rewrite En. apply count_rows. exact Hk.
  - intros r Hr.
    apply (Permutation_in _ (Permutation_map fst (Permutation_sym P))).
    apply I. rewrite Hall. apply in_map. exact Hr.
  - rewrite (list_sum_perm _ _ (Permutation_map snd P)).
    rewrite value_counts_sum, Hall. unfold s, total_titles. apply length_map.
Qed.

Lemma growth_by_year_witness :
  filterable sample = true /\
  exists out g,
    filtered_df sample [Str "Movie"; Str "TV Show"] (2018, 2020)%Z [] = Ok out /\
    growth (sorter := stable_sort) out = Ok g /\
    list_sum (map snd g) = total_titles out.
Proof.
  split; [reflexivity|].
  destruct (growth_by_year (sorter := stable_sort) sample
              [Str "Movie"; Str "TV Show"] 2018%Z 2020%Z [] eq_refl) as (out & g & H1 & H2 & _ & _ & _ & H3).
  exists out, g. repeat split; assumption.
Defined.

Lemma StronglySorted_app {A} (R : A -> A -> Prop) l1 l2 :
  StronglySorted R l1 -> StronglySorted R l2 ->
  (forall x y, In x l1 -> In y l2 -> R x y) ->
  StronglySorted R (l1 ++ l2).
Proof.
  intros S1 S2. induction S1 as [|a l S IH F]; intros H; simpl; [exact S2|].
  constructor.
  - apply IH. intros x y Hx Hy. apply H; [right; exact Hx|exact Hy].
  - apply Forall_app. split; [exact F|].
    apply Forall_forall. intros y Hy. apply H; [left; reflexivity|exact Hy].
Qed.

Lemma StronglySorted_flat_map {A B} (RA : A -> A -> Prop) (R : B -> B -> Prop)
    (f : A -> list B) l :
  StronglySorted RA l ->
  (forall a, In a l -> StronglySorted R (f a)) ->
  (forall a a' x y, RA a a' -> In x (f a) -> In y (f a') -> R x y) ->
  StronglySorted R (flat_map f l).
Proof.
  intros S. induction S as [|a l S IH F]; intros Hin Hcross; simpl.
  - constructor.
  - apply StronglySorted_app.
    + apply Hin. left. reflexivity.
    + apply IH; [|exact Hcross]. intros b Hb. apply Hin. right. exact Hb.
    + intros x y Hx Hy. apply in_flat_map in Hy. destruct Hy as (a' & Ha' & Hy).
      rewrite Forall_forall in F. apply (Hcross a a' x y (F a' Ha') Hx Hy).
Qed.

Lemma sum_flat_map {A} (f : A -> list ((cell * cell) * nat)) l :
  list_sum (map snd (flat_map f l)) =
  list_sum (map (fun x => list_sum (map snd (f x))) l).
Proof.
  induction l as [|x t IH]; simpl; [reflexivity|].
  rewrite map_app, list_sum_app, IH. reflexivity.
Qed.

Lemma indicator_sum (x : cell) ks :
  NoDup ks -> In x ks ->
  list_sum (map (fun k => if cell_eqb x k then 1 else 0) ks) = 1.
Proof.
  intros N. induction N as [|k t Hk N IH]; intros Hin; [contradiction|].
  simpl. destruct (cell_eqb x k) eqn:E.
  - apply cell_eqb_eq in E. subst k.
    assert (Z0 : list_sum (map (fun k => if cell_eqb x k then 1 else 0) t) = 0).
    { clear IH N Hin. induction t as [|y t IH]; simpl; [reflexivity|].
      destruct (cell_eqb x y) eqn:E.
      - apply cell_eqb_eq in E. subst y. exfalso. apply Hk. left. reflexivity.
      - apply IH. intros H. apply Hk. right. exact H. }
    rewrite Z0. reflexivity.
  - apply cell_eqb_neq in E. destruct Hin as [Hin|Hin]; [congruence|].
    rewrite (IH Hin). reflexivity.
Qed.

(** Counting rows key by key counts every row once. *)
Lemma count_partition (f : row -> cell) ks rs :
  NoDup ks -> (forall r, In r rs -> In (f r) ks) ->
  list_sum (map (fun k => length (filter (fun r => cell_eqb (f r) k) rs)) ks)
  = length rs.
Proof.
  intros N. induction rs as [|r t IH]; intros Hcover; simpl.
  - clear N Hcover. induction ks as [|k ks IHk]; simpl; [reflexivity|exact IHk].
  - rewrite <- (IH (fun x Hx => Hcover x (or_intror Hx))).
    change (S ?n) with (1 + n).
    rewrite <- (indicator_sum (f r) ks N (Hcover r (or_introl eq_refl))).
    clear IH Hcover N. induction ks as [|k ks IHk]; simpl; [reflexivity|].
    rewrite IHk. destruct (cell_eqb (f r) k); simpl; lia.
Qed.

Lemma group_entry_sum i j rs a b :
  list_sum (map snd (group_entry i j rs a b)) = pair_count i j a b rs.
Proof.
  unfold group_entry. destruct (pair_count i j a b rs); simpl; lia.
Qed.

Lemma group_entry_In i j rs a b e :
  In e (group_entry i j rs a b) ->
  e = ((a, b), pair_count i j a b rs) /\ 1 <= pair_count i j a b rs.
Proof.
  unfold group_entry. destruct (pair_count i j a b rs) eqn:E; simpl.
  - contradiction.
  - intros [<-|[]]. split; [reflexivity|lia].
Qed.

Lemma pair_count_nested i j a b rs :
  pair_count i j a b rs =
  length (filter (fun r => cell_eqb (cell_at j r) b)
                 (filter (fun r => cell_eqb (cell_at i r) a) rs)).
Proof. unfold pair_count. rewrite filter_twice. reflexivity. Qed.

(** The counts of one first key add up to the rows with that key. *)
Lemma group_block_sum i j rs a k2 :
  NoDup k2 -> (forall r, In r rs -> In (cell_at j r) k2) ->
  list_sum (map snd (flat_map (group_entry i j rs a) k2)) =
  length (filter (fun r => cell_eqb (cell_at i r) a) rs).
Proof.
  intros N Hcover. rewrite sum_flat_map.
  rewrite (map_ext _ (fun b => length (filter (fun r => cell_eqb (cell_at j r) b)
                                  (filter (fun r => cell_eqb (cell_at i r) a) rs)))).
  - apply count_partition; [exact N|].
    intros r Hr. apply filter_In in Hr. apply Hcover. tauto.
  - intros b. rewrite group_entry_sum. apply pair_count_nested.
Qed.

Lemma sorted_ints l :
  (forall y, In y l -> exists z, y = Int z) -> exists l', sorted l = Ok l'.
Proof.
  assert (Hins : forall x l0, (exists z, x = Int z) ->
            (forall y, In y l0 -> exists z, y = Int z) ->
            exists l', insert_sorted x l0 = Ok l').
  { intros x l0 [z ->]. induction l0 as [|y t IH]; intros Hl; simpl.
    - eexists. reflexivity.
    - destruct (Hl y (or_introl eq_refl)) as [w ->]. simpl.
      destruct (z <? w)%Z; [eexists; reflexivity|].
      destruct IH as [t' Ht'].
      { intros u Hu. apply Hl. right. exact Hu. }
      rewrite Ht'. eexists. reflexivity. }
  induction l as [|x t IH]; intros Hl; simpl.
  - eexists. reflexivity.
  - destruct IH as [t' Ht'].
    { intros u Hu. apply Hl. right. exact Hu. }
    rewrite Ht'. simpl. apply Hins.
    + apply Hl. left. reflexivity.
    + intros y Hy. apply Hl. right. apply (sorted_In t t' Ht' y). exact Hy.
Qed.

Lemma pair_lt_irrefl p : ~ pair_lt p p.
Proof.
  intros [H|[_ H]]; apply (cell_lt_irrefl _ H).
Qed.

(** X15. The stacked-area table has one row for every combination of
    year and content type that occurs in the filtered frame and for no
    other (no zero rows), with its number of titles; rows come in order
    of year, then of type; for every year the rows of that year add up
    to the titles of that year, and all rows add up to "Total Titles". *)
Theorem year_type_table df content_type lo hi country_selected :
  filterable df = true ->
  (forall v, In v content_type -> exists s, v = Str s) ->
  exists out yt,
    filtered_df df content_type (lo, hi) country_selected = Ok out /\
    year_type out = Ok yt /\
    (forall a b n, In ((a, b), n) yt ->
       1 <= n /\
       n = length (filter (fun r =>
                     cell_eqb (field (columns out) "year_added" r) a &&
                     cell_eqb (field (columns out) "type" r) b) (rows out))) /\
    (forall r, In r (rows out) ->
       In (field (columns out) "year_added" r, field (columns out) "type" r)
          (map fst yt)) /\
    StronglySorted (fun p q => pair_lt (fst p) (fst q)) yt /\
    NoDup (map fst yt) /\
    (forall a,
       list_sum (map snd (filter (fun e => cell_eqb (fst (fst e)) a) yt)) =
       length (filter (fun r => cell_eqb (field (columns out) "year_added" r) a)
                      (rows out))) /\
    list_sum (map snd yt) = total_titles out.
Proof.
  intros F Hct.
  destruct (filtered_df_cells df content_type (lo, hi) country_selected F)
    as (out & Hout & Ht & Hyc & Hcells).
  exists out.
  assert (Hyears : forall r', In r' (rows out) ->
            exists y, field (columns out) "year_added" r' = Int y).
  { intros r' Hr'. destruct (Hcells r' Hr') as (r & _ & Hret & _ & Ey).
    apply retained_iff in Hret. destruct Hret as (_ & y & E & _).
    exists y. rewrite Ey. exact E. }
  assert (Htypes : forall r', In r' (rows out) ->
            exists s, field (columns out) "type" r' = Str s).
  { intros r' Hr'. destruct (Hcells r' Hr') as (r & _ & Hret & E & _).
    apply retained_iff in Hret. destruct Hret as (Hin & _).
    rewrite E. apply Hct. exact Hin. }
  unfold has_column in Ht, Hyc.
  destruct (col_index "year_added" (columns out)) as [i|] eqn:Ei; [|discriminate].
  destruct (col_index "type" (columns out)) as [j|] eqn:Ej; [|discriminate].
  assert (Fi : forall r, field (columns out) "year_added" r = cell_at i r)
    by (intros r; unfold field; rewrite Ei; reflexivity).
  assert (Fj : forall r, field (columns out) "type" r = cell_at j r)
    by (intros r; unfold field; rewrite Ej; reflexivity).
  set (ys := unique (filter notnull (map (cell_at i) (rows out)))).
  set (ts := unique (filter notnull (map (cell_at j) (rows out)))).
  destruct (sorted_ints ys) as [k1 Hk1].
  { intros y Hy'. apply unique_In, filter_In in Hy'. destruct Hy' as [Hy' _].
    apply in_map_iff in Hy'. destruct Hy' as (r & <- & Hr).
    rewrite <- Fi. apply Hyears, Hr. }
  destruct (sorted_text ts) as [k2 Hk2].
  { intros y Hy'. apply unique_In, filter_In in Hy'. destruct Hy' as [Hy' _].
    apply in_map_iff in Hy'. destruct Hy' as (r & <- & Hr).
    rewrite <- Fj. destruct (Htypes r Hr) as [s ->]. split; [reflexivity|discriminate]. }
  pose proof (sorted_sorted _ _ (unique_NoDup _) Hk1) as S1.
  pose proof (sorted_sorted _ _ (unique_NoDup _) Hk2) as S2.
  pose proof (StronglySorted_NoDup cell_lt k1 cell_lt_irrefl S1) as N1.
  pose proof (StronglySorted_NoDup cell_lt k2 cell_lt_irrefl S2) as N2.
  assert (C1 : forall r, In r (rows out) -> In (cell_at i r) k1).
  { intros r Hr. apply (sorted_In _ _ Hk1). apply unique_In, filter_In.
    split; [apply in_map; exact Hr|].
    rewrite <- Fi. destruct (Hyears r Hr) as [y ->]. reflexivity. }
  assert (C2 : forall r, In r (rows out) -> In (cell_at j r) k2).
  { intros r Hr. apply (sorted_In _ _ Hk2). apply unique_In, filter_In.
    split; [apply in_map; exact Hr|].
    rewrite <- Fj. destruct (Htypes r Hr) as [s ->]. reflexivity. }
  exists (flat_map (fun a => flat_map (group_entry i j (rows out) a) k2) k1).
  split; [exact Hout|]. split.
  { unfold year_type, groupby_size, loc. rewrite Ei, Ej, !bind_Ok.
    fold ys ts. rewrite Hk1, Hk2. reflexivity. }
  assert (Hentry : forall e,
            In e (flat_map (fun a => flat_map (group_entry i j (rows out) a) k2) k1) ->
            exists a b, In a k1 /\ In b k2 /\
              e = ((a, b), pair_count i j a b (rows out)) /\
              1 <= pair_count i j a b (rows out)).
  { intros e He. apply in_flat_map in He. destruct He as (a & Ha & He).
    apply in_flat_map in He. destruct He as (b & Hb & He).
    apply group_entry_In in He. exists a, b. tauto. }
  split; [|split; [|split; [|split; [|split]]]].
  - intros a b n Hin. destruct (Hentry _ Hin) as (a' & b' & _ & _ & E & Hn).
    injection E as -> -> ->. split; [exact Hn|].
    unfold pair_count. f_equal. apply filter_ext. intros r.
    rewrite Fi, Fj. reflexivity.
  - intros r Hr. rewrite Fi, Fj. apply in_map_iff.
    exists ((cell_at i r, cell_at j r),
            pair_count i j (cell_at i r) (cell_at j r) (rows out)).
    split; [reflexivity|].
    apply in_flat_map. exists (cell_at i r). split; [apply C1; exact Hr|].
    apply in_flat_map. exists (cell_at j r). split; [apply C2; exact Hr|].
    unfold group_entry.
    destruct (pair_count i j (cell_at i r) (cell_at j r) (rows out)) eqn:E.
    + exfalso. unfold pair_count in E. apply length_zero_iff_nil in E.
      assert (Hin : In r (filter (fun r0 =>
                       cell_eqb (cell_at i r0) (cell_at i r) &&
                       cell_eqb (cell_at j r0) (cell_at j r)) (rows out))).
      { apply filter_In. split; [exact Hr|]. rewrite !cell_eqb_refl. reflexivity. }
      rewrite E in Hin. contradiction.
    + left. reflexivity.
  - apply (StronglySorted_flat_map cell_lt); [exact S1| |].
    + intros a _. apply (StronglySorted_flat_map cell_lt); [exact S2| |].
      * intros b _. unfold group_entry.
        destruct (pair_count i j a b (rows out)); constructor; constructor.
      * intros b b' x y Hlt Hx Hy.
        apply group_entry_In in Hx, Hy. destruct Hx as [-> _], Hy as [-> _].
        right. simpl. split; [reflexivity|exact Hlt].
    + intros a a' x y Hlt Hx Hy.
      apply in_flat_map in Hx, Hy.
      destruct Hx as (b & _ & Hx), Hy as (b' & _ & Hy).
      apply group_entry_In in Hx, Hy. destruct Hx as [-> _], Hy as [-> _].
      left. exact Hlt.
  - apply (StronglySorted_NoDup pair_lt _ pair_lt_irrefl).
    apply StronglySorted_map.
    apply (StronglySorted_flat_map cell_lt); [exact S1| |].
    + intros a _. apply (StronglySorted_flat_map cell_lt); [exact S2| |].
      * intros b _. unfold group_entry.
        destruct (pair_count i j a b (rows out)); constructor; constructor.
      * intros b b' x y Hlt Hx Hy.
        apply group_entry_In in Hx, Hy. destruct Hx as [-> _], Hy as [-> _].
        right. simpl. split; [reflexivity|exact Hlt].
    + intros a a' x y Hlt Hx Hy.
      apply in_flat_map in Hx, Hy.
      destruct Hx as (b & _ & Hx), Hy as (b' & _ & Hy).
      apply group_entry_In in Hx, Hy. destruct Hx as [-> _], Hy as [-> _].
      left. exact Hlt.
  - intros a. rewrite filter_flat_map, sum_flat_map.
    rewrite (map_ext_in _
               (fun a' => if cell_eqb a' a
                          then length (filter (fun r => cell_eqb (cell_at i r) a')
                                              (rows out))
                          else 0)).
    + rewrite (filter_ext _ (fun r => cell_eqb (cell_at i r) a))
        by (intros r; rewrite Fi; reflexivity).
      destruct (in_dec cell_eq_dec a k1) as [Hin|Hout'].
      * clear - N1 Hin. induction N1 as [|k t Hk N IH]; [contradiction|].
        simpl. destruct (cell_eqb k a) eqn:E.
        -- apply cell_eqb_eq in E. subst k.
           assert (Z0 : list_sum (map (fun a' => if cell_eqb a' a
                          then length (filter (fun r => cell_eqb (cell_at i r) a')
                                              (rows out)) else 0) t) = 0).
           { clear IH N Hin. induction t as [|y t IH]; simpl; [reflexivity|].
             destruct (cell_eqb y a) eqn:E.
             - apply cell_eqb_eq in E. subst y. exfalso. apply Hk. left. reflexivity.
             - apply IH. intros H. apply Hk. right. exact H. }
           rewrite Z0. lia.
        -- apply cell_eqb_neq in E. destruct Hin as [Hin|Hin]; [congruence|].
           apply IH. exact Hin.
      * assert (E0 : filter (fun r => cell_eqb (cell_at i r) a) (rows out) = []).
        { apply filter_none. intros r Hr.
          apply cell_eqb_neq. intros E. apply Hout'. rewrite <- E. apply C1, Hr. }
        rewrite E0. simpl.
        clear - Hout'. induction k1 as [|k t IH]; simpl; [reflexivity|].
        destruct (cell_eqb k a) eqn:E.
        -- apply cell_eqb_eq in E. subst k. exfalso. apply Hout'. left. reflexivity.
        -- apply IH. intros H. apply Hout'. right. exact H.
    + intros a' Ha'. destruct (cell_eqb a' a) eqn:E.
      * rewrite filter_all.
        -- apply (group_block_sum i j (rows out) a' k2 N2 C2).
        -- intros e He. apply in_flat_map in He. destruct He as (b & _ & He).
           apply group_entry_In in He. destruct He as [-> _]. exact E.
      * rewrite filter_none; [reflexivity|].
        intros e He. apply in_flat_map in He. destruct He as (b & _ & He).
        apply group_entry_In in He. destruct He as [-> _]. exact E.
  - rewrite sum_flat_map.
    rewrite (map_ext _ (fun a => length (filter (fun r => cell_eqb (cell_at i r) a)
                                               (rows out)))).
    + unfold total_titles. apply count_partition; assumption.
    + intros a. apply (group_block_sum i j (rows out) a k2 N2 C2).
Qed.

Lemma year_type_table_witness :
  filterable sample = true /\
  exists out yt,
    filtered_df sample [Str "Movie"; Str "TV Show"] (2018, 2020)%Z [] = Ok out /\
    year_type out = Ok yt /\ list_sum (map snd yt) = total_titles out.
Proof.
  split; [reflexivity|].
  destruct (year_type_table sample [Str "Movie"; Str "TV Show"] 2018%Z 2020%Z []
              eq_refl) as (out & yt & H1 & H2 & _ & _ & _ & _ & _ & H3).
  - intros v [<-|[<-|[]]]; eauto.
  - exists out, yt. repeat split; assumption.
Defined.

(** X16. The tables handed to the two bar charts hold the rows of the
    top-10 countries and top-12 genres tables, no more and no fewer, in
    ascending order of count (largest bar last). *)
Theorem chart_tables {sorter : SortValues} filtered :
  has_column "country" filtered = true ->
  has_column "listed_in" filtered = true ->
  exists tc tc' tg tg',
    top_countries filtered = Ok tc /\ top_countries_chart filtered = Ok tc' /\
    top_genres filtered = Ok tg /\ top_genres_chart filtered = Ok tg' /\
    Permutation tc' tc /\ Permutation tg' tg /\
    StronglySorted (fun a b => snd a <= snd b) tc' /\
    StronglySorted (fun a b => snd a <= snd b) tg' /\
    length tc' <= 10 /\ length tg' <= 12.
Proof.
  intros Hc Hl.
  destruct (top_tokens_table "country" 10 filtered Hc) as (tc & Etc & (L1 & _)).
  destruct (top_tokens_table "listed_in" 12 filtered Hl) as (tg & Etg & (L2 & _)).
  destruct (chart_order filtered) as [Cc Cg].
  destruct (Cc tc Etc) as (tc' & Etc' & Pc & Sc).
  destruct (Cg tg Etg) as (tg' & Etg' & Pg & Sg).
  exists tc, tc', tg, tg'.
  rewrite (Permutation_length Pc), (Permutation_length Pg).
  repeat split; assumption.
Qed.

Lemma chart_tables_witness :
  has_column "country" sample = true /\ has_column "listed_in" sample = true /\
  exists tc', top_countries_chart (sorter := stable_sort) sample = Ok tc' /\
              StronglySorted (fun a b => snd a <= snd b) tc'.
Proof.
  split; [reflexivity|]. split; [reflexivity|].
  destruct (chart_tables (sorter := stable_sort) sample eq_refl eq_refl)
    as (tc & tc' & tg & tg' & _ & H & _ & _ & _ & _ & S & _).
  exists tc'. split; assumption.
Defined.

(* ================================================================== *)
(** ** Further properties: splitting *)
(* ================================================================== *)

Lemma starts_with_append p x y :
  starts_with p x = true -> starts_with p (String.append x y) = true.
Proof.
  revert x. induction p as [|a p IH]; intros x H; [reflexivity|].
  destruct x as [|b x]; simpl in *; [discriminate|].
  apply andb_true_iff in H. destruct H as [H1 H2].
  rewrite H1. simpl. apply IH. exact H2.
Qed.

Lemma drop_chars_append i x y :
  i <= String.length x ->
  drop_chars i (String.append x y) = String.append (drop_chars i x) y.
Proof.
  revert x. induction i as [|i IH]; intros x H; [reflexivity|].
  destruct x as [|a x]; simpl in *; [lia|]. apply IH. lia.
Qed.

Lemma drop_chars_past i x : String.length x <= i -> drop_chars i x = EmptyString.
Proof.
  revert x. induction i as [|i IH]; intros x H.
  - destruct x; simpl in *; [reflexivity|lia].
  - destruct x as [|a x]; simpl in *; [reflexivity|]. apply IH. lia.
Qed.

Lemma starts_with_empty p : p <> EmptyString -> starts_with p EmptyString = false.
Proof. destruct p; [congruence|reflexivity]. Qed.

Lemma rev_string_cons a cur s :
  String.append (rev_string (a :: cur) EmptyString) s =
  String.append (rev_string cur EmptyString) (String a s).
Proof.
  simpl. rewrite (rev_string_append cur (String a EmptyString)), append_assoc'.
  reflexivity.
Qed.

Lemma rev_string_length cur out :
  String.length (rev_string cur out) = length cur + String.length out.
Proof.
  revert out. induction cur as [|a t IH]; intros out; simpl; [reflexivity|].
  rewrite IH. simpl. lia.
Qed.

Lemma split_scan_clean sep s skip cur t :
  sep <> EmptyString ->
  (skip = 0 \/ cur = []) ->
  clean_so_far sep cur (drop_chars skip s) ->
  In t (split_scan sep s skip cur) -> ~ contains sep t.
Proof.
  intros Hsep. revert skip cur.
  induction s as [|a s IH]; intros skip cur Hstate Hclean Hin.
  - simpl in Hin. destruct Hin as [<-|[]]. intros [i Hi].
    destruct (Nat.lt_ge_cases i (length cur)) as [Hlt|Hge].
    + specialize (Hclean i Hlt).
      assert (E : drop_chars skip EmptyString = EmptyString) by (destruct skip; reflexivity).
      rewrite E, append_empty_r in Hclean. congruence.
    + rewrite drop_chars_past in Hi
        by (rewrite rev_string_length; simpl; lia).
      rewrite (starts_with_empty sep Hsep) in Hi. discriminate.
  - destruct skip as [|k].
    + cbn [split_scan] in Hin. cbn [drop_chars] in Hclean.
      destruct (starts_with sep (String a s)) eqn:Esw.
      * destruct Hin as [<-|Hin].
        -- intros [i Hi].
           destruct (Nat.lt_ge_cases i (length cur)) as [Hlt|Hge].
           ++ specialize (Hclean i Hlt).
              rewrite drop_chars_append in Hclean
                by (rewrite rev_string_length; simpl; lia).
              rewrite (starts_with_append _ _ _ Hi) in Hclean. discriminate.
           ++ rewrite drop_chars_past in Hi
                by (rewrite rev_string_length; simpl; lia).
              rewrite (starts_with_empty sep Hsep) in Hi. discriminate.
        -- apply (IH (String.length sep - 1) []); [right; reflexivity| |exact Hin].
           intros i Hi. simpl in Hi. lia.
      * apply (IH 0 (a :: cur)); [left; reflexivity| |exact Hin].
        intros i Hi. cbn [drop_chars]. rewrite rev_string_cons.
        simpl in Hi.
        destruct (Nat.lt_ge_cases i (length cur)) as [Hlt|Hge].
        -- apply Hclean. exact Hlt.
        -- assert (i = length cur) by lia. subst i.
           rewrite drop_chars_append by (rewrite rev_string_length; simpl; lia).
           rewrite drop_chars_past by (rewrite rev_string_length; simpl; lia).
           simpl. exact Esw.
    + cbn [split_scan] in Hin. destruct Hstate as [Hs| ->]; [discriminate|].
      apply (IH k []); [right; reflexivity| |exact Hin].
      intros i Hi. simpl in Hi. lia.
Qed.

(** X17. Splitting a country or genre string on [", "] gives at least
    one token, no token contains [", "], and joining the tokens with
    [", "] gives the string back; so the cells a row offers to the
    country filter are exactly the comma-separated names of its
    [country] field. *)
Theorem split_round_trip cols r s :
  field cols "country" r = Str s ->
  country_cells cols r = map Str (split ", " s) /\
  country_cells cols r <> [] /\
  (forall c, In c (country_cells cols r) -> ~ contains ", " (text_of c)) /\
  String.concat ", " (map text_of (country_cells cols r)) = s.
Proof.
  intros E. rewrite (country_cells_string cols r s E).
  split; [reflexivity|]. split.
  - destruct (split ", " s) eqn:Es; [|discriminate].
    exfalso. apply (split_nonempty ", " s Es).
  - split.
    + intros c Hc. apply in_map_iff in Hc. destruct Hc as (t & <- & Ht).
      simpl. apply (split_scan_clean ", " s 0 [] t); try discriminate;
        [left; reflexivity | intros i Hi; simpl in Hi; lia | exact Ht].
    + rewrite map_map. simpl. rewrite map_id. apply split_join. discriminate.
Qed.

Lemma split_round_trip_witness :
  country_cells (columns sample) (mkRow 0 [Str "Movie"; Str "India, Canada"])
  = [Str "India"; Str "Canada"].
Proof.
  apply (split_round_trip (columns sample)
           (mkRow 0 [Str "Movie"; Str "India, Canada"]) "India, Canada" eq_refl).
Defined.

(* ================================================================== *)
(** ** Further properties: from the file to the tables *)
(* ================================================================== *)

Lemma load_data_strings (parse_datetime : list cell -> cell -> option Timestamp)
    raw df c :
  load_data parse_datetime raw = Ok df ->
  c = "country" \/ c = "listed_in" ->
  text_column c raw = true ->
  0 < length (rows df) ->
  string_column c df = true.
Proof.
  intros Hload Hc Ht Hrows. unfold text_column in Ht.
  apply andb_true_iff in Ht. destruct Ht as [Hcol Htext].
  unfold string_column.
  rewrite (load_data_has_column parse_datetime raw df c Hload Hcol).
  destruct (rows df) as [|r0 t0] eqn:Er; [simpl in Hrows; lia|].
  rewrite <- Er. replace (length (rows df) =? 0) with false
    by (rewrite Er; reflexivity).
  simpl. apply forallb_forall. intros r Hr.
  destruct (load_data_row parse_datetime raw df r Hload Hr)
    as (r1 & Hin & _ & -> & ->).
  rewrite forallb_forall in Htext. specialize (Htext r1 Hin).
  destruct (clean_fields (date_parser parse_datetime raw) (columns raw) r1)
    as (_ & _ & _ & Fc & Fl & _).
  destruct Hc as [-> | ->]; [rewrite Fc | rewrite Fl];
    destruct (field (columns raw) _ r1); try discriminate; reflexivity.
Qed.

(** X18. A file with a [type] column and text columns [country] and
    [listed_in] has loaded, with at least one row.  Then [country] and
    [listed_in] of the dataset are columns of strings, and the filter and
    the count tables raise for no selection: the filter returns a frame
    that still has every column of the file, and both counting KPIs, the
    donut's table, the two top-N tables and the rating table are computed
    from it. *)
Theorem pipeline_runs {sorter : SortValues}
    (parse_datetime : list cell -> cell -> option Timestamp)
    raw df content_type year_range country_selected :
  load_data parse_datetime raw = Ok df ->
  has_column "type" raw = true ->
  text_column "country" raw = true ->
  text_column "listed_in" raw = true ->
  0 < length (rows df) ->
  string_column "country" df = true /\
  string_column "listed_in" df = true /\
  exists out m t tc top10 top12 rc,
    filtered_df df content_type year_range country_selected = Ok out /\
    (forall c, has_column c raw = true -> has_column c out = true) /\
    movies out = Ok m /\ tv_shows out = Ok t /\
    type_counts out = Ok tc /\
    top_countries out = Ok top10 /\ top_genres out = Ok top12 /\
    rating_counts out = Ok rc.
Proof.
  intros Hload Ht Htc Htl Hrows.
  split; [apply (load_data_strings parse_datetime raw df "country"); auto|].
  split; [apply (load_data_strings parse_datetime raw df "listed_in"); auto|].
  pose proof (load_data_has_column parse_datetime raw df "type" Hload Ht) as Htd.
  pose proof (load_data_filterable parse_datetime raw df Hload Htd) as F.
  destruct (filtered_df_total df content_type year_range country_selected F)
    as (out & Hout & Hcols & _).
  assert (Hkeep : forall c, has_column c raw = true -> has_column c out = true).
  { intros c Hc.
    pose proof (load_data_has_column parse_datetime raw df c Hload Hc) as Hd.
    rewrite has_column_In in *. rewrite Hcols.
    destruct country_selected; [exact Hd | apply In_add_column; exact Hd]. }
  destruct (load_data_columns parse_datetime raw df Hload) as (_ & Hc & Hl & Hr).
  destruct (top_tokens_table "country" 10 out (Hkeep _ Hc)) as (top10 & E10 & _).
  destruct (top_tokens_table "listed_in" 12 out (Hkeep _ Hl)) as (top12 & E12 & _).
  exists out. eexists. eexists. eexists. exists top10, top12. eexists.
  split; [exact Hout|]. split; [exact Hkeep|].
  unfold movies, tv_shows, type_counts, rating_counts.
  rewrite !(bind_getitem "type" out _ (Hkeep _ Ht)).
  rewrite (bind_getitem "rating" out _ (Hkeep _ Hr)).
  repeat split; try reflexivity; assumption.
Qed.

Lemma pipeline_runs_witness :
  load_data parse_known sample_raw = Ok sample /\
  text_column "country" sample_raw = true /\
  text_column "listed_in" sample_raw = true /\
  exists out rc,
    filtered_df sample [Str "Movie"] (2018, 2020)%Z [Str "Canada"] = Ok out /\
    rating_counts (sorter := stable_sort) out = Ok rc.
Proof.
  split; [reflexivity|]. split; [reflexivity|]. split; [reflexivity|].
  destruct (pipeline_runs (sorter := stable_sort) parse_known sample_raw sample
              [Str "Movie"] (2018, 2020)%Z [Str "Canada"]
              eq_refl eq_refl eq_refl eq_refl ltac:(simpl; lia))
    as (_ & _ & out & m & t & tc & t10 & t12 & rc
        & H1 & _ & _ & _ & _ & _ & _ & H2).
  exists out, rc. split; assumption.
Defined.
